(** * B3 historical quotes: ingestion, security master and query engine

    A shallow embedding of the three modules of [b3_analyzer]:
    - [dictionary_builder.py]  (module [DictionaryBuilder]),
    - [raw_data_processor.py]  (module [RawDataProcessor]),
    - [analyzer.py]            (module [Analyzer]);
    the arithmetic of the scaling of prices is in module [PriceScaling].

    Tables are lists of rows, a missing cell (NaN, NaT, None, <NA>) is
    [None], Python dictionaries are [gmap]s, exceptions are values of an
    error type and the scans of the columnar store are logged explicitly. *)

From Stdlib Require Import ZArith String Ascii List Floats DecimalString.
From stdpp Require Import gmap strings list sorting.

Local Open Scope string_scope.
Local Open Scope list_scope.

(** ** Python strings and their order *)

(** [sorted] on [str] compares code points; the text files are decoded as
    latin-1, so a character is one byte and [String.leb] is that order. *)
Definition str_le (s1 s2 : string) : Prop := String.leb s1 s2 = true.

#[global] Instance str_le_dec (s1 s2 : string) : Decision (str_le s1 s2).
Proof. unfold str_le. apply _. Defined.

(** [sep.join(parts)]. *)
Definition join (sep : string) (parts : list string) : string :=
  String.concat sep parts.

(** [sorted(xs)] for a list of strings. *)
Definition sorted (xs : list string) : list string := merge_sort str_le xs.

(** A missing cell sorts after every value, as pandas' [na_position='last']
    does for an ascending sort. *)
Definition cell_le (a b : option string) : Prop :=
  match a, b with
  | _, None => True
  | None, Some _ => False
  | Some x, Some y => str_le x y
  end.

#[global] Instance cell_le_dec (a b : option string) : Decision (cell_le a b).
Proof. destruct a, b; simpl; apply _. Defined.

(** Descending order on trade dates with NaT last: [date_ge a b] reads
    "a row dated [a] may stand before a row dated [b]". *)
Definition date_ge (a b : option Z) : Prop :=
  match a, b with
  | _, None => True
  | None, Some _ => False
  | Some x, Some y => (y <= x)%Z
  end.

#[global] Instance date_ge_dec (a b : option Z) : Decision (date_ge a b).
Proof. destruct a, b; simpl; apply _. Defined.

(** [Series.unique()] and [drop_duplicates(keep='first')]: the first row of
    every key survives, in order of first appearance. *)
Fixpoint drop_duplicates_from {A K : Type} `{EqDecision K} (key : A -> K)
    (seen : list K) (l : list A) : list A :=
  match l with
  | [] => []
  | x :: l' =>
      if decide (key x ∈ seen) then drop_duplicates_from key seen l'
      else x :: drop_duplicates_from key (key x :: seen) l'
  end.

Definition drop_duplicates {A K : Type} `{EqDecision K} (key : A -> K)
    (l : list A) : list A :=
  drop_duplicates_from key [] l.

Definition unique {A : Type} `{EqDecision A} (l : list A) : list A :=
  drop_duplicates (fun x => x) l.

(** [[x for x in xs if pd.notna(x)]]. *)
Definition notna_values {A : Type} (xs : list (option A)) : list A :=
  omap (fun x => x) xs.

(** [pd.merge(left, right, on=key, how='left')] where the right table is
    given as (key, value) pairs: every left row is paired with each right
    row of its key, or once with a missing value when there is none. *)
Definition merge_left {L V O : Type} (key : L -> option string)
    (mk : L -> option V -> O) (left : list L) (right : list (string * V))
    : list O :=
  flat_map
    (fun l =>
       match filter (fun kv => key l = Some kv.1) right with
       | [] => [mk l None]
       | ms => map (fun kv => mk l (Some kv.2)) ms
       end)
    left.

(** ** Exceptions *)

(** The Python exceptions met in the three modules; each is a subclass of
    [Exception], so [except Exception] catches every one of them. *)
Inductive exn :=
| ValueError | TypeError | AttributeError | KeyError | OSError
| ArrowInvalid | re_error.

#[global] Instance exn_eq_dec : EqDecision exn.
Proof. solve_decision. Defined.

(** A computation that returns ([inr]) or raises ([inl]). *)
Definition raise {A : Type} (e : exn) : exn + A := inl e.

Definition bind {A B : Type} (m : exn + A) (k : A -> exn + B) : exn + B :=
  match m with
  | inl e => inl e
  | inr a => k a
  end.

Notation "'do' x <- m ; k" := (bind m (fun x => k))
  (at level 10, x name, m at level 100, k at level 200).

(** [[f(x) for x in l]] where [f] may raise: the first exception wins. *)
Fixpoint traverse {A B : Type} (f : A -> exn + B) (l : list A)
    : exn + list B :=
  match l with
  | [] => inr []
  | x :: l' => do y <- f x; do ys <- traverse f l'; inr (y :: ys)
  end.

(** ** More of Python's [str] *)

Definition ascii_in (codes : list nat) (c : ascii) : bool :=
  bool_decide (nat_of_ascii c ∈ codes).

(** The characters [read_fwf] trims from a field (its delimiter, newline,
    carriage return, tab and space). *)
Definition fwf_delimiter : ascii -> bool := ascii_in [10; 13; 9; 32]%nat.

(** Whitespace for [str.strip()] among the latin-1 code points. *)
Definition py_whitespace : ascii -> bool :=
  ascii_in [9; 10; 11; 12; 13; 28; 29; 30; 31; 32; 133; 160]%nat.

Fixpoint lstrip_list (ws : ascii -> bool) (l : list ascii) : list ascii :=
  match l with
  | [] => []
  | c :: l' => if ws c then lstrip_list ws l' else l
  end.

(** [s.strip(chars)]. *)
Definition strip (ws : ascii -> bool) (s : string) : string :=
  string_of_list_ascii
    (reverse (lstrip_list ws (reverse (lstrip_list ws (list_ascii_of_string s))))).

(** [s[start:stop]] for [0 <= start <= stop]; a short string gives what it
    has. *)
Definition slice (s : string) (start stop : nat) : string :=
  substring start (stop - start) s.

Definition lower_ascii (c : ascii) : ascii :=
  let n := nat_of_ascii c in
  if bool_decide (65 <= n <= 90)%nat then ascii_of_nat (n + 32) else c.

Definition upper_ascii (c : ascii) : ascii :=
  let n := nat_of_ascii c in
  if bool_decide (97 <= n <= 122)%nat then ascii_of_nat (n - 32) else c.

Fixpoint map_string (f : ascii -> ascii) (s : string) : string :=
  match s with
  | EmptyString => EmptyString
  | String c s' => String (f c) (map_string f s')
  end.

(** The letters A-Z in lower case and the letters a-z in upper case.
    [lower] is [s.lower()] where the result is compared with an ASCII
    text: in latin-1 only the letters A-Z become an ASCII letter;
    [upper_a_z] is what a search with [re.IGNORECASE] for ASCII letters
    compares, and [s.upper()] on a text of ASCII characters. *)
Definition lower (s : string) : string := map_string lower_ascii s.
Definition upper_a_z (s : string) : string := map_string upper_ascii s.

(** A text of ASCII characters. *)
Definition is_ascii_text (s : string) : bool :=
  forallb (fun c => bool_decide (nat_of_ascii c < 128)%nat)
    (list_ascii_of_string s).

(** [s.startswith(p)] and [s.endswith(p)]. *)
Definition startswith (p s : string) : bool := String.prefix p s.

Definition endswith (p s : string) : bool :=
  bool_decide (slice s (String.length s - String.length p) (String.length s) = p).

(** The text of a Python literal written here in UTF-8: one character for
    every code point (all of them are below 256). *)
Fixpoint latin1_list (l : list ascii) : list ascii :=
  match l with
  | [] => []
  | c :: l' =>
      match l' with
      | d :: l'' =>
          if bool_decide (nat_of_ascii c = 195)%nat
          then ascii_of_nat (nat_of_ascii d + 64) :: latin1_list l''
          else c :: latin1_list l'
      | [] => [c]
      end
  end.

Definition latin1 (utf8 : string) : string :=
  string_of_list_ascii (latin1_list (list_ascii_of_string utf8)).

Module DictionaryBuilder.

(** The five columns [create_security_master] reads from the store. *)
Record QuoteRow := {
  DATA_PREGAO : option Z;
  CODISI : option string;
  CODNEG : option string;
  NOMRES : option string;
  ESPECI : option string
}.

(** One row of [dicionario_ativos]. *)
Record MasterEntry := {
  m_CODISI : option string;
  ULTIMO_TICKER : option string;
  ULTIMO_NOME : option string;
  ULTIMA_ESPECIFICACAO : option string;
  TICKERS_HISTORICOS : option string;
  NOMES_HISTORICOS : option string
}.

#[global] Instance QuoteRow_eq_dec : EqDecision QuoteRow.
Proof. solve_decision. Defined.

#[global] Instance MasterEntry_eq_dec : EqDecision MasterEntry.
Proof. solve_decision. Defined.

(** [df_full.dropna(subset=['CODISI'])]. *)
Definition dropna_CODISI (df : list QuoteRow) : list QuoteRow :=
  filter (fun r => is_Some (CODISI r)) df.

Definition newer_first (r1 r2 : QuoteRow) : Prop :=
  date_ge (DATA_PREGAO r1) (DATA_PREGAO r2).

(** [sort_values('DATA_PREGAO', ascending=False)].  pandas leaves the order
    of rows with equal dates open; this is one admissible order, and the
    results about the master below are proved for every sort. *)
Definition sort_values_DATA_PREGAO_desc (df : list QuoteRow) : list QuoteRow :=
  merge_sort newer_first df.

(** Latest snapshot of one instrument: the row renamed, without the date. *)
Definition base_entry (r : QuoteRow) : MasterEntry :=
  {| m_CODISI := CODISI r;
     ULTIMO_TICKER := CODNEG r;
     ULTIMO_NOME := NOMRES r;
     ULTIMA_ESPECIFICACAO := ESPECI r;
     TICKERS_HISTORICOS := None;
     NOMES_HISTORICOS := None |}.

(** Keys of [groupby('CODISI')]: the distinct non-missing identifiers,
    sorted. *)
Definition group_keys (df : list QuoteRow) : list string :=
  sorted (unique (notna_values (CODISI <$> df))).

(** The column [col] of the group of identifier [k]. *)
Definition group_column (col : QuoteRow -> option string) (df : list QuoteRow)
    (k : string) : list (option string) :=
  col <$> filter (fun r => CODISI r = Some k) df.

(** [sorted([str(item) for item in x.unique() if pd.notna(item)])]. *)
Definition trail_tokens (x : list (option string)) : list string :=
  sorted (notna_values (unique x)).

(** The lambda applied to each group. *)
Definition trail (x : list (option string)) : string :=
  join " | " (trail_tokens x).

(** [df.groupby('CODISI')[col].apply(lambda ...).reset_index()]. *)
Definition variacoes (col : QuoteRow -> option string) (df : list QuoteRow)
    : list (string * string) :=
  (fun k => (k, trail (group_column col df k))) <$> group_keys df.

Definition set_TICKERS (e : MasterEntry) (v : option string) : MasterEntry :=
  {| m_CODISI := m_CODISI e;
     ULTIMO_TICKER := ULTIMO_TICKER e;
     ULTIMO_NOME := ULTIMO_NOME e;
     ULTIMA_ESPECIFICACAO := ULTIMA_ESPECIFICACAO e;
     TICKERS_HISTORICOS := v;
     NOMES_HISTORICOS := NOMES_HISTORICOS e |}.

Definition set_NOMES (e : MasterEntry) (v : option string) : MasterEntry :=
  {| m_CODISI := m_CODISI e;
     ULTIMO_TICKER := ULTIMO_TICKER e;
     ULTIMO_NOME := ULTIMO_NOME e;
     ULTIMA_ESPECIFICACAO := ULTIMA_ESPECIFICACAO e;
     TICKERS_HISTORICOS := TICKERS_HISTORICOS e;
     NOMES_HISTORICOS := v |}.

Definition by_ULTIMO_TICKER (e1 e2 : MasterEntry) : Prop :=
  cell_le (ULTIMO_TICKER e1) (ULTIMO_TICKER e2).

(** The table [create_security_master] writes (to Parquet and to Excel),
    for an arbitrary implementation [sort_desc] of the descending sort. *)
Definition create_security_master_with
    (sort_desc : list QuoteRow -> list QuoteRow) (df_full : list QuoteRow)
    : list MasterEntry :=
  let df_ativos := dropna_CODISI df_full in
  let df_base_ativos :=
    base_entry <$> drop_duplicates CODISI (sort_desc df_ativos) in
  let df_variacoes_tickers := variacoes CODNEG df_ativos in
  let df_variacoes_nomes := variacoes NOMRES df_ativos in
  let df_dicionario_ativos :=
    merge_left m_CODISI set_TICKERS df_base_ativos df_variacoes_tickers in
  let df_dicionario_ativos :=
    merge_left m_CODISI set_NOMES df_dicionario_ativos df_variacoes_nomes in
  merge_sort by_ULTIMO_TICKER df_dicionario_ativos.

Definition create_security_master (df_full : list QuoteRow) : list MasterEntry :=
  create_security_master_with sort_values_DATA_PREGAO_desc df_full.

(** The row of the final table that belongs to the snapshot row [r], with
    the two trails computed from the table [df]. *)
Definition entry_of (df : list QuoteRow) (r : QuoteRow) : MasterEntry :=
  {| m_CODISI := CODISI r;
     ULTIMO_TICKER := CODNEG r;
     ULTIMO_NOME := NOMRES r;
     ULTIMA_ESPECIFICACAO := ESPECI r;
     TICKERS_HISTORICOS :=
       (fun k => trail (group_column CODNEG df k)) <$> CODISI r;
     NOMES_HISTORICOS :=
       (fun k => trail (group_column NOMRES df k)) <$> CODISI r |}.

(** [r] is a row of [df] with the maximum trade date of its identifier
    (a missing date counts as older than every date). *)
Definition latest_row_of (df : list QuoteRow) (r : QuoteRow) : Prop :=
  r ∈ df ∧
  forall r', r' ∈ df -> CODISI r' = CODISI r ->
    date_ge (DATA_PREGAO r) (DATA_PREGAO r').

(** The two dictionaries of [create_code_dictionaries]: code and
    description, in the order of the literals. *)
Definition map_codbdi : list (string * string) :=
  prod_map id latin1 <$>
    [ ("02", "LOTE PADRÃO"); ("05", "SANCIONADAS"); ("06", "CONCORDATÁRIAS");
      ("07", "RECUPERAÇÃO EXTRAJUDICIAL"); ("08", "RECUPERAÇÃO JUDICIAL");
      ("09", "REGIME DE ADMINISTRAÇÃO ESPECIAL TEMPORÁRIA");
      ("10", "DIREITOS E RECIBOS"); ("11", "INTERVENÇÃO");
      ("12", "FUNDOS IMOBILIÁRIOS"); ("14", "CERTIFICADOS DE INVESTIMENTO");
      ("18", "OBRIGAÇÕES"); ("22", "BÔNUS (PRIVADOS)");
      ("26", "APÓLICES/BÔNUS/TÍTULOS (PÚBLICOS)");
      ("32", "EXERCÍCIO DE OPÇÕES DE COMPRA DE ÍNDICES");
      ("33", "EXERCÍCIO DE OPÇÕES DE VENDA DE ÍNDICES");
      ("38", "EXERCÍCIO DE OPÇÕES DE COMPRA");
      ("42", "EXERCÍCIO DE OPÇÕES DE VENDA");
      ("46", "LEILÃO DE AÇÕES EM MORA"); ("48", "LEILÃO DE AÇÕES (ART. 49)");
      ("49", "LEILÃO DE AÇÕES"); ("50", "LEILÃO DE AÇÕES");
      ("51", "LEILÃO DE AÇÕES"); ("52", "LEILÃO DE AÇÕES");
      ("53", "LEILÃO DE AÇÕES"); ("54", "LEILÃO DE AÇÕES");
      ("56", "LEILão DE AÇÕES"); ("58", "LEILÃO"); ("60", "LEILÃO");
      ("61", "LEILÃO"); ("62", "LEILÃO");
      ("66", "DEBÊNTURES COM DATA DE VENCIMENTO ATÉ 3 ANOS");
      ("68", "DEBÊNTURES COM DATA DE VENCIMENTO MAIOR QUE 3 ANOS");
      ("70", "FUTURO COM RETENÇÃO DE GANHOS");
      ("71", "FUTURO COM MOVIMENTAÇÃO DIÁRIA");
      ("74", "OPÇÕES DE COMPRA DE ÍNDICES");
      ("75", "OPÇÕES DE VENDA DE ÍNDICES"); ("78", "OPÇÕES DE COMPRA");
      ("82", "OPÇÕES DE VENDA"); ("83", "BOVESPAFIX"); ("84", "SOMA FIX");
      ("90", "TERMO"); ("96", "FRACIONÁRIO"); ("99", "TOTAL") ].

Definition map_tpmerc : list (string * string) :=
  prod_map id latin1 <$>
    [ ("010", "VISTA"); ("012", "EXERCÍCIO DE OPÇÕES DE COMPRA");
      ("013", "EXERCÍCIO DE OPÇÕES DE VENDA"); ("017", "LEILÃO");
      ("020", "FRACIONÁRIO"); ("030", "TERMO");
      ("050", "FUTURO COM RETENÇÃO DE GANHO");
      ("060", "FUTURO COM MOVIMENTAÇÃO DIÁRIA"); ("070", "OPÇÕES DE COMPRA");
      ("080", "OPÇÕES DE VENDA") ].

(** [pd.to_numeric] on a text of decimal digits. *)
Definition to_numeric_code (code : string) : exn + Z :=
  match code, DecimalString.NilZero.uint_of_string code with
  | String _ _, Some digits => inr (Z.of_uint digits)
  | _, _ => raise ValueError
  end.

(** [pd.DataFrame(list(m.items()), columns=[...])] with its first column
    passed through [pd.to_numeric]: the rows (code, description). *)
Definition code_frame (m : list (string * string)) : exn + list (Z * string) :=
  traverse (fun cd => do code <- to_numeric_code cd.1; inr (code, cd.2)) m.

(** The files of the outputs directory, where they exist. *)
Record Outputs := {
  dicionario_ativos : option (list MasterEntry);
  dicionario_codbdi : option (list (Z * string));
  dicionario_tpmerc : option (list (Z * string))
}.

(** [create_code_dictionaries]: both frames are built before the first is
    written; an exception is reported and leaves the directory as it is. *)
Definition create_code_dictionaries (out : Outputs) : Outputs :=
  match code_frame map_codbdi, code_frame map_tpmerc with
  | inr df_dict_codbdi, inr df_dict_tpmerc =>
      {| dicionario_ativos := dicionario_ativos out;
         dicionario_codbdi := Some df_dict_codbdi;
         dicionario_tpmerc := Some df_dict_tpmerc |}
  | _, _ => out
  end.

(** A store in which one session of an instrument holds the empty string
    (not a missing value) as its ticker. *)
Definition blank_ticker_rows : list QuoteRow :=
  [ {| DATA_PREGAO := Some 20230103%Z; CODISI := Some "BRPETRACNPR6";
       CODNEG := Some ""; NOMRES := Some "PETROBRAS";
       ESPECI := Some "PN" |};
    {| DATA_PREGAO := Some 20230104%Z; CODISI := Some "BRPETRACNPR6";
       CODNEG := Some "PETR4"; NOMRES := Some "PETROBRAS";
       ESPECI := Some "PN" |} ].

(** The spec's scenario: two sessions of one instrument. *)
Definition petr_rows : list QuoteRow :=
  [ {| DATA_PREGAO := Some 20230103%Z; CODISI := Some "BRPETRACNPR6";
       CODNEG := Some "PETR3"; NOMRES := Some "PETROBRAS";
       ESPECI := Some "PN" |};
    {| DATA_PREGAO := Some 20230104%Z; CODISI := Some "BRPETRACNPR6";
       CODNEG := Some "PETR4"; NOMRES := Some "PETROBRAS";
       ESPECI := Some "PN" |} ].

Example create_security_master_petr :
  create_security_master petr_rows =
  [ {| m_CODISI := Some "BRPETRACNPR6"; ULTIMO_TICKER := Some "PETR4";
       ULTIMO_NOME := Some "PETROBRAS"; ULTIMA_ESPECIFICACAO := Some "PN";
       TICKERS_HISTORICOS := Some "PETR3 | PETR4";
       NOMES_HISTORICOS := Some "PETROBRAS" |} ].
Proof. vm_compute. reflexivity. Qed.


(** *** Orders used by the sorts *)

Lemma str_le_trans (s1 s2 s3 : string) :
  str_le s1 s2 -> str_le s2 s3 -> str_le s1 s3.
Proof.
  unfold str_le, String.leb. revert s2 s3.
  induction s1 as [|a s1 IH]; intros [|b s2] [|c s3]; simpl; try done.
  unfold Ascii.compare.
  destruct (N.compare_spec (N_of_ascii a) (N_of_ascii b)) as [Hab|Hab|Hab];
    destruct (N.compare_spec (N_of_ascii b) (N_of_ascii c)) as [Hbc|Hbc|Hbc];
    destruct (N.compare_spec (N_of_ascii a) (N_of_ascii c)) as [Hac|Hac|Hac];
    try done; try lia; eauto.
Qed.

#[global] Instance str_le_transitive : Transitive str_le.
Proof. intros s1 s2 s3. apply str_le_trans. Qed.

#[global] Instance str_le_total : Total str_le.
Proof. intros s1 s2. apply String.leb_total. Qed.

#[global] Instance str_le_antisymm : AntiSymm (=) str_le.
Proof. intros s1 s2. apply String.leb_antisym. Qed.

#[global] Instance cell_le_total : Total cell_le.
Proof.
  intros [x|] [y|]; simpl; auto. apply str_le_total.
Qed.

#[global] Instance date_ge_total : Total date_ge.
Proof. intros [x|] [y|]; simpl; auto. lia. Qed.

#[global] Instance date_ge_transitive : Transitive date_ge.
Proof. intros [x|] [y|] [z|]; simpl; try done. lia. Qed.

Lemma date_ge_refl (a : option Z) : date_ge a a.
Proof. destruct a; simpl; [lia|done]. Qed.

(** *** Facts about the pandas primitives *)

Section drop_duplicates_facts.
Context {A K : Type} `{EqDecision K} (key : A -> K).

Lemma elem_of_drop_duplicates_from (seen : list K) (l : list A) (x : A) :
  x ∈ drop_duplicates_from key seen l -> x ∈ l ∧ key x ∉ seen.
Proof.
  revert seen. induction l as [|y l IH]; intros seen; simpl.
  - by intros ?%elem_of_nil.
  - case_decide as Hy.
    + intros [? ?]%IH. split; [by right|done].
    + intros [->|Hx]%elem_of_cons; [split; [by left|done]|].
      apply IH in Hx as [? Hn]. split; [by right|].
      intros ?. apply Hn. by right.
Qed.

Lemma drop_duplicates_from_keys (seen : list K) (l : list A) (k : K) :
  k ∈ key <$> drop_duplicates_from key seen l <-> k ∈ key <$> l ∧ k ∉ seen.
Proof.
  revert seen. induction l as [|y l IH]; intros seen; simpl.
  - split; [by intros ?%elem_of_nil|by intros [?%elem_of_nil _]].
  - case_decide as Hy; simpl.
    + rewrite IH, elem_of_cons. naive_solver.
    + rewrite !elem_of_cons, IH, elem_of_cons.
      destruct (decide (k = key y)); naive_solver.
Qed.

Lemma drop_duplicates_from_NoDup (seen : list K) (l : list A) :
  NoDup (key <$> drop_duplicates_from key seen l).
Proof.
  revert seen. induction l as [|y l IH]; intros seen; simpl.
  - constructor.
  - case_decide as Hy; simpl; [apply IH|].
    constructor; [|apply IH].
    rewrite drop_duplicates_from_keys, elem_of_cons. naive_solver.
Qed.

(** A surviving row is the first row of its key. *)
Lemma drop_duplicates_from_first (seen : list K) (l : list A) (x : A) :
  x ∈ drop_duplicates_from key seen l ->
  exists l1 l2, l = l1 ++ x :: l2 ∧ key x ∉ key <$> l1.
Proof.
  revert seen. induction l as [|y l IH]; intros seen; simpl.
  - by intros ?%elem_of_nil.
  - case_decide as Hy.
    + intros Hx. pose proof (elem_of_drop_duplicates_from _ _ _ Hx) as [_ Hn].
      destruct (IH _ Hx) as (l1 & l2 & -> & Hl1).
      exists (y :: l1), l2. split; [done|].
      simpl. rewrite elem_of_cons. intros [Hk|?]; [|done].
      apply Hn. by rewrite Hk.
    + intros [->|Hx]%elem_of_cons.
      * exists [], l. split; [done|]. simpl. apply not_elem_of_nil.
      * pose proof (elem_of_drop_duplicates_from _ _ _ Hx) as [_ Hn].
        destruct (IH _ Hx) as (l1 & l2 & -> & Hl1).
        exists (y :: l1), l2. split; [done|].
        simpl. rewrite elem_of_cons. intros [Hk|?]; [|done].
        apply Hn. rewrite Hk. by left.
Qed.

Lemma drop_duplicates_keys (l : list A) (k : K) :
  k ∈ key <$> drop_duplicates key l <-> k ∈ key <$> l.
Proof.
  unfold drop_duplicates. rewrite drop_duplicates_from_keys.
  split; [by intros [? _]|]. intros ?. split; [done|apply not_elem_of_nil].
Qed.

Lemma drop_duplicates_NoDup (l : list A) :
  NoDup (key <$> drop_duplicates key l).
Proof. apply drop_duplicates_from_NoDup. Qed.

Lemma elem_of_drop_duplicates (l : list A) (x : A) :
  x ∈ drop_duplicates key l -> x ∈ l.
Proof. intros H'. by apply elem_of_drop_duplicates_from in H' as [? _]. Qed.

End drop_duplicates_facts.

Lemma unique_NoDup {A : Type} `{EqDecision A} (l : list A) : NoDup (unique l).
Proof.
  pose proof (drop_duplicates_NoDup (fun x : A => x) l) as H'.
  by rewrite list_fmap_id in H'.
Qed.

Lemma elem_of_unique {A : Type} `{EqDecision A} (l : list A) (x : A) :
  x ∈ unique l <-> x ∈ l.
Proof.
  pose proof (drop_duplicates_keys (fun x : A => x) l x) as H'.
  by rewrite !list_fmap_id in H'.
Qed.

Lemma elem_of_notna_values {A : Type} (xs : list (option A)) (x : A) :
  x ∈ notna_values xs <-> Some x ∈ xs.
Proof.
  unfold notna_values. rewrite list_elem_of_omap. naive_solver.
Qed.

Lemma notna_values_NoDup {A : Type} (xs : list (option A)) :
  NoDup xs -> NoDup (notna_values xs).
Proof.
  unfold notna_values. induction 1 as [|[x|] xs Hx Hxs IH]; simpl.
  - constructor.
  - constructor; [|done]. by rewrite (elem_of_notna_values xs x).
  - done.
Qed.

Lemma sorted_Permutation (xs : list string) : sorted xs ≡ₚ xs.
Proof. apply merge_sort_Permutation. Qed.

Lemma sorted_StronglySorted (xs : list string) :
  StronglySorted str_le (sorted xs).
Proof. apply StronglySorted_merge_sort; apply _. Qed.

Lemma filter_absent_key {V : Type} (right : list (string * V)) (k : string) :
  k ∉ right.*1 ->
  filter (fun kv : string * V => Some k = Some kv.1) right = [].
Proof.
  induction right as [|[k' v'] right IH]; simpl; [done|].
  rewrite not_elem_of_cons. intros [Hne Hk].
  rewrite filter_cons_False; [by apply IH|].
  simpl. congruence.
Qed.

Lemma filter_unique_key {V : Type} (right : list (string * V)) (k : string)
    (v : V) :
  NoDup right.*1 -> (k, v) ∈ right ->
  filter (fun kv : string * V => Some k = Some kv.1) right = [(k, v)].
Proof.
  induction right as [|[k' v'] right IH]; simpl.
  - by intros _ ?%elem_of_nil.
  - intros [Hk' Hnd]%NoDup_cons [Heq|Hin]%elem_of_cons.
    + injection Heq as <- <-.
      rewrite filter_cons_True by done.
      by rewrite filter_absent_key.
    + rewrite filter_cons_False; [by apply IH|].
      simpl. intros [= ->]. apply Hk'.
      apply list_elem_of_fmap. by exists (k', v).
Qed.

(** A left merge against a table with one row per key, covering every key
    of the left table, adds one value to each left row. *)
Lemma merge_left_fmap {L O : Type} (key : L -> option string)
    (mk : L -> option string -> O) (f : string -> string)
    (keys : list string) (left : list L) :
  NoDup keys ->
  (forall l, l ∈ left -> exists k, key l = Some k ∧ k ∈ keys) ->
  merge_left key mk left ((fun k => (k, f k)) <$> keys)
  = (fun l => mk l (f <$> key l)) <$> left.
Proof.
  intros Hnd Hcov. unfold merge_left.
  induction left as [|l left IH]; simpl; [done|].
  destruct (Hcov l) as (k & Hk & Hin); [by left|].
  rewrite Hk, (filter_unique_key _ k (f k)).
  - simpl. f_equal. apply IH.
    intros l' Hl'. apply Hcov. by right.
  - by rewrite <- list_fmap_compose, list_fmap_id.
  - apply list_elem_of_fmap. by exists k.
Qed.

(** *** The security master *)

#[global] Instance newer_first_total : Total newer_first.
Proof. intros r1 r2. apply date_ge_total. Qed.

#[global] Instance newer_first_transitive : Transitive newer_first.
Proof. intros r1 r2 r3. apply date_ge_transitive. Qed.

#[global] Instance by_ULTIMO_TICKER_total : Total by_ULTIMO_TICKER.
Proof. intros e1 e2. apply cell_le_total. Qed.

Lemma elem_of_dropna_CODISI (df : list QuoteRow) (r : QuoteRow) :
  r ∈ dropna_CODISI df <-> r ∈ df ∧ exists k, CODISI r = Some k.
Proof.
  unfold dropna_CODISI. rewrite list_elem_of_filter. unfold is_Some. tauto.
Qed.

Lemma dropna_CODISI_idemp (df : list QuoteRow) :
  dropna_CODISI (dropna_CODISI df) = dropna_CODISI df.
Proof.
  unfold dropna_CODISI. rewrite list_filter_filter.
  apply list_filter_iff. tauto.
Qed.

Lemma group_keys_NoDup (df : list QuoteRow) : NoDup (group_keys df).
Proof.
  unfold group_keys. rewrite sorted_Permutation. apply unique_NoDup.
Qed.

Lemma elem_of_group_keys (df : list QuoteRow) (k : string) :
  k ∈ group_keys df <-> exists r, r ∈ df ∧ CODISI r = Some k.
Proof.
  unfold group_keys.
  rewrite sorted_Permutation, elem_of_unique, elem_of_notna_values,
    list_elem_of_fmap.
  naive_solver.
Qed.

Lemma elem_of_group_column (col : QuoteRow -> option string)
    (df : list QuoteRow) (k : string) (c : option string) :
  c ∈ group_column col df k <->
  exists r, r ∈ df ∧ CODISI r = Some k ∧ col r = c.
Proof.
  unfold group_column. rewrite list_elem_of_fmap.
  setoid_rewrite list_elem_of_filter. naive_solver.
Qed.

(** The tokens of a trail: sorted, without repetition, and exactly the
    non-missing values of the column. *)
Lemma trail_tokens_spec (x : list (option string)) :
  StronglySorted str_le (trail_tokens x) ∧
  NoDup (trail_tokens x) ∧
  forall t, t ∈ trail_tokens x <-> Some t ∈ x.
Proof.
  unfold trail_tokens. split; [apply sorted_StronglySorted|]. split.
  - rewrite sorted_Permutation. apply notna_values_NoDup, unique_NoDup.
  - intros t.
    by rewrite sorted_Permutation, elem_of_notna_values, elem_of_unique.
Qed.

(** Both merges add exactly one value to each snapshot row, so the final
    table is, up to its order, the snapshot rows extended by their trails. *)
Lemma create_security_master_with_rows
    (sort_desc : list QuoteRow -> list QuoteRow) (df_full : list QuoteRow) :
  (forall l, sort_desc l ≡ₚ l) ->
  create_security_master_with sort_desc df_full ≡ₚ
  entry_of (dropna_CODISI df_full)
    <$> drop_duplicates CODISI (sort_desc (dropna_CODISI df_full)).
Proof.
  intros Hperm. unfold create_security_master_with, variacoes.
  rewrite merge_sort_Permutation.
  set (df := dropna_CODISI df_full).
  assert (Hcov : forall r, r ∈ drop_duplicates CODISI (sort_desc df) ->
            exists k, CODISI r = Some k ∧ k ∈ group_keys df).
  { intros r Hr%elem_of_drop_duplicates. rewrite Hperm in Hr.
    pose proof Hr as [_ [k Hk]]%elem_of_dropna_CODISI.
    exists k. split; [done|]. apply elem_of_group_keys. eauto. }
  rewrite (merge_left_fmap m_CODISI set_TICKERS
             (fun k => trail (group_column CODNEG df k))).
  2: apply group_keys_NoDup.
  2: { intros l (r & -> & Hr)%list_elem_of_fmap. by apply Hcov. }
  rewrite (merge_left_fmap m_CODISI set_NOMES
             (fun k => trail (group_column NOMRES df k))).
  2: apply group_keys_NoDup.
  2: { intros l (l' & -> & (r & -> & Hr)%list_elem_of_fmap)%list_elem_of_fmap.
       by apply Hcov. }
  rewrite <- !list_fmap_compose. done.
Qed.

(** The snapshot rows are the newest rows of their identifiers, for every
    sort that returns its input in descending date order. *)
Lemma drop_duplicates_latest
    (sort_desc : list QuoteRow -> list QuoteRow) (df : list QuoteRow)
    (r : QuoteRow) :
  (forall l, sort_desc l ≡ₚ l) ->
  (forall l, Sorted newer_first (sort_desc l)) ->
  r ∈ drop_duplicates CODISI (sort_desc df) ->
  latest_row_of df r.
Proof.
  intros Hperm Hsorted Hr.
  pose proof (Sorted_StronglySorted _ _ (Hsorted df)) as Hss.
  destruct (drop_duplicates_from_first _ _ _ _ Hr) as (l1 & l2 & Heq & Hfirst).
  rewrite Heq in Hss. split.
  - rewrite <- (Hperm df), Heq. set_solver.
  - intros r' Hr' Hkey. rewrite <- (Hperm df), Heq in Hr'.
    apply elem_of_app in Hr' as [Hr'|Hr'].
    + exfalso. apply Hfirst. rewrite <- Hkey.
      apply list_elem_of_fmap. by exists r'.
    + apply elem_of_cons in Hr' as [->|Hr']; [apply date_ge_refl|].
      apply StronglySorted_app in Hss as (_ & _ & Hss).
      apply StronglySorted_cons in Hss as [Hall _].
      by apply (proj1 (Forall_forall _ _) Hall).
Qed.

Lemma latest_row_of_dropna (df : list QuoteRow) (r : QuoteRow) :
  latest_row_of (dropna_CODISI df) r ->
  latest_row_of df r ∧ exists k, CODISI r = Some k.
Proof.
  intros [[Hr [k Hk]]%elem_of_dropna_CODISI Hmax]. split; [split; [done|]|eauto].
  intros r' Hr' Hkey. apply Hmax; [|done].
  apply elem_of_dropna_CODISI. split; [done|]. exists k. congruence.
Qed.

(** One entry per identifier and the latest snapshot, whatever order the
    descending sort gives to rows of equal date. *)
Lemma create_security_master_with_spec
    (sort_desc : list QuoteRow -> list QuoteRow) (df_full : list QuoteRow) :
  (forall l, sort_desc l ≡ₚ l) ->
  (forall l, Sorted newer_first (sort_desc l)) ->
  let master := create_security_master_with sort_desc df_full in
  NoDup (m_CODISI <$> master) ∧
  (forall c, c ∈ m_CODISI <$> master <->
             exists r k, r ∈ df_full ∧ CODISI r = Some k ∧ c = Some k) ∧
  (forall e, e ∈ master ->
     exists r, latest_row_of df_full r ∧ e = entry_of (dropna_CODISI df_full) r).
Proof.
  intros Hperm Hsorted master.
  pose proof (create_security_master_with_rows sort_desc df_full Hperm) as Hrows.
  fold master in Hrows.
  assert (Hids : m_CODISI <$> master ≡ₚ
    CODISI <$> drop_duplicates CODISI (sort_desc (dropna_CODISI df_full))).
  { rewrite Hrows, <- list_fmap_compose. done. }
  split; [|split].
  - rewrite Hids. apply drop_duplicates_NoDup.
  - intros c. rewrite Hids, drop_duplicates_keys, Hperm, list_elem_of_fmap.
    setoid_rewrite elem_of_dropna_CODISI. naive_solver.
  - intros e He. rewrite Hrows in He.
    apply list_elem_of_fmap in He as (r & -> & Hr).
    exists r. split; [|done].
    by apply latest_row_of_dropna, (drop_duplicates_latest sort_desc).
Qed.

Lemma sort_values_DATA_PREGAO_desc_Permutation (l : list QuoteRow) :
  sort_values_DATA_PREGAO_desc l ≡ₚ l.
Proof. apply merge_sort_Permutation. Qed.

Lemma sort_values_DATA_PREGAO_desc_Sorted (l : list QuoteRow) :
  Sorted newer_first (sort_values_DATA_PREGAO_desc l).
Proof. apply Sorted_merge_sort, _. Qed.

(** C1. [create_security_master] yields exactly one entry per distinct
    non-missing CODISI of the store: the identifiers of the entries are
    pairwise different and are exactly the non-missing identifiers of the
    rows; rows without identifier play no part (dropping them first gives
    the same table); and every entry carries the ticker, name and
    specification of a row of its identifier whose trade date is maximal
    among the rows of that identifier. *)
Theorem create_security_master_one_entry_per_CODISI (df_full : list QuoteRow) :
  let master := create_security_master df_full in
  NoDup (m_CODISI <$> master) ∧
  (forall c, c ∈ m_CODISI <$> master <->
             exists r k, r ∈ df_full ∧ CODISI r = Some k ∧ c = Some k) ∧
  create_security_master (dropna_CODISI df_full) = master ∧
  (forall e, e ∈ master ->
     exists r, latest_row_of df_full r ∧
       m_CODISI e = CODISI r ∧
       ULTIMO_TICKER e = CODNEG r ∧
       ULTIMO_NOME e = NOMRES r ∧
       ULTIMA_ESPECIFICACAO e = ESPECI r).
Proof.
  intros master.
  destruct (create_security_master_with_spec sort_values_DATA_PREGAO_desc
              df_full sort_values_DATA_PREGAO_desc_Permutation
              sort_values_DATA_PREGAO_desc_Sorted) as (Hnd & Hids & Hlatest).
  split; [done|]. split; [done|]. split.
  - unfold master, create_security_master, create_security_master_with.
    by rewrite dropna_CODISI_idemp.
  - intros e He. destruct (Hlatest e He) as (r & Hr & ->). by exists r.
Qed.

(** C4 (as amended). For every entry of the master, each of the two trails
    is the [" | "]-join of a list of tokens that is sorted ascending, has
    no repetition, and consists exactly of the non-missing values (tickers,
    resp. names) observed in the rows of the entry's identifier; a missing
    value yields no token, and a token is empty only when the empty string
    itself is one of those observed values. *)
Theorem historical_trails_sorted_distinct (df_full : list QuoteRow)
    (e : MasterEntry) (k : string) :
  e ∈ create_security_master df_full ->
  m_CODISI e = Some k ->
  exists tickers names,
    TICKERS_HISTORICOS e = Some (join " | " tickers) ∧
    NOMES_HISTORICOS e = Some (join " | " names) ∧
    StronglySorted str_le tickers ∧ NoDup tickers ∧
    (forall t, t ∈ tickers <->
       exists r, r ∈ df_full ∧ CODISI r = Some k ∧ CODNEG r = Some t) ∧
    StronglySorted str_le names ∧ NoDup names ∧
    (forall n, n ∈ names <->
       exists r, r ∈ df_full ∧ CODISI r = Some k ∧ NOMRES r = Some n).
Proof.
  intros He Hk.
  destruct (create_security_master_with_spec sort_values_DATA_PREGAO_desc
              df_full sort_values_DATA_PREGAO_desc_Permutation
              sort_values_DATA_PREGAO_desc_Sorted) as (_ & _ & Hlatest).
  destruct (Hlatest e He) as (r & _ & ->). simpl in Hk.
  set (df := dropna_CODISI df_full).
  exists (trail_tokens (group_column CODNEG df k)),
         (trail_tokens (group_column NOMRES df k)).
  destruct (trail_tokens_spec (group_column CODNEG df k)) as (Hs1 & Hn1 & Hm1).
  destruct (trail_tokens_spec (group_column NOMRES df k)) as (Hs2 & Hn2 & Hm2).
  assert (Hobs : forall (col : QuoteRow -> option string) (t : string),
            Some t ∈ group_column col df k <->
            exists r, r ∈ df_full ∧ CODISI r = Some k ∧ col r = Some t).
  { intros col t. rewrite elem_of_group_column. unfold df.
    setoid_rewrite elem_of_dropna_CODISI. naive_solver. }
  simpl. rewrite Hk. simpl. repeat split; try done.
  - by intros ?%Hm1%Hobs.
  - by intros ?%Hobs%Hm1.
  - by intros ?%Hm2%Hobs.
  - by intros ?%Hobs%Hm2.
Qed.

Lemma historical_trails_sorted_distinct_witness :
  exists tickers names,
    Some "PETR3 | PETR4" = Some (join " | " tickers) ∧
    Some "PETROBRAS" = Some (join " | " names) ∧
    StronglySorted str_le tickers ∧ NoDup tickers ∧
    (forall t, t ∈ tickers <->
       exists r, r ∈ petr_rows ∧ CODISI r = Some "BRPETRACNPR6" ∧
                 CODNEG r = Some t) ∧
    StronglySorted str_le names ∧ NoDup names ∧
    (forall n, n ∈ names <->
       exists r, r ∈ petr_rows ∧ CODISI r = Some "BRPETRACNPR6" ∧
                 NOMRES r = Some n).
Proof.
  apply (historical_trails_sorted_distinct petr_rows
    {| m_CODISI := Some "BRPETRACNPR6"; ULTIMO_TICKER := Some "PETR4";
       ULTIMO_NOME := Some "PETROBRAS"; ULTIMA_ESPECIFICACAO := Some "PN";
       TICKERS_HISTORICOS := Some "PETR3 | PETR4";
       NOMES_HISTORICOS := Some "PETROBRAS" |} "BRPETRACNPR6").
  - vm_compute. left.
  - reflexivity.
Defined.

(** C4, as stated, fails: a ticker stored as the empty string passes
    [pd.notna], so the trail of the instrument starts with an empty
    token. *)
Lemma historical_trail_with_empty_token :
  create_security_master blank_ticker_rows =
    [ {| m_CODISI := Some "BRPETRACNPR6"; ULTIMO_TICKER := Some "PETR4";
         ULTIMO_NOME := Some "PETROBRAS"; ULTIMA_ESPECIFICACAO := Some "PN";
         TICKERS_HISTORICOS := Some " | PETR4";
         NOMES_HISTORICOS := Some "PETROBRAS" |} ] ∧
  trail_tokens
    (group_column CODNEG (dropna_CODISI blank_ticker_rows) "BRPETRACNPR6")
    = [""; "PETR4"] ∧
  ~ (forall t,
       t ∈ trail_tokens
             (group_column CODNEG (dropna_CODISI blank_ticker_rows)
                "BRPETRACNPR6") ->
       t <> "").
Proof.
  split; [vm_compute; reflexivity|]. split; [vm_compute; reflexivity|].
  intros H'. apply (H' ""); [|done]. vm_compute. left.
Qed.

(** *** The order of the master and the latest values *)

#[global] Instance cell_le_transitive : Transitive cell_le.
Proof.
  intros [x|] [y|] [z|]; simpl; try done. apply str_le_trans.
Qed.

#[global] Instance by_ULTIMO_TICKER_transitive : Transitive by_ULTIMO_TICKER.
Proof. intros e1 e2 e3. unfold by_ULTIMO_TICKER. apply transitivity. Qed.

(** X1. The table [create_security_master] writes is ordered by latest
    ticker: every entry stands before all the entries whose latest ticker
    is greater, and the entries without a latest ticker stand at the
    end. *)
Theorem security_master_sorted_by_latest_ticker (df_full : list QuoteRow) :
  StronglySorted by_ULTIMO_TICKER (create_security_master df_full).
Proof.
  unfold create_security_master, create_security_master_with.
  apply StronglySorted_merge_sort; apply _.
Qed.

(** X2. The latest ticker and the latest name of an entry of the master,
    when they are not missing, are tokens of its trail of tickers and of
    its trail of names. *)
Theorem latest_values_are_in_the_trails (df_full : list QuoteRow)
    (e : MasterEntry) :
  e ∈ create_security_master df_full ->
  (forall t, ULTIMO_TICKER e = Some t ->
     exists tokens,
       TICKERS_HISTORICOS e = Some (join " | " tokens) ∧ t ∈ tokens) ∧
  (forall n, ULTIMO_NOME e = Some n ->
     exists tokens,
       NOMES_HISTORICOS e = Some (join " | " tokens) ∧ n ∈ tokens).
Proof.
  intros He.
  destruct (create_security_master_with_spec sort_values_DATA_PREGAO_desc
              df_full sort_values_DATA_PREGAO_desc_Permutation
              sort_values_DATA_PREGAO_desc_Sorted) as (_ & Hids & Hlatest).
  destruct (Hlatest e He) as (r & [Hr _] & ->).
  assert (exists k, CODISI r = Some k) as [k Hk].
  { destruct (proj1 (Hids (CODISI r))) as (r' & k & _ & _ & Hk); [|eauto].
    apply list_elem_of_fmap. by eexists; split; [|exact He]. }
  set (df := dropna_CODISI df_full).
  assert (Hin : r ∈ df) by (apply elem_of_dropna_CODISI; eauto).
  assert (Hobs : forall (col : QuoteRow -> option string) (v : string),
            col r = Some v -> v ∈ trail_tokens (group_column col df k)).
  { intros col v Hv. apply trail_tokens_spec, elem_of_group_column. eauto. }
  simpl. rewrite Hk. simpl. split.
  - intros t Ht. eexists. split; [reflexivity|]. by apply Hobs.
  - intros n Hn. eexists. split; [reflexivity|]. by apply Hobs.
Qed.

Lemma latest_values_are_in_the_trails_witness :
  (forall t, Some "PETR4" = Some t ->
     exists tokens,
       Some "PETR3 | PETR4" = Some (join " | " tokens) ∧ t ∈ tokens) ∧
  (forall n, Some "PETROBRAS" = Some n ->
     exists tokens,
       Some "PETROBRAS" = Some (join " | " tokens) ∧ n ∈ tokens).
Proof.
  apply (latest_values_are_in_the_trails petr_rows
    {| m_CODISI := Some "BRPETRACNPR6"; ULTIMO_TICKER := Some "PETR4";
       ULTIMO_NOME := Some "PETROBRAS"; ULTIMA_ESPECIFICACAO := Some "PN";
       TICKERS_HISTORICOS := Some "PETR3 | PETR4";
       NOMES_HISTORICOS := Some "PETROBRAS" |}).
  vm_compute. left.
Defined.

End DictionaryBuilder.

Module RawDataProcessor.

(** *** Layout constants *)

Definition COTAHIST_LAYOUT : list (string * (nat * nat)) :=
  [ ("TIPREG", (1, 2)); ("DATA_PREGAO", (3, 10)); ("CODBDI", (11, 12));
    ("CODNEG", (13, 24)); ("TPMERC", (25, 27)); ("NOMRES", (28, 39));
    ("ESPECI", (40, 49)); ("PRAZOT", (50, 52)); ("MODREF", (53, 56));
    ("PREABE", (57, 69)); ("PREMAX", (70, 82)); ("PREMIN", (83, 95));
    ("PREMED", (96, 108)); ("PREULT", (109, 121)); ("PREOFC", (122, 134));
    ("PREOFV", (135, 147)); ("TOTNEG", (148, 152)); ("QUATOT", (153, 170));
    ("VOLTOT", (171, 188)); ("PREEXE", (189, 201)); ("INDOPC", (202, 202));
    ("DATVEN", (203, 210)); ("FATCOT", (211, 217)); ("PTOEXE", (218, 230));
    ("CODISI", (231, 242)); ("DISMES", (243, 245)) ]%nat.

Definition COLSPECS : list (nat * nat) :=
  (fun kv => (kv.2.1 - 1, kv.2.2)%nat) <$> COTAHIST_LAYOUT.

Definition NAMES : list string := fst <$> COTAHIST_LAYOUT.

Definition DATE_COLS : list string := ["DATA_PREGAO"; "DATVEN"].

Definition PRICE_COLS : list string :=
  ["PREABE"; "PREMAX"; "PREMIN"; "PREMED"; "PREULT"; "PREOFC"; "PREOFV";
   "PREEXE"; "VOLTOT"].

Definition INT_COLS : list string :=
  ["TIPREG"; "CODBDI"; "TPMERC"; "TOTNEG"; "QUATOT"; "FATCOT"; "INDOPC";
   "DISMES"; "PRAZOT"; "PTOEXE"].

Definition BATCH_SIZE : nat := N.to_nat 500000.

(** Whether the column pairs follow one another from [start], each
    beginning where the one before it stopped. *)
Fixpoint consecutive (start : nat) (specs : list (nat * nat)) : bool :=
  match specs with
  | [] => true
  | spec :: specs' =>
      bool_decide (spec.1 = start) && bool_decide (spec.1 <= spec.2)%nat
      && consecutive spec.2 specs'
  end.

(** *** Extraction of the archives *)

(** What reading one member of an archive does: [zip_ref.open] raises
    before the target is opened, or the copy raises after a part of the
    content is written, or the whole content is copied. *)
Inductive MemberRead :=
| OpenRaises
| CopyRaises (partial : string)
| Copies (content : string).

Record ZipMember := { member_name : string; member_read : MemberRead }.

(** An entry of the raw directory: its name and, when [zipfile.ZipFile]
    opens it, the members of the archive in the order of [namelist()]. *)
Record RawFile := { raw_name : string; raw_members : option (list ZipMember) }.

(** The files of the texts directory: their contents by name. *)
Abbreviation Texts := (gmap string string).

Definition is_slash (c : ascii) : bool := bool_decide (c = "/"%char).

Definition has_slash (p : string) : bool :=
  existsb is_slash (list_ascii_of_string p).

(** [os.path.basename(member)]: what follows the last slash. *)
Fixpoint basename (p : string) : string :=
  match p with
  | EmptyString => EmptyString
  | String _ p' => if has_slash p then basename p' else p
  end.

(** The name under which a member is written. *)
Definition output_filename (member : string) : string :=
  let base_name := basename member in
  if negb (endswith ".txt" (lower base_name)) then base_name +:+ ".TXT"
  else base_name.

(** The body of the loop over the members: the texts directory and the
    counter after it, and whether it raised. *)
Definition extract_member (st : Texts * nat) (m : ZipMember)
    : (Texts * nat) * bool :=
  let '(texts, extracted_count) := st in
  match member_read m with
  | OpenRaises => (st, true)
  | CopyRaises partial =>
      ((<[output_filename (member_name m) := partial]> texts, extracted_count),
       true)
  | Copies content =>
      ((<[output_filename (member_name m) := content]> texts,
        S extracted_count), false)
  end.

(** The members of one archive in turn; an exception ends the archive. *)
Fixpoint extract_members (st : Texts * nat) (members : list ZipMember)
    : Texts * nat :=
  match members with
  | [] => st
  | m :: members' =>
      match extract_member st m with
      | (st', true) => st'
      | (st', false) => extract_members st' members'
      end
  end.

(** One entry of [zip_files]; what is no archive is reported and left. *)
Definition extract_archive (st : Texts * nat) (f : RawFile) : Texts * nat :=
  match raw_members f with
  | None => st
  | Some members => extract_members st members
  end.

(** [extract_zip_files]: the texts directory after it and the number of
    members it reports as extracted. *)
Definition extract_zip_files (raw : list RawFile) (texts : Texts)
    : Texts * nat :=
  let zip_files :=
    filter (fun f => endswith ".zip" (lower (raw_name f)) = true) raw in
  foldl extract_archive (texts, 0%nat) zip_files.

(** What holds of the texts directory [texts'] after some steps of the
    extraction that began with [texts]. *)
Definition extracted (texts texts' : Texts) : Prop :=
  dom texts ⊆ dom texts' ∧
  forall name, texts' !! name <> texts !! name ->
    endswith ".txt" (lower name) = true ∧ has_slash name = false.

(** *** Values of a data frame *)

(** What [pd.to_numeric] reads in one cell: an integer or a float64. *)
Inductive num :=
| Num_int (z : Z)
| Num_float (f : float).

Inductive cell :=
| NA
| Str (s : string)
| Int (z : Z)
| Float (f : float)
| Timestamp (t : Z).

(** The resolution of a column of timestamps: seconds, milliseconds,
    microseconds or nanoseconds. *)
Inductive time_unit := unit_s | unit_ms | unit_us | unit_ns.

#[global] Instance time_unit_eq_dec : EqDecision time_unit.
Proof. solve_decision. Defined.

Inductive dtype :=
| d_int64 | d_float64 | d_object | d_datetime64 (unit : time_unit) | d_Int64.

Record Column := { col_dtype : dtype; col_cells : list cell }.

(** A data frame: its columns in order, each with name, dtype and cells. *)
Definition DataFrame : Type := list (string * Column).

Inductive arrow_type :=
| a_null | a_int64 | a_double | a_string | a_timestamp (unit : time_unit).

#[global] Instance arrow_type_eq_dec : EqDecision arrow_type.
Proof. solve_decision. Defined.

Definition Schema : Type := list (string * arrow_type).

Record Table := { tbl_schema : Schema; tbl_columns : list (list cell) }.

(** int64 to float64. *)
Definition float_of_Z (z : Z) : float :=
  if (z <? 0)%Z then PrimFloat.opp (PrimFloat.of_uint63 (Uint63.of_Z (- z)))
  else PrimFloat.of_uint63 (Uint63.of_Z z).

Definition num_to_float (n : num) : float :=
  match n with
  | Num_int z => float_of_Z z
  | Num_float f => f
  end.

(** [x / 100] on a float64 column. *)
Definition div_100 (x : float) : float := PrimFloat.div x 100%float.

(** The integer a float64 is equal to, if there is one. *)
Definition float_to_Z (f : float) : option Z :=
  match Prim2SF f with
  | S754_zero _ => Some 0%Z
  | S754_finite sign m e =>
      let signed (v : Z) := if sign then (- v)%Z else v in
      if (0 <=? e)%Z then Some (signed (Z.pos m * 2 ^ e)%Z)
      else if (Z.pos m mod 2 ^ (- e) =? 0)%Z
           then Some (signed (Z.pos m / 2 ^ (- e))%Z)
           else None
  | _ => None
  end.

(** The texts pandas' readers turn into NaN by default. *)
Definition STR_NA_VALUES : list string :=
  [""; "#N/A"; "#N/A N/A"; "#NA"; "-1.#IND"; "-1.#QNAN"; "-NaN"; "-nan";
   "1.#IND"; "1.#QNAN"; "<NA>"; "N/A"; "NA"; "NULL"; "NaN"; "None"; "n/a";
   "nan"; "null"].

Definition is_na_text (t : string) : bool := bool_decide (t ∈ STR_NA_VALUES).

(** *** Reading one batch *)

(** The text of one field: the slice of the line, trimmed by [read_fwf]. *)
Definition field (line : string) (spec : nat * nat) : string :=
  strip fwf_delimiter (slice line spec.1 spec.2).

(** [read_fwf] skips a line all of whose fields are blank. *)
Definition blank_line (line : string) : bool :=
  forallb (fun spec => bool_decide (strip py_whitespace (field line spec) = ""))
    COLSPECS.

Definition read_fwf_rows (lines : list string) : list string :=
  filter (fun line => blank_line line = false) lines.

Definition is_int (o : option num) : bool :=
  match o with
  | Some (Num_int _) => true
  | _ => false
  end.

(** A text file of the directory: its name and what [readlines] gives
    (the lines without their newline), or the exception of the read. *)
Record TextFile := { file_name : string; file_lines : exn + list string }.

(** *** Plain instances of the parsers, used in the examples *)

Definition digit_value (c : ascii) : option Z :=
  let n := nat_of_ascii c in
  if bool_decide (48 <= n <= 57)%nat then Some (Z.of_nat n - 48)%Z else None.

Fixpoint digits_value (acc : Z) (l : list ascii) : option Z :=
  match l with
  | [] => Some acc
  | c :: l' =>
      match digit_value c with
      | Some d => digits_value (10 * acc + d)%Z l'
      | None => None
      end
  end.

Fixpoint split_dot (l : list ascii) : list ascii * option (list ascii) :=
  match l with
  | [] => ([], None)
  | c :: l' =>
      if bool_decide (c = "."%char) then ([], Some l')
      else let '(a, b) := split_dot l' in (c :: a, b)
  end.

(** [pd.to_numeric] on plain decimal literals: digits read as an integer,
    digits with a decimal point as a float64; everything else is taken as
    unreadable. *)
Definition to_numeric_plain (t : string) : option num :=
  match split_dot (list_ascii_of_string t) with
  | ([], None) => None
  | (ip, None) => Num_int <$> digits_value 0 ip
  | ([], Some []) => None
  | (ip, Some fp) =>
      match digits_value 0 ip, digits_value 0 fp with
      | Some i, Some f =>
          let scale := (10 ^ Z.of_nat (length fp))%Z in
          Some (Num_float
                  (PrimFloat.div (float_of_Z (i * scale + f)) (float_of_Z scale)))
      | _, _ => None
      end
  end.

(** [pd.to_datetime(format='%Y%m%d')] on eight digits of a plausible date
    within the range of a nanosecond timestamp; the timestamp is
    represented by the number [yyyymmdd], which grows with time. *)
Definition to_datetime_plain (t : string) : option Z :=
  if bool_decide (String.length t = 8%nat) then
    match digits_value 0 (list_ascii_of_string t) with
    | Some v =>
        let y := (v / 10000)%Z in
        let m := (v / 100 mod 100)%Z in
        let d := (v mod 100)%Z in
        if bool_decide (1678 <= y <= 2261 ∧ 1 <= m <= 12 ∧ 1 <= d <= 31)%Z
        then Some v else None
    | None => None
    end
  else None.

(** Timestamps in nanoseconds, whatever the texts. *)
Definition datetime_unit_plain (texts : list string) : time_unit := unit_ns.

(** A cast that converts between different types only columns without a
    value. *)
Definition cast_array_plain (from to : arrow_type) (cells : list cell)
    : option (list cell) :=
  if decide (from = to) then Some cells
  else if forallb (fun c => match c with NA => true | _ => false end) cells
       then Some cells else None.

(** *** Sample lines *)

Fixpoint spaces (n : nat) : string :=
  match n with
  | O => EmptyString
  | S n' => String " "%char (spaces n')
  end.

(** [s.ljust(width)]. *)
Definition ljust (width : nat) (s : string) : string :=
  s +:+ spaces (width - String.length s).

(** A line of the layout with the given texts in its fields, in the order
    of [COTAHIST_LAYOUT]. *)
Definition make_line (texts : list string) : string :=
  foldr String.append EmptyString
    ((fun st : (string * (nat * nat)) * string =>
        ljust (st.1.2.2 - st.1.2.1 + 1) st.2)
       <$> zip COTAHIST_LAYOUT texts).

(** A spot-market session of PETR4 with the given BDI code, opening price
    and specification. *)
Definition petr4_line (codbdi preabe especi : string) : string :=
  make_line
    [ "01"; "20230103"; codbdi; "PETR4"; "010"; "PETROBRAS"; especi; "";
      "R$"; preabe; "0000000002950"; "0000000002880"; "0000000002910";
      "0000000002920"; "0000000002915"; "0000000002925"; "01000";
      "000000000001500000"; "000000000004380000"; "0000000000000"; "0";
      "20231231"; "0000001"; "0000000000000"; "BRPETRACNPR6"; "100" ].

Definition header_line : string := "00COTAHIST.2023BOVESPA 20231229".
Definition trailer_line : string := "99COTAHIST.2023BOVESPA 2023122900000000003".

(** A yearly file with one well-formed session. *)
Definition petr4_file : TextFile :=
  {| file_name := "COTAHIST_A2023.TXT";
     file_lines :=
       inr [ header_line; petr4_line "02" "0000000002900" "PN"; trailer_line ] |}.

(** The same file with one more session, whose BDI code reads [.5]. *)
Definition nonintegral_code_file : TextFile :=
  {| file_name := "COTAHIST_A2023.TXT";
     file_lines :=
       inr [ header_line; petr4_line "02" "0000000002900" "PN";
             petr4_line ".5" "0000000002900" "PN"; trailer_line ] |}.

(** The same file with one more session, whose opening price is not a
    number. *)
Definition bad_price_file : TextFile :=
  {| file_name := "COTAHIST_A2023.TXT";
     file_lines :=
       inr [ header_line; petr4_line "02" "0000000002900" "PN";
             petr4_line "02" "00000ABC00000" "PN"; trailer_line ] |}.

(** A later file whose only session has no specification, so that pandas
    infers a float64 column of NaN where the first file had strings. *)
Definition blank_especi_file : TextFile :=
  {| file_name := "COTAHIST_A2024.TXT";
     file_lines :=
       inr [ header_line; petr4_line "02" "0000000003100" ""; trailer_line ] |}.

Section Decoder.

(** pandas' parsers and arrow's cast kernel are outside the repository:
    [to_numeric t] is the number [pd.to_numeric] reads in the text [t]
    ([None] where [errors='coerce'] gives NaN), [to_datetime t] the
    timestamp [pd.to_datetime(format='%Y%m%d', errors='coerce')] reads
    ([None] for NaT), [datetime_unit texts] the resolution of the column
    it builds from the texts of a column (nanoseconds before pandas 3,
    which chooses it by the values), and [cast_array from to cells]
    arrow's cast of one column ([None] where it raises). *)
Variable to_numeric : string -> option num.
Variable to_datetime : string -> option Z.
Variable datetime_unit : list string -> time_unit.
Variable cast_array : arrow_type -> arrow_type -> list cell -> option (list cell).

Definition parse_number (t : string) : option num :=
  if is_na_text t then None else to_numeric t.

Definition parse_date (t : string) : option Z :=
  if is_na_text t then None else to_datetime t.

(** [pd.to_datetime(df[col], format='%Y%m%d', errors='coerce')]. *)
Definition decode_date (t : string) : cell :=
  match parse_date t with
  | Some d => Timestamp d
  | None => NA
  end.

(** [pd.to_numeric(df[col], errors='coerce') / 100]. *)
Definition decode_price (t : string) : cell :=
  match parse_number t with
  | Some n => Float (div_100 (num_to_float n))
  | None => NA
  end.

(** [.astype('Int64')] after [pd.to_numeric]: an int64 column converts as
    it is; a float64 column (some cell is NaN or not an integer literal)
    converts when every value is integral and raises TypeError otherwise. *)
Definition astype_Int64 (col : list (option num)) : exn + list cell :=
  if forallb is_int col then
    inr ((fun o => match o with Some (Num_int z) => Int z | _ => NA end) <$> col)
  else
    traverse
      (fun o =>
         match o with
         | None => inr NA
         | Some n =>
             match float_to_Z (num_to_float n) with
             | Some z => inr (Int z)
             | None => raise TypeError
             end
         end)
      col.

(** [pd.to_numeric(df[col], errors='coerce').astype('Int64')]. *)
Definition decode_int_column (texts : list string) : exn + Column :=
  do cells <- astype_Int64 (parse_number <$> texts);
  inr {| col_dtype := d_Int64; col_cells := cells |}.

Definition number_cell (o : option num) : cell :=
  match o with
  | Some (Num_int z) => Int z
  | Some (Num_float f) => Float f
  | None => NA
  end.

(** A column the script converts no further: numeric when every text of it
    reads as a number (int64 without a gap, float64 otherwise), and
    otherwise an object column of trimmed strings with NaN for the gaps. *)
Definition text_column (texts : list string) : Column :=
  let parsed := parse_number <$> texts in
  if forallb (fun t => is_na_text t || bool_decide (is_Some (to_numeric t))) texts
  then if forallb is_int parsed
       then {| col_dtype := d_int64; col_cells := number_cell <$> parsed |}
       else {| col_dtype := d_float64;
               col_cells :=
                 (fun o => match o with
                           | Some n => Float (num_to_float n)
                           | None => NA
                           end) <$> parsed |}
  else {| col_dtype := d_object;
          col_cells :=
            (fun t => if is_na_text t then NA else Str (strip py_whitespace t))
              <$> texts |}.

Definition convert_column (name : string) (texts : list string) : exn + Column :=
  if bool_decide (name ∈ DATE_COLS) then
    inr {| col_dtype := d_datetime64 (datetime_unit texts);
           col_cells := decode_date <$> texts |}
  else if bool_decide (name ∈ PRICE_COLS) then
    inr {| col_dtype := d_float64; col_cells := decode_price <$> texts |}
  else if bool_decide (name ∈ INT_COLS) then decode_int_column texts
  else inr (text_column texts).

(** The cleaning of one non-empty batch (the block "Limpeza e conversão de
    tipos"), on the rows [read_fwf] delivered. *)
Definition clean_batch (rows : list string) : exn + DataFrame :=
  traverse
    (fun ns : string * (nat * nat) =>
       do c <- convert_column ns.1 ((fun line => field line ns.2) <$> rows);
       inr (ns.1, c))
    (zip NAMES COLSPECS).

(** *** Writing *)

Definition column_arrow_type (c : Column) : arrow_type :=
  match col_dtype c with
  | d_int64 | d_Int64 => a_int64
  | d_float64 => a_double
  | d_datetime64 unit => a_timestamp unit
  | d_object =>
      if existsb (fun x => match x with Str _ => true | _ => false end)
           (col_cells c)
      then a_string else a_null
  end.

(** [pa.Table.from_pandas(df_batch, preserve_index=False)]. *)
Definition Table_from_pandas (df : DataFrame) : Table :=
  {| tbl_schema := (fun nc => (nc.1, column_arrow_type nc.2)) <$> df;
     tbl_columns := (fun nc => col_cells nc.2) <$> df |}.

Fixpoint cast_columns (from to : list arrow_type) (cols : list (list cell))
    : option (list (list cell)) :=
  match from, to, cols with
  | f :: from', t :: to', c :: cols' =>
      match cast_array f t c, cast_columns from' to' cols' with
      | Some c', Some cs => Some (c' :: cs)
      | _, _ => None
      end
  | _, _, _ => Some []
  end.

(** [table.cast(target)]: the field names must agree in order; a table
    already of the target schema is returned as it is. *)
Definition Table_cast (t : Table) (target : Schema) : exn + Table :=
  if decide (tbl_schema t = target) then inr t
  else if decide ((tbl_schema t).*1 = target.*1) then
    match cast_columns (tbl_schema t).*2 target.*2 (tbl_columns t) with
    | Some cols => inr {| tbl_schema := target; tbl_columns := cols |}
    | None => raise ArrowInvalid
    end
  else raise ValueError.

(** The variables [final_schema] and [writer] of the build ([writer] is
    not None exactly when [final_schema] is set) and the tables appended
    to the Parquet file so far. *)
Record WriterState := {
  final_schema : option Schema;
  written : list Table
}.

Definition initial_state : WriterState :=
  {| final_schema := None; written := [] |}.

(** The body of the loop over the batches of one file: the state after it
    and the exception it raised, if any. *)
Definition process_batch (st : WriterState) (batch_lines : list string)
    : WriterState * option exn :=
  let rows := read_fwf_rows batch_lines in
  match rows with
  | [] => (st, None)
  | _ =>
      match clean_batch rows with
      | inl e => (st, Some e)
      | inr df_batch =>
          let table := Table_from_pandas df_batch in
          let schema := default (tbl_schema table) (final_schema st) in
          let st1 := {| final_schema := Some schema; written := written st |} in
          match Table_cast table schema with
          | inl e => (st1, Some e)
          | inr table' =>
              ({| final_schema := Some schema;
                  written := written st ++ [table'] |}, None)
          end
      end
  end.

(** The batches of one file in turn; an exception ends the file (the
    [except] clause reports it and the loop goes on to the next file). *)
Fixpoint process_batches (st : WriterState) (batches : list (list string))
    : WriterState :=
  match batches with
  | [] => st
  | b :: batches' =>
      match process_batch st b with
      | (st', None) => process_batches st' batches'
      | (st', Some _) => st'
      end
  end.

Fixpoint chunks_fuel {A : Type} (fuel size : nat) (l : list A)
    : list (list A) :=
  match fuel, l with
  | _, [] => []
  | O, _ => []
  | S fuel', _ => take size l :: chunks_fuel fuel' size (drop size l)
  end.

(** [[l[i:i + size] for i in range(0, len(l), size)]]. *)
Definition chunks {A : Type} (size : nat) (l : list A) : list (list A) :=
  chunks_fuel (length l) size l.

(** [lines[1:-1]]. *)
Definition content_lines (lines : list string) : list string :=
  removelast (drop 1 lines).

Definition process_file (st : WriterState) (f : TextFile) : WriterState :=
  match file_lines f with
  | inl _ => st
  | inr lines =>
      match content_lines lines with
      | [] => st
      | content => process_batches st (chunks BATCH_SIZE content)
      end
  end.

Definition by_name (f1 f2 : TextFile) : Prop :=
  str_le (file_name f1) (file_name f2).

(** [sorted([f for f in os.listdir(texts_path) if f.lower().endswith('.txt')])]. *)
Definition files_to_process (dir : list TextFile) : list TextFile :=
  merge_sort by_name
    (filter (fun f => endswith ".txt" (lower (file_name f)) = true) dir).

(** The state at the end of [process_text_to_parquet]; [written] is the
    content of [dados_b3.parquet]. *)
Definition process_text_to_parquet (dir : list TextFile) : WriterState :=
  foldl process_file initial_state (files_to_process dir).


(** *** Unreadable fields *)

Lemma decode_price_unparsable (t : string) :
  parse_number t = None -> decode_price t = NA.
Proof. unfold decode_price. by intros ->. Qed.

Lemma decode_date_unparsable (t : string) :
  parse_date t = None -> decode_date t = NA.
Proof. unfold decode_date. by intros ->. Qed.

Lemma traverse_lookup {A B : Type} (f : A -> exn + B) (l : list A)
    (k : list B) (i : nat) (x : A) :
  traverse f l = inr k -> l !! i = Some x ->
  exists y, k !! i = Some y ∧ f x = inr y.
Proof.
  revert k i. induction l as [|a l IH]; intros k i; simpl; [done|].
  destruct (f a) as [e|b] eqn:Hfa; simpl; [done|].
  destruct (traverse f l) as [e|bs]; simpl; [done|].
  intros [= <-]. destruct i as [|i]; simpl.
  - intros [= ->]. by exists b.
  - by apply IH.
Qed.

Lemma traverse_length {A B : Type} (f : A -> exn + B) (l : list A)
    (k : list B) :
  traverse f l = inr k -> length k = length l.
Proof.
  revert k. induction l as [|a l IH]; intros k; simpl; [by intros [= <-]|].
  destruct (f a) as [e|b]; simpl; [done|].
  destruct (traverse f l) as [e|bs]; simpl; [done|].
  intros [= <-]. simpl. f_equal. by apply IH.
Qed.

(** When [astype('Int64')] goes through, it keeps every row and gives
    <NA> for every cell [pd.to_numeric] could not read. *)
Lemma astype_Int64_unparsable (col : list (option num)) (cells : list cell)
    (i : nat) :
  astype_Int64 col = inr cells ->
  length cells = length col ∧
  (col !! i = Some None -> cells !! i = Some NA).
Proof.
  unfold astype_Int64. destruct (forallb is_int col).
  - intros [= <-]. split; [by rewrite length_fmap|].
    intros Hi. by rewrite list_lookup_fmap, Hi.
  - intros Htr. split; [by apply traverse_length in Htr|].
    intros Hi. destruct (traverse_lookup _ _ _ _ _ Htr Hi) as (y & Hy & Hf).
    by injection Hf as <-.
Qed.

(** It raises as soon as one cell reads as a number that is no integer. *)
Lemma astype_Int64_nonintegral (col : list (option num)) (n : num) :
  Some n ∈ col -> float_to_Z (num_to_float n) = None ->
  is_int (Some n) = false ->
  astype_Int64 col = inl TypeError.
Proof.
  intros Hin Hn Hni. unfold astype_Int64.
  assert (forallb is_int col = false) as ->.
  { apply not_true_is_false. intros Hall.
    rewrite forallb_forall in Hall. apply list_elem_of_In, Hall in Hin.
    congruence. }
  induction col as [|o col IH]; [by apply elem_of_nil in Hin|].
  simpl. apply elem_of_cons in Hin as [<-|Hin].
  - by rewrite Hn.
  - destruct o as [m|]; simpl.
    + destruct (float_to_Z (num_to_float m)); simpl; [|done].
      by rewrite IH.
    + by rewrite IH.
Qed.

(** *** The schema of the store *)








(** The captured schema is never replaced. *)
Lemma process_batch_final_schema (st : WriterState) (batch_lines : list string)
    (s : Schema) :
  final_schema st = Some s ->
  final_schema (process_batch st batch_lines).1 = Some s.
Proof.
  intros Hs. unfold process_batch.
  destruct (read_fwf_rows batch_lines); [done|].
  destruct (clean_batch _); [done|]. rewrite Hs. simpl.
  by destruct (Table_cast _ _).
Qed.


(** *** The shape of a batch *)

Lemma convert_column_spec (name : string) (texts : list string) (c : Column) :
  convert_column name texts = inr c ->
  length (col_cells c) = length texts.
Proof.
  unfold convert_column.
  case_bool_decide; [|case_bool_decide; [|case_bool_decide]].
  - intros [= <-]. simpl. by rewrite length_fmap.
  - intros [= <-]. simpl. by rewrite length_fmap.
  - unfold decode_int_column.
    destruct (astype_Int64 _) as [e|cells] eqn:Hcells; simpl; [done|].
    intros [= <-]. simpl.
    destruct (astype_Int64_unparsable _ _ 0 Hcells) as [Hlen _].
    by rewrite Hlen, length_fmap.
  - intros [= <-]. unfold text_column.
    repeat case_match; simpl; by rewrite !length_fmap.
Qed.

Lemma clean_batch_columns (rows : list string) (df : DataFrame) :
  clean_batch rows = inr df ->
  df.*1 = NAMES ∧
  Forall (fun nc : string * Column => length (col_cells nc.2) = length rows) df.
Proof.
  unfold clean_batch.
  assert (Hnames : (zip NAMES COLSPECS).*1 = NAMES) by (vm_compute; reflexivity).
  revert Hnames. generalize (zip NAMES COLSPECS). generalize NAMES.
  intros names specs. revert names df.
  induction specs as [|[name spec] specs IH]; intros names df Hnames; simpl.
  - intros [= <-]. by rewrite <- Hnames.
  - destruct (convert_column name _) as [e|c] eqn:Hc; simpl; [done|].
    destruct (traverse _ specs) as [e|cols] eqn:Hcols; simpl; [done|].
    intros [= <-]. destruct names as [|n names]; [done|].
    injection Hnames as <- Hnames.
    destruct (IH names cols Hnames eq_refl) as [Hn Hall].
    split; [rewrite fmap_cons; by rewrite Hn|].
    constructor; [|done]. simpl.
    by rewrite (convert_column_spec _ _ _ Hc), length_fmap.
Qed.


(** X3. Every batch that decodes has the 26 columns of the layout, in its
    order, and in each of them one cell for every row [read_fwf]
    delivered: the cleaning drops no row and no column. *)
Theorem clean_batch_keeps_every_row (rows : list string) (df : DataFrame) :
  clean_batch rows = inr df ->
  df.*1 = NAMES ∧
  Forall (fun nc : string * Column => length (col_cells nc.2) = length rows) df.
Proof.
  intros Hclean. by apply clean_batch_columns.
Qed.

(** *** Blank fields *)

Lemma convert_column_blank (name : string) (texts : list string) (c : Column)
    (i : nat) (t : string) :
  convert_column name texts = inr c ->
  texts !! i = Some t -> is_na_text t = true ->
  col_cells c !! i = Some NA.
Proof.
  intros Hc Hi Hna.
  assert (Hnum : parse_number t = None)
    by (unfold parse_number; by rewrite Hna).
  revert Hc. unfold convert_column.
  case_bool_decide; [|case_bool_decide; [|case_bool_decide]].
  - intros [= <-]. simpl. rewrite list_lookup_fmap, Hi. simpl.
    unfold decode_date, parse_date. by rewrite Hna.
  - intros [= <-]. simpl. rewrite list_lookup_fmap, Hi. simpl.
    by rewrite decode_price_unparsable.
  - unfold decode_int_column.
    destruct (astype_Int64 _) as [e|cells] eqn:Hcells; simpl; [done|].
    intros [= <-]. simpl.
    destruct (astype_Int64_unparsable _ _ i Hcells) as [_ Hcell].
    apply Hcell. by rewrite list_lookup_fmap, Hi, <- Hnum.
  - intros [= <-]. unfold text_column.
    destruct (forallb _ texts) eqn:Hall.
    + destruct (forallb is_int _) eqn:Hint.
      * exfalso. rewrite forallb_forall in Hint.
        assert (is_int (parse_number t) = true) as Habs.
        { apply Hint, list_elem_of_In, list_elem_of_fmap. exists t.
          split; [done|]. by eapply list_elem_of_lookup_2. }
        by rewrite Hnum in Habs.
      * simpl. by rewrite !list_lookup_fmap, Hi; simpl; rewrite Hnum.
    + simpl. rewrite list_lookup_fmap, Hi. simpl. by rewrite Hna.
Qed.

(** X5. In a batch that decodes, a field that is blank, or whose text is
    one of pandas' markers of a missing value ([STR_NA_VALUES]: NA, NULL,
    nan and the like), is a missing value in its column, whatever the
    column: never a zero, and never a text. *)
Theorem blank_field_decodes_to_missing (rows : list string) (df : DataFrame)
    (k i : nat) (name : string) (spec : nat * nat) (c : Column) (line : string) :
  clean_batch rows = inr df ->
  zip NAMES COLSPECS !! k = Some (name, spec) ->
  df !! k = Some (name, c) ->
  rows !! i = Some line ->
  is_na_text (field line spec) = true ->
  col_cells c !! i = Some NA.
Proof.
  unfold clean_batch. intros Hdf Hk Hc Hi Hna.
  destruct (traverse_lookup _ _ _ _ _ Hdf Hk) as (y & Hy & Hconv).
  pose proof (eq_trans (eq_sym Hy) Hc) as [= ->]. simpl in Hconv.
  destruct (convert_column name _) as [e|c'] eqn:Hcol; simpl in Hconv; [done|].
  injection Hconv as <-.
  eapply convert_column_blank; [exact Hcol| |exact Hna].
  by rewrite list_lookup_fmap, Hi.
Qed.

(** *** What the writer receives *)

Lemma cast_columns_length (from to : list arrow_type) (cols cols' : list (list cell)) :
  (forall f t c c', cast_array f t c = Some c' -> length c' = length c) ->
  length from = length cols -> length to = length cols ->
  cast_columns from to cols = Some cols' ->
  Forall2 (fun c c' => length c' = length c) cols cols'.
Proof.
  intros Hcast. revert to cols cols'.
  induction from as [|f from IH]; intros [|t to] [|c cols] cols'; simpl;
    try done; try (by intros _ _ [= <-]).
  intros [= Hf] [= Ht].
  destruct (cast_array f t c) as [c'|] eqn:Hc; [|done].
  destruct (cast_columns from to cols) as [cs|] eqn:Hcs; [|done].
  intros [= <-]. constructor; [by eapply Hcast|]. by eapply IH.
Qed.

Lemma Table_cast_rows (t t' : Table) (target : Schema) (n : nat) :
  (forall f t c c', cast_array f t c = Some c' -> length c' = length c) ->
  length (tbl_schema t) = length (tbl_columns t) ->
  Forall (fun c => length c = n) (tbl_columns t) ->
  Table_cast t target = inr t' ->
  length (tbl_columns t') = length (tbl_columns t) ∧
  Forall (fun c => length c = n) (tbl_columns t').
Proof.
  intros Hcast Hlen Hall. unfold Table_cast.
  case_decide; [by intros [= <-]|]. case_decide as Hnames; [|done].
  destruct (cast_columns _ _ _) as [cols|] eqn:Hcols; [|done].
  intros [= <-]. simpl.
  apply cast_columns_length in Hcols; [|done|..].
  - split; [symmetry; by eapply Forall2_length|].
    clear -Hcols Hall. induction Hcols as [|c c' cols cols' Hc _ IH]; [done|].
    inversion Hall; subst. constructor; [congruence|by apply IH].
  - by rewrite length_fmap.
  - by rewrite length_fmap, <- (length_fmap fst target), <- Hnames, length_fmap.
Qed.

(** X6. A batch that is written adds exactly one table to the file, with
    the 26 columns and one row for every line of the batch that is not
    blank (arrow's cast keeping the length of a column); a batch of blank
    lines alone changes nothing. *)
Theorem written_batch_has_a_row_per_line (st st' : WriterState)
    (batch_lines : list string) :
  (forall f t c c', cast_array f t c = Some c' -> length c' = length c) ->
  process_batch st batch_lines = (st', None) ->
  match read_fwf_rows batch_lines with
  | [] => st' = st
  | rows =>
      exists t, written st' = written st ++ [t] ∧
        length (tbl_columns t) = length NAMES ∧
        Forall (fun c => length c = length rows) (tbl_columns t)
  end.
Proof.
  intros Hcast. unfold process_batch.
  destruct (read_fwf_rows batch_lines) as [|r rows]; [by intros [= <-]|].
  destruct (clean_batch (r :: rows)) as [e|df] eqn:Hdf; [done|].
  destruct (Table_cast _ _) as [e|t'] eqn:Ht; [done|].
  intros [= <-]. cbn [written]. exists t'. split; [done|].
  apply clean_batch_columns in Hdf as [Hnames Hall].
  eapply Table_cast_rows in Ht as [Hlen Hrows]; [| done | | ].
  - split; [|exact Hrows]. rewrite Hlen. unfold Table_from_pandas.
    cbn [tbl_columns]. by rewrite length_fmap, <- Hnames, length_fmap.
  - simpl. by rewrite !length_fmap.
  - simpl. apply Forall_fmap. eapply Forall_impl; [exact Hall|].
    by intros nc Hrow.
Qed.

Lemma process_batch_prefix (st : WriterState) (batch_lines : list string) :
  written st `prefix_of` written (process_batch st batch_lines).1.
Proof.
  unfold process_batch.
  destruct (read_fwf_rows batch_lines); [done|].
  destruct (clean_batch _); [done|].
  destruct (Table_cast _ _); simpl; [done|].
  by apply prefix_app_r.
Qed.

Lemma process_batches_prefix (st : WriterState) (batches : list (list string)) :
  written st `prefix_of` written (process_batches st batches).
Proof.
  revert st. induction batches as [|b batches IH]; intros st; simpl; [done|].
  pose proof (process_batch_prefix st b) as Hb.
  destruct (process_batch st b) as [st' [e|]]; [done|].
  etrans; [exact Hb|apply IH].
Qed.

Lemma process_file_prefix (st : WriterState) (f : TextFile) :
  written st `prefix_of` written (process_file st f).
Proof.
  unfold process_file. destruct (file_lines f); [done|].
  destruct (content_lines _); [done|]. apply process_batches_prefix.
Qed.

(** X7. The build only appends: the tables written for the files processed
    so far stay in the file, as they are and where they are, whatever the
    later files hold and whether or not they fail. *)
Theorem later_files_only_append (st : WriterState) (files later : list TextFile) :
  written (foldl process_file st files)
    `prefix_of` written (foldl process_file st (files ++ later)).
Proof.
  rewrite foldl_app. generalize (foldl process_file st files). clear st files.
  induction later as [|f later IH]; intros st; simpl; [done|].
  etrans; [apply process_file_prefix|apply IH].
Qed.


(** *** The files of a build *)

Lemma content_lines_short (lines : list string) :
  (length lines <= 2)%nat -> content_lines lines = [].
Proof. by destruct lines as [|h [|t [|x lines]]]; simpl; [..|lia]. Qed.

Lemma content_lines_body (h t : string) (body : list string) :
  content_lines (h :: body ++ [t]) = body.
Proof. unfold content_lines. simpl. rewrite drop_0. apply removelast_last. Qed.

(** X8. The first and the last line of a file are never decoded: a file
    that cannot be read, or that has at most two lines, leaves the store
    as it is, and a longer one is processed as the batches of the lines in
    between, whatever stands in the two lines around them. *)
Theorem process_file_skips_header_and_trailer (st : WriterState) (name : string) :
  (forall e, process_file st {| file_name := name; file_lines := inl e |} = st) ∧
  (forall lines, (length lines <= 2)%nat ->
     process_file st {| file_name := name; file_lines := inr lines |} = st) ∧
  (forall h t body,
     process_file st {| file_name := name; file_lines := inr (h :: body ++ [t]) |}
     = process_batches st (chunks BATCH_SIZE body)).
Proof.
  split; [done|]. split.
  - intros lines Hlen. unfold process_file.
    cbn [file_lines]. by rewrite content_lines_short.
  - intros h t body. unfold process_file.
    cbn [file_lines]. rewrite content_lines_body.
    destruct body; [|done]. reflexivity.
Qed.

Lemma by_name_trans : Transitive by_name.
Proof. intros f1 f2 f3. unfold by_name. apply DictionaryBuilder.str_le_trans. Qed.

Lemma by_name_total : Total by_name.
Proof. intros f1 f2. unfold by_name. apply total, _. Qed.

(** X9. The build does not depend on the order in which [os.listdir] gives
    the names of the directory (which are pairwise different): the same
    files are processed, in the order of their names, with the same
    result. *)
Theorem build_ignores_listing_order (dir1 dir2 : list TextFile) :
  dir1 ≡ₚ dir2 -> NoDup (file_name <$> dir1) ->
  files_to_process dir1 = files_to_process dir2 ∧
  process_text_to_parquet dir1 = process_text_to_parquet dir2.
Proof.
  intros Hperm Hnames.
  assert (Heq : files_to_process dir1 = files_to_process dir2).
  { unfold files_to_process.
    apply (Sorted_unique_strong by_name (Transitive0 := by_name_trans)).
    - intros f1 f2 Hf1 Hf2 H12 H21.
      rewrite merge_sort_Permutation in Hf1, Hf2.
      apply list_elem_of_filter in Hf1 as [_ Hf1].
      apply list_elem_of_filter in Hf2 as [_ Hf2]. rewrite <- Hperm in Hf2.
      assert (file_name f1 = file_name f2) as Hn
        by (by apply (anti_symm str_le)).
      apply list_elem_of_lookup in Hf1 as [i Hi].
      apply list_elem_of_lookup in Hf2 as [j Hj].
      assert (i = j).
      { apply (NoDup_lookup _ i j (file_name f1) Hnames);
          rewrite list_lookup_fmap; [by rewrite Hi|by rewrite Hj, Hn]. }
      subst j. congruence.
    - apply Sorted_merge_sort, by_name_total.
    - apply Sorted_merge_sort, by_name_total.
    - rewrite !merge_sort_Permutation. by rewrite Hperm. }
  split; [done|]. unfold process_text_to_parquet. by rewrite Heq.
Qed.

End Decoder.

(** *** The build on the sample files *)

(** A later batch whose inferred schema differs is written under the
    schema of the first batch. *)
Example later_batch_is_cast :
  let st := process_text_to_parquet to_numeric_plain to_datetime_plain
              datetime_unit_plain cast_array_plain [blank_especi_file; petr4_file] in
  let alone := process_text_to_parquet to_numeric_plain to_datetime_plain
                 datetime_unit_plain cast_array_plain [blank_especi_file] in
  (tbl_schema <$> written st) !! 0%nat = final_schema st ∧
  (tbl_schema <$> written st) !! 1%nat = final_schema st ∧
  final_schema st <> final_schema alone ∧
  (tbl_columns <$> written st) !! 1%nat = (tbl_columns <$> written alone) !! 0%nat.
Proof. vm_compute. repeat split; done. Qed.

(** An opening price that is no number becomes a missing value; both rows
    of the file are written. *)
Example bad_price_is_missing :
  (fun t => tbl_columns t !! 9%nat)
    <$> written (process_text_to_parquet to_numeric_plain to_datetime_plain
                   datetime_unit_plain cast_array_plain [bad_price_file])
  = [ Some [Float 29%float; NA] ].
Proof. vm_compute. reflexivity. Qed.

(** C6, at the failing input. A session whose BDI code (columns 11-12)
    reads [.5]: [pd.to_numeric] reads 0.5, [astype('Int64')] raises
    TypeError, the [except] clause of the file ends the file, and neither
    this row nor the well-formed row before it reaches the store; without
    the malformed line the row is written. *)
Theorem nonintegral_code_aborts_file :
  field (petr4_line ".5" "0000000002900" "PN") (10, 12)%nat = ".5" ∧
  to_numeric_plain ".5" = Some (Num_float 0.5%float) ∧
  process_batch to_numeric_plain to_datetime_plain
      datetime_unit_plain cast_array_plain
    initial_state
    [ petr4_line "02" "0000000002900" "PN";
      petr4_line ".5" "0000000002900" "PN" ]
  = (initial_state, Some TypeError) ∧
  written (process_text_to_parquet to_numeric_plain to_datetime_plain
             datetime_unit_plain cast_array_plain [nonintegral_code_file]) = [] ∧
  length (written (process_text_to_parquet to_numeric_plain to_datetime_plain
                     datetime_unit_plain cast_array_plain [petr4_file])) = 1%nat.
Proof. vm_compute. repeat split; reflexivity. Qed.

(** *** The layout *)

Lemma substring_app_next (s : string) (a n m : nat) :
  substring a n s +:+ substring (a + n) m s = substring a (n + m) s.
Proof.
  revert a n. induction s as [|c s IH]; intros a n.
  - destruct a, n, m; reflexivity.
  - destruct a as [|a]; simpl.
    + destruct n as [|n]; simpl; [done|].
      change (String c (substring 0 n s +:+ substring n m s)
              = String c (substring 0 (n + m) s)).
      f_equal. apply (IH 0%nat n).
    + apply IH.
Qed.

Lemma substring_empty (s : string) (a : nat) : substring a 0 s = "".
Proof.
  revert a. induction s as [|c s IH]; intros [|a]; simpl; auto.
Qed.

Lemma substring_whole (s : string) : substring 0 (String.length s) s = s.
Proof. induction s as [|c s IH]; simpl; [done|]. by rewrite IH. Qed.

Lemma append_empty_r (s : string) : s +:+ "" = s.
Proof.
  induction s as [|c s IH]; [done|].
  change (String c (s +:+ "") = String c s). by rewrite IH.
Qed.

Lemma join_empty_cons (x : string) (l : list string) :
  join "" (x :: l) = x +:+ join "" l.
Proof. destruct l; [symmetry; apply append_empty_r|done]. Qed.

Lemma concat_slices (line : string) (specs : list (nat * nat)) (start : nat) :
  consecutive start specs = true ->
  let stop := foldl (fun _ spec => spec.2) start specs in
  (start <= stop)%nat ∧
  join "" ((fun spec => slice line spec.1 spec.2) <$> specs) =
  substring start (stop - start) line.
Proof.
  revert start. induction specs as [|[a b] specs IH]; intros start.
  - intros _. simpl. split; [lia|]. rewrite Nat.sub_diag.
    symmetry. apply substring_empty.
  - intros Hc. cbn [consecutive] in Hc.
    rewrite !andb_true_iff, !bool_decide_eq_true in Hc. simpl in Hc.
    destruct Hc as [[<- Hab] Hrest]. destruct (IH b Hrest) as [Hle Heq].
    cbn [foldl snd]. cbv zeta.
    rewrite !fmap_cons, join_empty_cons, Heq. unfold slice. cbn [fst snd].
    set (stop := foldl _ b specs) in *. split; [lia|].
    replace (stop - a)%nat with ((b - a) + (stop - b))%nat by lia.
    rewrite <- substring_app_next. do 2 f_equal. lia.
Qed.

(** X10. The 26 fields of the layout follow one another without gap or
    overlap from column 1 to column 245: put together, the raw slices of
    a line are its first 245 characters, and the line itself when it has
    245 characters. *)
Theorem fields_tile_the_record (line : string) :
  consecutive 0 COLSPECS = true ∧
  join "" ((fun spec => slice line spec.1 spec.2) <$> COLSPECS)
    = substring 0 245 line ∧
  (String.length line = 245%nat ->
   join "" ((fun spec => slice line spec.1 spec.2) <$> COLSPECS) = line).
Proof.
  assert (Hc : consecutive 0 COLSPECS = true) by (vm_compute; reflexivity).
  destruct (concat_slices line COLSPECS 0 Hc) as [_ Heq].
  split; [done|]. split; [exact Heq|].
  intros Hlen. rewrite Heq. change (foldl _ _ _ - 0)%nat with 245%nat.
  rewrite <- Hlen. apply substring_whole.
Qed.

(** *** Batches *)

Lemma chunks_fuel_nil {A : Type} (fuel size : nat) (l : list A) :
  chunks_fuel fuel size l <> [] -> l <> [].
Proof. by destruct fuel, l. Qed.

Lemma chunks_fuel_spec {A : Type} (size fuel : nat) (l : list A) :
  (0 < size)%nat -> (length l <= fuel)%nat ->
  concat (chunks_fuel fuel size l) = l ∧
  Forall (fun c => (0 < length c <= size)%nat) (chunks_fuel fuel size l) ∧
  (forall i c, chunks_fuel fuel size l !! i = Some c ->
     (S i < length (chunks_fuel fuel size l))%nat -> length c = size).
Proof.
  intros Hsize. revert l. induction fuel as [|fuel IH]; intros l Hlen.
  { destruct l; [|simpl in Hlen; lia]. simpl. split; [done|]. split; [done|].
    by intros i c [=]. }
  destruct l as [|x l].
  { simpl. split; [done|]. split; [done|]. by intros i c [=]. }
  cbn [chunks_fuel]. set (l0 := x :: l) in *.
  assert (Hdrop : (length (drop size l0) <= fuel)%nat).
  { rewrite length_drop. unfold l0 in *. cbn [length] in *. lia. }
  destruct (IH (drop size l0) Hdrop) as (Hcat & Hall & Hfull).
  split; [|split].
  - simpl. rewrite Hcat. apply take_drop.
  - constructor; [|done]. rewrite length_take. unfold l0. cbn [length]. lia.
  - intros [|i] c; simpl.
    + intros [= <-] Hmore. rewrite length_take.
      assert (Hne : drop size l0 <> []).
      { apply (chunks_fuel_nil fuel size). intros Hnil. rewrite Hnil in Hmore.
        simpl in Hmore. lia. }
      assert (length (drop size l0) <> 0)%nat as Hd
        by (by destruct (drop size l0)).
      rewrite length_drop in Hd. lia.
    + intros Hc Hmore. apply (Hfull i c Hc). lia.
Qed.

(** X11. For a positive batch size, the batches of a file are its content
    lines cut in order: put together they are the lines again, none is
    empty or longer than the batch size, and every batch but the last has
    exactly the batch size. *)
Theorem chunks_partition {A : Type} (size : nat) (l : list A) :
  (0 < size)%nat ->
  concat (chunks size l) = l ∧
  Forall (fun c => (0 < length c <= size)%nat) (chunks size l) ∧
  (forall i c, chunks size l !! i = Some c ->
     (S i < length (chunks size l))%nat -> length c = size).
Proof. intros Hsize. by apply chunks_fuel_spec. Qed.

Lemma chunks_partition_witness :
  concat (chunks 2 ["a"; "b"; "c"; "d"; "e"]) = ["a"; "b"; "c"; "d"; "e"] ∧
  Forall (fun c => (0 < length c <= 2)%nat) (chunks 2 ["a"; "b"; "c"; "d"; "e"]) ∧
  (forall i c, chunks 2 ["a"; "b"; "c"; "d"; "e"] !! i = Some c ->
     (S i < length (chunks 2 ["a"; "b"; "c"; "d"; "e"]))%nat -> length c = 2%nat).
Proof. apply (chunks_partition 2 ["a"; "b"; "c"; "d"; "e"]). lia. Defined.

(** *** Extraction *)

Lemma has_slash_basename (p : string) : has_slash (basename p) = false.
Proof.
  induction p as [|c p IH]; [done|]. cbn [basename].
  destruct (has_slash (String c p)) eqn:Hs; done.
Qed.

Lemma has_slash_app (s1 s2 : string) :
  has_slash (s1 +:+ s2) = has_slash s1 || has_slash s2.
Proof.
  unfold has_slash. induction s1 as [|c s1 IH]; [done|].
  change (String c s1 +:+ s2) with (String c (s1 +:+ s2)).
  cbn [list_ascii_of_string existsb]. by rewrite IH, orb_assoc.
Qed.

Lemma lower_app (s1 s2 : string) : lower (s1 +:+ s2) = lower s1 +:+ lower s2.
Proof.
  unfold lower. induction s1 as [|c s1 IH]; [done|].
  change (String c s1 +:+ s2) with (String c (s1 +:+ s2)).
  cbn [map_string]. rewrite IH. done.
Qed.

Lemma length_app_string (s1 s2 : string) :
  String.length (s1 +:+ s2) = (String.length s1 + String.length s2)%nat.
Proof.
  induction s1 as [|c s1 IH]; [done|].
  change (String c s1 +:+ s2) with (String c (s1 +:+ s2)). simpl. by rewrite IH.
Qed.

Lemma substring_app_skip (s1 s2 : string) (n : nat) :
  substring (String.length s1) n (s1 +:+ s2) = substring 0 n s2.
Proof.
  induction s1 as [|c s1 IH]; [done|].
  change (String c s1 +:+ s2) with (String c (s1 +:+ s2)). simpl. apply IH.
Qed.

Lemma endswith_app (s p : string) : endswith p (s +:+ p) = true.
Proof.
  unfold endswith, slice. apply bool_decide_eq_true.
  rewrite length_app_string.
  replace (String.length s + String.length p - String.length p)%nat
    with (String.length s) by lia.
  replace (String.length s + String.length p - String.length s)%nat
    with (String.length p) by lia.
  rewrite substring_app_skip. apply substring_whole.
Qed.

(** A member is written under a name without a slash that ends with
    [.txt] in some case. *)
Lemma output_filename_spec (member : string) :
  endswith ".txt" (lower (output_filename member)) = true ∧
  has_slash (output_filename member) = false.
Proof.
  unfold output_filename.
  destruct (endswith ".txt" (lower (basename member))) eqn:Hext; simpl.
  - split; [done|apply has_slash_basename].
  - split.
    + rewrite lower_app. apply (endswith_app _ ".txt").
    + by rewrite has_slash_app, has_slash_basename.
Qed.

Lemma extracted_refl (texts : Texts) : extracted texts texts.
Proof. by split. Qed.

Lemma extracted_insert (texts texts' : Texts) (member content : string) :
  extracted texts texts' ->
  extracted texts (<[output_filename member := content]> texts').
Proof.
  intros [Hdom Hnew]. split.
  - rewrite dom_insert. set_solver.
  - intros name Hne. destruct (decide (name = output_filename member)) as [->|Hn].
    + apply output_filename_spec.
    + rewrite lookup_insert_ne in Hne by done. by apply Hnew.
Qed.

Lemma extract_member_extracted (texts : Texts) (st : Texts * nat) (m : ZipMember) :
  extracted texts st.1 -> extracted texts (extract_member st m).1.1.
Proof.
  destruct st as [texts' n]. unfold extract_member.
  destruct (member_read m); simpl; [done|apply extracted_insert..].
Qed.

Lemma extract_members_extracted (texts : Texts) (st : Texts * nat)
    (members : list ZipMember) :
  extracted texts st.1 -> extracted texts (extract_members st members).1.
Proof.
  revert st. induction members as [|m members IH]; intros st Hst; [done|].
  cbn [extract_members].
  pose proof (extract_member_extracted texts st m Hst) as Hm.
  destruct (extract_member st m) as [st' [|]]; [done|]. by apply IH.
Qed.

(** X12. The extraction deletes no file of the texts directory, and every
    file it creates or overwrites has a name that contains no slash (it
    lies in the directory itself, whatever path the member has in its
    archive) and ends with [.txt] in some case (so that the processing
    step selects it). *)
Theorem extract_zip_files_writes_text_files (raw : list RawFile) (texts : Texts) :
  dom texts ⊆ dom (extract_zip_files raw texts).1 ∧
  forall name, (extract_zip_files raw texts).1 !! name <> texts !! name ->
    endswith ".txt" (lower name) = true ∧ has_slash name = false.
Proof.
  unfold extract_zip_files.
  generalize (filter (fun f => endswith ".zip" (lower (raw_name f)) = true) raw).
  intros zip_files.
  change (extracted texts (foldl extract_archive (texts, 0%nat) zip_files).1).
  assert (Hst : extracted texts (texts, 0%nat).1) by apply extracted_refl.
  revert Hst. generalize (texts, 0%nat).
  induction zip_files as [|f zip_files IH]; intros st Hst; [done|].
  simpl. apply IH. unfold extract_archive.
  destruct (raw_members f); [|done]. by apply extract_members_extracted.
Qed.

(** *** The theorems on the sample files *)

Lemma clean_batch_keeps_every_row_witness :
  exists df,
    clean_batch to_numeric_plain to_datetime_plain
      datetime_unit_plain
      [petr4_line "02" "0000000002900" "PN"; petr4_line "02" "" "PN"] = inr df ∧
    df.*1 = NAMES ∧
    Forall (fun nc : string * Column => length (col_cells nc.2) = 2%nat) df.
Proof.
  eexists. split; [vm_compute; reflexivity|].
  apply (clean_batch_keeps_every_row to_numeric_plain to_datetime_plain
           datetime_unit_plain
           [petr4_line "02" "0000000002900" "PN"; petr4_line "02" "" "PN"]).
  vm_compute. reflexivity.
Defined.

Lemma blank_field_decodes_to_missing_witness :
  exists df c,
    clean_batch to_numeric_plain to_datetime_plain
      datetime_unit_plain
      [petr4_line "02" "" "NULL"] = inr df ∧
    df !! 6%nat = Some ("ESPECI", c) ∧
    col_cells c !! 0%nat = Some NA.
Proof.
  eexists _, _. split; [vm_compute; reflexivity|].
  split; [vm_compute; reflexivity|].
  eapply (blank_field_decodes_to_missing to_numeric_plain to_datetime_plain
            datetime_unit_plain
            [petr4_line "02" "" "NULL"] _ 6 0 "ESPECI" (39, 49)%nat _
            (petr4_line "02" "" "NULL"));
    vm_compute; reflexivity.
Defined.

Lemma cast_array_plain_length (f t : arrow_type) (c c' : list cell) :
  cast_array_plain f t c = Some c' -> length c' = length c.
Proof.
  unfold cast_array_plain. destruct (decide (f = t)); [by intros [= <-]|].
  destruct (forallb _ c); [by intros [= <-]|done].
Qed.

Lemma written_batch_has_a_row_per_line_witness :
  exists st',
    process_batch to_numeric_plain to_datetime_plain
      datetime_unit_plain cast_array_plain
      initial_state [petr4_line "02" "0000000002900" "PN"; spaces 245;
                     petr4_line "02" "00000ABC00000" "PN"] = (st', None) ∧
    exists t, written st' = written initial_state ++ [t] ∧
      length (tbl_columns t) = length NAMES ∧
      Forall (fun c => length c = 2%nat) (tbl_columns t).
Proof.
  eexists. split; [vm_compute; reflexivity|].
  eapply (written_batch_has_a_row_per_line to_numeric_plain to_datetime_plain
           datetime_unit_plain cast_array_plain initial_state _
           [petr4_line "02" "0000000002900" "PN"; spaces 245;
            petr4_line "02" "00000ABC00000" "PN"] cast_array_plain_length).
  vm_compute. reflexivity.
Defined.

Lemma build_ignores_listing_order_witness :
  files_to_process [petr4_file; blank_especi_file]
    = files_to_process [blank_especi_file; petr4_file] ∧
  process_text_to_parquet to_numeric_plain to_datetime_plain
      datetime_unit_plain cast_array_plain
    [petr4_file; blank_especi_file]
  = process_text_to_parquet to_numeric_plain to_datetime_plain
      datetime_unit_plain cast_array_plain
      [blank_especi_file; petr4_file].
Proof.
  apply (build_ignores_listing_order to_numeric_plain to_datetime_plain
           datetime_unit_plain cast_array_plain [petr4_file; blank_especi_file]
           [blank_especi_file; petr4_file]).
  - apply perm_swap.
  - apply NoDup_cons. split; [|apply NoDup_singleton].
    rewrite list_elem_of_singleton. discriminate.
Defined.

End RawDataProcessor.

(** ** The scaling of prices by 100 *)

Module PriceScaling.

Import RawDataProcessor.

Local Open Scope Z_scope.

(** Re-encoding: [x * 100] on float64, rounded to the nearest integer. *)
Definition mul_100 (x : float) : float := PrimFloat.mul x 100%float.

(** The integer nearest to [m / d], for [0 < d]; a tie goes to the even
    one. *)
Definition round_half_even (m d : Z) : Z :=
  let q := m / d in
  let r := m mod d in
  match 2 * r ?= d with
  | Lt => q
  | Gt => q + 1
  | Eq => if Z.even q then q else q + 1
  end.

(** [round(f)]: the integer nearest to a finite float64. *)
Definition py_round (f : float) : option Z :=
  match Prim2SF f with
  | S754_zero _ => Some 0
  | S754_finite sign m e =>
      let v := if 0 <=? e then Zpos m * 2 ^ e
               else round_half_even (Zpos m) (2 ^ (- e)) in
      Some (if sign then - v else v)
  | _ => None
  end.

(** [round(x * 100)]. *)
Definition encode_price (x : float) : option Z := py_round (mul_100 x).

(** The rational [a / b] lies at the place the record says: at [m], in
    the lower half, in the middle or in the upper half of [m, m + 1). *)
Definition located (mrs : shr_record) (a b : Z) : Prop :=
  match shr_r mrs, shr_s mrs with
  | false, false => a = shr_m mrs * b
  | false, true => shr_m mrs * b < a ∧ 2 * a < (2 * shr_m mrs + 1) * b
  | true, false => 2 * a = (2 * shr_m mrs + 1) * b
  | true, true => (2 * shr_m mrs + 1) * b < 2 * a ∧ a < (shr_m mrs + 1) * b
  end.

(** The mantissa of the float64 [100.0]: [100 * 2^46]. *)
Definition m100 : Z := 7036874417766400.

(** *** Rounding in binary64 *)

Lemma digits2_pos_spec (p : positive) :
  2 ^ (Zpos (digits2_pos p) - 1) <= Zpos p < 2 ^ Zpos (digits2_pos p).
Proof.
  induction p as [p IH|p IH|]; simpl digits2_pos.
  - rewrite Pos2Z.inj_succ.
    replace (Z.succ (Zpos (digits2_pos p)) - 1) with (Z.succ (Zpos (digits2_pos p) - 1)) by lia.
    rewrite !Z.pow_succ_r by lia. lia.
  - rewrite Pos2Z.inj_succ.
    replace (Z.succ (Zpos (digits2_pos p)) - 1) with (Z.succ (Zpos (digits2_pos p) - 1)) by lia.
    rewrite !Z.pow_succ_r by lia. lia.
  - simpl. lia.
Qed.

Lemma digits2_pos_unique (p : positive) (d : Z) :
  2 ^ (d - 1) <= Zpos p < 2 ^ d -> Zpos (digits2_pos p) = d.
Proof.
  intros [Hlo Hhi]. pose proof (digits2_pos_spec p) as [Hlo' Hhi'].
  assert (0 < d).
  { destruct (Z.lt_ge_cases 0 d) as [|Hd]; [done|].
    assert (2 ^ d <= 1); [|lia].
    destruct (Z.eq_dec d 0) as [->|]; [simpl; lia|].
    rewrite Z.pow_neg_r by lia. lia. }
  destruct (Z.lt_trichotomy (Zpos (digits2_pos p)) d) as [Hlt|[Heq|Hgt]]; [|done|].
  - assert (2 ^ Zpos (digits2_pos p) <= 2 ^ (d - 1)) by (apply Z.pow_le_mono_r; lia). lia.
  - assert (2 ^ d <= 2 ^ (Zpos (digits2_pos p) - 1)) by (apply Z.pow_le_mono_r; lia). lia.
Qed.

Lemma iter_xO_value (p k : positive) :
  Zpos (Pos.iter xO p k) = Zpos p * 2 ^ Zpos k.
Proof.
  induction k as [|k IH] using Pos.peano_ind.
  - simpl. lia.
  - rewrite Pos.iter_succ, Pos2Z.inj_succ, Z.pow_succ_r by lia.
    rewrite Pos2Z.inj_xO, IH. lia.
Qed.

Lemma shr_1_located (mrs : shr_record) (a b : Z) :
  0 <= shr_m mrs -> 0 < b -> located mrs a b ->
  0 <= shr_m (shr_1 mrs) ∧ located (shr_1 mrs) a (2 * b).
Proof.
  destruct mrs as [m r s]. unfold located. simpl.
  intros Hm Hb Hloc.
  destruct m as [|[p|p|]|p]; simpl; try lia;
    destruct r, s; simpl in *; lia.
Qed.

Lemma pow2_xO (p : positive) : 2 ^ Zpos p~0 = 2 ^ Zpos p * 2 ^ Zpos p.
Proof. rewrite <- Z.pow_add_r by lia. f_equal. lia. Qed.

Lemma pow2_xI (p : positive) : 2 ^ Zpos p~1 = 2 * (2 ^ Zpos p * 2 ^ Zpos p).
Proof.
  rewrite <- Z.pow_add_r, <- Z.pow_succ_r by lia. f_equal. lia.
Qed.

Lemma iter_pos_shr_1_located (p : positive) (mrs : shr_record) (a b : Z) :
  0 <= shr_m mrs -> 0 < b -> located mrs a b ->
  0 <= shr_m (SpecFloat.iter_pos shr_1 p mrs)
  ∧ located (SpecFloat.iter_pos shr_1 p mrs) a (b * 2 ^ Zpos p).
Proof.
  revert mrs b. induction p as [p IH|p IH|]; intros mrs b Hm Hb Hloc; simpl SpecFloat.iter_pos.
  - destruct (shr_1_located mrs a b Hm Hb Hloc) as [Hm1 Hloc1].
    destruct (IH _ (2 * b) Hm1 ltac:(lia) Hloc1) as [Hm2 Hloc2].
    assert (0 < 2 ^ Zpos p) by (apply Z.pow_pos_nonneg; lia).
    destruct (IH _ (2 * b * 2 ^ Zpos p) Hm2 ltac:(lia) Hloc2) as [Hm3 Hloc3].
    split; [done|].
    replace (b * 2 ^ Zpos p~1) with (2 * b * 2 ^ Zpos p * 2 ^ Zpos p); [done|].
    rewrite pow2_xI. ring.
  - assert (0 < 2 ^ Zpos p) by (apply Z.pow_pos_nonneg; lia).
    destruct (IH _ b Hm Hb Hloc) as [Hm2 Hloc2].
    destruct (IH _ (b * 2 ^ Zpos p) Hm2 ltac:(lia) Hloc2) as [Hm3 Hloc3].
    split; [done|].
    replace (b * 2 ^ Zpos p~0) with (b * 2 ^ Zpos p * 2 ^ Zpos p); [done|].
    rewrite pow2_xO. ring.
  - destruct (shr_1_located mrs a b Hm Hb Hloc) as [Hm1 Hloc1].
    split; [done|]. by replace (b * 2 ^ 1) with (2 * b) by lia.
Qed.

Lemma located_floor (mrs : shr_record) (a b : Z) :
  0 < b -> located mrs a b ->
  shr_m mrs * b <= a < (shr_m mrs + 1) * b.
Proof.
  destruct mrs as [m r s]. unfold located. simpl. destruct r, s; lia.
Qed.

Lemma shr_record_of_loc_m (m : Z) (l : location) :
  shr_m (shr_record_of_loc m l) = m.
Proof. by destruct l as [|[]]. Qed.

Lemma round_nearest_even_located (mrs : shr_record) (a b : Z) :
  0 < b -> located mrs a b ->
  let z := round_nearest_even (shr_m mrs) (loc_of_shr_record mrs) in
  (z = shr_m mrs ∨ z = shr_m mrs + 1) ∧ 2 * Z.abs (z * b - a) <= b.
Proof.
  destruct mrs as [m r s]. unfold located. simpl.
  intros Hb Hloc. destruct r, s; simpl.
  - split; [by right|lia].
  - destruct (Z.even m); (split; [tauto|lia]).
  - split; [by left|lia].
  - split; [by left|lia].
Qed.

Lemma fexp_normal (e : Z) : -1021 <= e -> fexp prec emax e = e - 53.
Proof. unfold fexp, emin, prec, emax. lia. Qed.

Lemma shr_located (mrs : shr_record) (e k a b : Z) :
  0 <= shr_m mrs -> 0 < b -> 0 <= k -> located mrs a b ->
  (shr mrs e k).2 = e + k
  ∧ 0 <= shr_m (shr mrs e k).1
  ∧ located (shr mrs e k).1 a (b * 2 ^ k).
Proof.
  intros Hm Hb Hk Hloc. unfold shr. destruct k as [|p|p]; simpl; [|..|lia].
  - split; [lia|]. split; [done|]. by rewrite Z.mul_1_r.
  - split; [done|]. by apply iter_pos_shr_1_located.
Qed.

Lemma Zdigits2_unique (z d : Z) :
  2 ^ (d - 1) <= z < 2 ^ d -> 0 < z -> Zdigits2 z = d.
Proof.
  intros Hz Hpos. destruct z as [|p|p]; try lia. simpl.
  by apply digits2_pos_unique.
Qed.

Lemma binary_round_aux_spec (sx : bool) (mx : positive) (ex : Z)
    (lx : location) (a b k : Z) :
  0 < b -> located (shr_record_of_loc (Zpos mx) lx) a b ->
  0 <= k -> Zpos (digits2_pos mx) = 53 + k ->
  -1074 <= ex + k -> ex + k + 1 <= 971 ->
  exists m e,
    binary_round_aux prec emax sx (Zpos mx) ex lx = S754_finite sx m e
    ∧ (e = ex + k ∨ e = ex + k + 1)
    ∧ 2 ^ 52 <= Zpos m < 2 ^ 53
    ∧ 2 * Z.abs (Zpos m * 2 ^ (e - ex) * b - a) <= 2 ^ (e - ex) * b.
Proof.
  intros Hb Hloc Hk Hdigits Hlo Hhi.
  pose proof (digits2_pos_spec mx) as Hmx. rewrite Hdigits in Hmx.
  replace (53 + k - 1) with (52 + k) in Hmx by lia.
  rewrite !Z.pow_add_r in Hmx by lia.
  assert (Hpk : 0 < 2 ^ k) by (apply Z.pow_pos_nonneg; lia).
  unfold binary_round_aux, shr_fexp.
  replace (Zdigits2 (Zpos mx)) with (53 + k) by (simpl; lia).
  rewrite fexp_normal by lia.
  replace (53 + k + ex - 53 - ex) with k by lia.
  pose proof (shr_located (shr_record_of_loc (Zpos mx) lx) ex k a b) as Hshr.
  rewrite shr_record_of_loc_m in Hshr.
  destruct (Hshr ltac:(lia) Hb Hk Hloc) as (He1 & Hm1 & Hloc1). clear Hshr.
  destruct (shr (shr_record_of_loc (Zpos mx) lx) ex k) as [mrs1 e1].
  simpl in He1, Hm1, Hloc1. subst e1.
  assert (Hbk : 0 < b * 2 ^ k) by lia.
  pose proof (located_floor _ _ _ Hb Hloc) as Hfl0.
  rewrite shr_record_of_loc_m in Hfl0.
  pose proof (located_floor _ _ _ Hbk Hloc1) as Hfl1.
  set (m1 := shr_m mrs1) in *.
  assert (Hm1r : 2 ^ 52 <= m1 < 2 ^ 53).
  { split.
    - assert (2 ^ 52 * (b * 2 ^ k) < (m1 + 1) * (b * 2 ^ k)) by nia.
      assert (2 ^ 52 < m1 + 1) by (eapply Z.mul_lt_mono_pos_r; [exact Hbk|done]).
      lia.
    - assert (m1 * (b * 2 ^ k) < 2 ^ 53 * (b * 2 ^ k)) by nia.
      eapply Z.mul_lt_mono_pos_r; [exact Hbk|done]. }
  destruct (round_nearest_even_located mrs1 a (b * 2 ^ k) Hbk Hloc1)
    as [Hz Herr].
  fold m1 in Hz, Herr.
  set (z := round_nearest_even m1 (loc_of_shr_record mrs1)) in *.
  assert (Hzr : 2 ^ 52 <= z <= 2 ^ 53) by lia.
  destruct (Z.eq_dec z (2 ^ 53)) as [Hz53|Hz53].
  - (* the rounding carried into a 54th bit *)
    rewrite Hz53.
    change (2 ^ 53) with 9007199254740992 at 1 2.
    change (Zdigits2 9007199254740992) with 54.
    rewrite fexp_normal by lia.
    replace (54 + (ex + k) - 53 - (ex + k)) with 1 by lia.
    unfold shr, shr_record_of_loc. simpl SpecFloat.iter_pos. unfold shr_1. simpl shr_m.
    replace (ex + k + 1 <=? emax - prec) with true
      by (symmetry; apply Z.leb_le; unfold emax, prec; lia).
    eexists _, _. split; [reflexivity|]. split; [by right|].
    split; [done|].
    replace (ex + k + 1 - ex) with (k + 1) by lia.
    rewrite Z.pow_add_r by lia. rewrite Hz53 in Herr.
    change (2 ^ 53) with (2 * 4503599627370496) in Herr.
    change (2 ^ 1) with 2. lia.
  - assert (Hd : Zdigits2 z = 53) by (apply Zdigits2_unique; lia).
    rewrite Hd. rewrite fexp_normal by lia.
    replace (53 + (ex + k) - 53 - (ex + k)) with 0 by lia.
    unfold shr, shr_record_of_loc. cbn [shr_m].
    destruct z as [|pz|pz] eqn:Hzeq; try lia.
    replace (ex + k <=? emax - prec) with true
      by (symmetry; apply Z.leb_le; unfold emax, prec; lia).
    eexists _, _. split; [reflexivity|]. split; [by left|].
    split; [lia|].
    replace (ex + k - ex) with k by lia.
    replace (Zpos pz * 2 ^ k * b) with (Zpos pz * (b * 2 ^ k)) by ring.
    lia.
Qed.

Lemma binary_round_aux_exact (sx : bool) (m : positive) (e : Z) :
  Zpos (digits2_pos m) = 53 -> -1074 <= e <= 971 ->
  binary_round_aux prec emax sx (Zpos m) e loc_Exact = S754_finite sx m e.
Proof.
  intros Hd He. unfold binary_round_aux, shr_fexp.
  replace (Zdigits2 (Zpos m)) with 53 by (simpl; lia).
  rewrite fexp_normal by lia.
  replace (53 + e - 53 - e) with 0 by lia.
  unfold shr, shr_record_of_loc. cbn [shr_m loc_of_shr_record round_nearest_even].
  replace (Zdigits2 (Zpos m)) with 53 by (simpl; lia).
  rewrite fexp_normal by lia.
  replace (53 + e - 53 - e) with 0 by lia.
  cbn [shr_m].
  replace (e <=? emax - prec) with true
    by (symmetry; apply Z.leb_le; unfold emax, prec; lia).
  done.
Qed.

(** An integer below 2^53 is a float64: its mantissa is the integer
    shifted to 53 bits. *)
Lemma float_of_Z_spec (n : Z) :
  0 < n < 2 ^ 53 ->
  exists m t,
    Prim2SF (float_of_Z n) = S754_finite false m (- t)
    ∧ 0 <= t <= 52
    ∧ Zpos m = n * 2 ^ t
    ∧ 2 ^ 52 <= Zpos m < 2 ^ 53.
Proof.
  intros Hn. unfold float_of_Z.
  replace (n <? 0) with false by (symmetry; apply Z.ltb_ge; lia).
  rewrite of_uint63_spec, Uint63.of_Z_spec.
  rewrite Z.mod_small by (change Uint63Axioms.wB with (2 ^ 63); change (2 ^ 53) with 9007199254740992 in Hn; change (2 ^ 63) with 9223372036854775808; lia).
  destruct n as [|p|p]; try lia.
  unfold binary_normalize, binary_round.
  pose proof (digits2_pos_spec p) as Hp.
  set (d := Zpos (digits2_pos p)) in *.
  assert (Hd : 1 <= d <= 53).
  { split; [unfold d; lia|].
    destruct (Z.le_gt_cases d 53) as [|Hgt]; [done|].
    assert (2 ^ 53 <= 2 ^ (d - 1)) by (apply Z.pow_le_mono_r; lia). lia. }
  rewrite Z.add_0_r, fexp_normal by lia.
  unfold shl_align. rewrite Z.sub_0_r.
  destruct (d - 53) as [|q|q] eqn:Hq; try lia.
  - assert (d = 53) by lia.
    rewrite binary_round_aux_exact by lia.
    exists p, 0. split; [done|]. split; [lia|].
    replace (53 - 1) with 52 in * by lia. split; [lia|].
    replace (d - 1) with 52 in Hp by lia. replace d with 53 in Hp by lia. lia.
  - assert (Hval : Zpos (Pos.iter xO p q) = Zpos p * 2 ^ Zpos q)
      by apply iter_xO_value.
    assert (Hqd : Zpos q = 53 - d) by lia.
    assert (Hrange : 2 ^ 52 <= Zpos (Pos.iter xO p q) < 2 ^ 53).
    { rewrite Hval, Hqd.
      replace (2 ^ 52) with (2 ^ (d - 1) * 2 ^ (53 - d))
        by (rewrite <- Z.pow_add_r by lia; f_equal; lia).
      replace (2 ^ 53) with (2 ^ d * 2 ^ (53 - d))
        by (rewrite <- Z.pow_add_r by lia; f_equal; lia).
      assert (0 < 2 ^ (53 - d)) by (apply Z.pow_pos_nonneg; lia).
      nia. }
    rewrite binary_round_aux_exact;
      [|by apply digits2_pos_unique|lia].
    exists (Pos.iter xO p q), (Zpos q).
    split; [done|]. split; [lia|]. split; [done|done].
Qed.

Lemma round_half_even_near (m d n : Z) :
  0 < d -> 2 * Z.abs (m - n * d) < d -> round_half_even m d = n.
Proof.
  intros Hd Hnear. unfold round_half_even.
  destruct (Z.le_gt_cases (n * d) m) as [Hle|Hgt].
  - assert (Hq : m / d = n) by (symmetry; apply (Z.div_unique m d n (m - n * d)); lia).
    assert (Hr : m mod d = m - n * d)
      by (symmetry; apply (Z.mod_unique m d n (m - n * d)); lia).
    rewrite Hq, Hr.
    replace (2 * (m - n * d) ?= d) with Lt; [done|].
    symmetry. apply Z.compare_lt_iff. lia.
  - assert (Hq : m / d = n - 1)
      by (symmetry; apply (Z.div_unique m d (n - 1) (m - (n - 1) * d)); lia).
    assert (Hr : m mod d = m - (n - 1) * d)
      by (symmetry; apply (Z.mod_unique m d (n - 1) (m - (n - 1) * d)); lia).
    rewrite Hq, Hr.
    replace (2 * (m - (n - 1) * d) ?= d) with Gt; [lia|].
    symmetry. apply Z.compare_gt_iff. lia.
Qed.

Lemma Prim2SF_100 : Prim2SF 100%float = S754_finite false 7036874417766400 (-46).
Proof. reflexivity. Qed.

Lemma new_location_located (q r m : Z) :
  0 <= r < m100 -> m = q * m100 + r ->
  located (shr_record_of_loc q (new_location m100 r)) m m100.
Proof.
  intros Hr ->. unfold new_location. change (Z.even m100) with true. cbv iota.
  unfold new_location_even.
  destruct (Z.eqb_spec r 0) as [->|Hne]; unfold located; simpl; [lia|].
  destruct (Z.compare_spec (2 * r) m100); simpl; lia.
Qed.

(** The quotient by 100, correctly rounded. *)
Lemma div_100_spec (n : Z) :
  0 < n < 2 ^ 53 ->
  exists mq t j,
    Prim2SF (div_100 (float_of_Z n)) = S754_finite false mq (- 7 - t + j)
    ∧ 0 <= t <= 52 ∧ 0 <= j <= 2
    ∧ 2 ^ 52 <= n * 2 ^ t < 2 ^ 53
    ∧ 2 ^ 52 <= Zpos mq < 2 ^ 53
    ∧ 2 * Z.abs (Zpos mq * 2 ^ j * m100 - n * 2 ^ t * 2 ^ 53) <= 2 ^ j * m100.
Proof.
  intros Hn.
  destruct (float_of_Z_spec n Hn) as (m1 & t & Hf & Ht & Hm1 & Hm1r).
  unfold div_100. rewrite div_spec, Hf, Prim2SF_100.
  unfold SF64div, SFdiv, SFdiv_core_binary.
  assert (Hd1 : Zdigits2 (Zpos m1) = 53) by (apply Zdigits2_unique; lia).
  rewrite Hd1. change (Zdigits2 7036874417766400) with 53.
  replace (53 + - t - (53 + -46)) with (46 - t) by lia.
  rewrite fexp_normal by lia.
  replace (Z.min (46 - t - 53) (- t - -46)) with (- 7 - t) by lia.
  replace (- t - -46 - (- 7 - t)) with 53 by lia.
  rewrite Z.shiftl_mul_pow2 by lia.
  pose proof (Z_div_mod (Zpos m1 * 2 ^ 53) 7036874417766400 ltac:(lia)) as Hdiv.
  destruct (Z.div_eucl (Zpos m1 * 2 ^ 53) 7036874417766400) as [q r].
  destruct Hdiv as [Hqr Hr]. cbv beta iota. simpl xorb.
  assert (Hq : 2 ^ 52 <= q < 2 ^ 54).
  { change (2 ^ 52) with 4503599627370496 in *.
    change (2 ^ 53) with 9007199254740992 in *.
    change (2 ^ 54) with 18014398509481984. lia. }
  destruct q as [|pq|pq]; try lia.
  assert (Hk : exists k, 0 <= k <= 1 ∧ Zpos (digits2_pos pq) = 53 + k).
  { destruct (Z.lt_ge_cases (Zpos pq) (2 ^ 53)).
    - exists 0. split; [lia|]. apply digits2_pos_unique. simpl (53 + 0 - 1). lia.
    - exists 1. split; [lia|]. apply digits2_pos_unique. simpl (53 + 1 - 1).
      simpl (53 + 1). lia. }
  destruct Hk as (k & Hk & Hdq).
  destruct (binary_round_aux_spec false pq (- 7 - t)
              (new_location 7036874417766400 r)
              (Zpos m1 * 2 ^ 53) m100 k) as (mq & eq & Hres & He & Hmq & Herr);
    [done| |lia|done|lia|lia|].
  { apply new_location_located; [done|]. unfold m100. lia. }
  rewrite Hres.
  exists mq, t, (eq - (- 7 - t)).
  split; [f_equal; lia|]. split; [done|]. split; [lia|].
  split; [lia|]. split; [done|]. by rewrite <- Hm1.
Qed.

(** The product by 100, correctly rounded. *)
Lemma mul_100_spec (x : float) (mq : positive) (eq : Z) :
  Prim2SF x = S754_finite false mq eq ->
  2 ^ 52 <= Zpos mq < 2 ^ 53 -> -100 <= eq <= 0 ->
  exists mp i,
    Prim2SF (mul_100 x) = S754_finite false mp (eq - 46 + i)
    ∧ 52 <= i <= 54
    ∧ 2 ^ 52 <= Zpos mp < 2 ^ 53
    ∧ 2 * Z.abs (Zpos mp * 2 ^ i - Zpos mq * m100) <= 2 ^ i.
Proof.
  intros Hx Hmq Heq. unfold mul_100. rewrite mul_spec, Hx, Prim2SF_100.
  unfold SF64mul, SFmul. simpl xorb.
  assert (Hprod : 2 ^ 104 <= Zpos (mq * 7036874417766400) < 2 ^ 106).
  { rewrite Pos2Z.inj_mul.
    change (2 ^ 52) with 4503599627370496 in *.
    change (2 ^ 53) with 9007199254740992 in *.
    change (2 ^ 104) with 20282409603651670423947251286016.
    change (2 ^ 106) with 81129638414606681695789005144064. lia. }
  assert (Hk : exists k, 52 <= k <= 53
                 ∧ Zpos (digits2_pos (mq * 7036874417766400)) = 53 + k).
  { destruct (Z.lt_ge_cases (Zpos (mq * 7036874417766400)) (2 ^ 105)).
    - exists 52. split; [lia|]. apply digits2_pos_unique.
      simpl (53 + 52 - 1). simpl (53 + 52). lia.
    - exists 53. split; [lia|]. apply digits2_pos_unique.
      simpl (53 + 53 - 1). simpl (53 + 53). lia. }
  destruct Hk as (k & Hk & Hd).
  destruct (binary_round_aux_spec false (mq * 7036874417766400) (eq + -46)
              loc_Exact (Zpos (mq * 7036874417766400)) 1 k)
    as (mp & ep & Hres & He & Hmp & Herr); [lia| |lia|done|lia|lia|].
  { unfold located. simpl. lia. }
  rewrite Hres. exists mp, (ep - (eq + -46)).
  split; [f_equal; lia|]. split; [lia|]. split; [done|].
  rewrite Pos2Z.inj_mul in Herr. unfold m100. lia.
Qed.

Ltac pow2_consts :=
  repeat match goal with
         | H : context [2 ^ ?c] |- _ =>
             let v := eval vm_compute in (2 ^ c) in
             change (2 ^ c) with v in H
         | |- context [2 ^ ?c] =>
             let v := eval vm_compute in (2 ^ c) in
             change (2 ^ c) with v
         end.

(** The mantissa [mp] of the product, whose last bit weighs [2^-T] for
    [T = 53 + t - i - j], is less than half a unit away from the integer
    [n]: first for an integer below 2^48, where the errors of the two
    roundings are small against a unit. *)
Lemma product_near_below_2_48 (n t i j : Z) (mq mp : positive) :
  5 <= t <= 52 -> 52 <= i <= 54 -> 0 <= j <= 2 ->
  2 ^ 52 <= n * 2 ^ t < 2 ^ 53 ->
  2 * Z.abs (Zpos mq * 2 ^ j * m100 - n * 2 ^ t * 2 ^ 53) <= 2 ^ j * m100 ->
  2 * Z.abs (Zpos mp * 2 ^ i - Zpos mq * m100) <= 2 ^ i ->
  0 < 53 + t - i - j ∧
  2 * Z.abs (Zpos mp - n * 2 ^ (53 + t - i - j)) < 2 ^ (53 + t - i - j).
Proof.
  intros Ht Hi Hj Hnt Hdiv Hmul.
  set (T := 53 + t - i - j).
  assert (HT : 2 <= T) by (unfold T; lia).
  assert (HD : 4 <= 2 ^ T).
  { change 4 with (2 ^ 2). apply Z.pow_le_mono_r; lia. }
  assert (Hscale : n * 2 ^ T * (2 ^ i * 2 ^ j) = n * 2 ^ t * 2 ^ 53).
  { rewrite <- !Z.mul_assoc. f_equal. rewrite <- !Z.pow_add_r by lia.
    f_equal. unfold T. lia. }
  split; [lia|].
  set (ND := n * 2 ^ T) in *. set (N := n * 2 ^ t) in *.
  clearbody ND N. unfold m100 in *.
  assert (Hnear : 2 * Z.abs (Zpos mp - ND) <= 2).
  { assert (Hi' : i = 52 ∨ i = 53 ∨ i = 54) by lia.
    assert (Hj' : j = 0 ∨ j = 1 ∨ j = 2) by lia.
    destruct Hi' as [-> | [-> | ->]]; destruct Hj' as [-> | [-> | ->]];
      pow2_consts; lia. }
  lia.
Qed.

(** Then for an integer from 2^48 up to [100 * 2^45], by cases on the
    three exponents. *)
Lemma product_near_from_2_48 (n t i j : Z) (mq mp : positive) :
  0 < n < 3518437208883200 ->
  1 <= t <= 4 -> 52 <= i <= 54 -> 0 <= j <= 2 ->
  2 ^ 52 <= n * 2 ^ t < 2 ^ 53 ->
  2 ^ 52 <= Zpos mq < 2 ^ 53 ->
  2 ^ 52 <= Zpos mp < 2 ^ 53 ->
  2 * Z.abs (Zpos mq * 2 ^ j * m100 - n * 2 ^ t * 2 ^ 53) <= 2 ^ j * m100 ->
  2 * Z.abs (Zpos mp * 2 ^ i - Zpos mq * m100) <= 2 ^ i ->
  0 < 53 + t - i - j ∧
  2 * Z.abs (Zpos mp - n * 2 ^ (53 + t - i - j)) < 2 ^ (53 + t - i - j).
Proof.
  intros Hn Ht Hi Hj Hnt Hmq Hmp Hdiv Hmul. unfold m100 in *.
  assert (Ht' : t = 1 ∨ t = 2 ∨ t = 3 ∨ t = 4) by lia.
  assert (Hi' : i = 52 ∨ i = 53 ∨ i = 54) by lia.
  assert (Hj' : j = 0 ∨ j = 1 ∨ j = 2) by lia.
  destruct Ht' as [-> | [-> | [-> | ->]]];
    destruct Hi' as [-> | [-> | ->]]; destruct Hj' as [-> | [-> | ->]];
    match goal with
    | |- context [2 ^ ?e] =>
        let v := eval vm_compute in e in change e with v
    end;
    pow2_consts; lia.
Qed.

(** Dividing an integer below [100 * 2^45 + 5] by 100 and multiplying the
    quotient by 100 gives a float64 whose nearest integer is the integer
    again. *)
Lemma encode_decode_price (n : Z) :
  0 <= n < 3518437208883205 ->
  encode_price (div_100 (float_of_Z n)) = Some n.
Proof.
  intros Hn. destruct (Z.eq_dec n 0) as [->|Hn0]; [reflexivity|].
  destruct (Z.lt_ge_cases n 3518437208883200) as [Hlt|Hge].
  2: { assert (Hcases : n = 3518437208883200 ∨ n = 3518437208883201
                        ∨ n = 3518437208883202 ∨ n = 3518437208883203
                        ∨ n = 3518437208883204) by lia.
       destruct Hcases as [-> | [-> | [-> | [-> | ->]]]];
         vm_compute; reflexivity. }
  assert (Hn53 : 0 < n < 2 ^ 53).
  { change (2 ^ 53) with 9007199254740992. lia. }
  destruct (div_100_spec n Hn53) as (mq & t & j & Hq & Ht & Hj & Hnt & Hmq & Hdiv).
  destruct (mul_100_spec _ mq _ Hq Hmq ltac:(lia))
    as (mp & i & Hp & Hi & Hmp & Hmul).
  assert (Ht1 : 1 <= t).
  { destruct (Z.eq_dec t 0) as [->|]; [|lia].
    change (2 ^ 0) with 1 in Hnt. change (2 ^ 52) with 4503599627370496 in Hnt.
    lia. }
  assert (HT : 0 < 53 + t - i - j ∧
               2 * Z.abs (Zpos mp - n * 2 ^ (53 + t - i - j))
               < 2 ^ (53 + t - i - j)).
  { destruct (Z.le_gt_cases 5 t).
    - apply (product_near_below_2_48 n t i j mq mp); try done; lia.
    - apply (product_near_from_2_48 n t i j mq mp); try done; lia. }
  destruct HT as [HT Hnear].
  unfold encode_price, py_round. rewrite Hp.
  set (T := 53 + t - i - j) in *.
  replace (- 7 - t + j - 46 + i) with (- T) by (unfold T; lia).
  replace (0 <=? - T) with false by (symmetry; apply Z.leb_gt; lia).
  rewrite Z.opp_involutive. cbv iota. f_equal.
  apply round_half_even_near; [apply Z.pow_pos_nonneg; lia|done].
Qed.

(** C5 (as amended). For a price or volume field whose text reads as the
    scaled integer [n], with [0 <= n < 3518437208883205], that is
    [100 * 2^45 + 5] (every 13-digit price field is below 10^13), the
    decoder yields the float64 quotient of [n] by 100, and re-encoding
    it, that is multiplying by 100 and rounding to the nearest integer,
    gives back [n]. *)
Theorem decode_price_round_trip (to_numeric : string -> option num)
    (t : string) (n : Z) :
  is_na_text t = false ->
  to_numeric t = Some (Num_int n) ->
  0 <= n < 3518437208883205 ->
  exists x,
    decode_price to_numeric t = Float x ∧ encode_price x = Some n.
Proof.
  intros Hna Hnum Hn. unfold decode_price, parse_number.
  rewrite Hna, Hnum. eexists. split; [reflexivity|].
  by apply encode_decode_price.
Qed.

Lemma decode_price_round_trip_witness :
  exists x,
    decode_price to_numeric_plain "0000000002900" = Float x
    ∧ encode_price x = Some 2900.
Proof.
  apply (decode_price_round_trip to_numeric_plain "0000000002900" 2900).
  - reflexivity.
  - reflexivity.
  - vm_compute. split; [discriminate|reflexivity].
Defined.

(** C5, as stated, fails: the field [0000000000029] decodes to the
    float64 nearest to 0.29, and the product of that by 100 is the
    float64 just below 29 (28.999999999999996), which is not the scaled
    integer 29 and not an integer at all.  With the product rounded to
    the nearest integer, the bound [100 * 2^45 + 5] cannot be raised: the
    18-digit volume field [003518437208883205] decodes to a float64 whose
    product by 100 rounds to 3518437208883204. *)
Lemma decode_price_not_recovered :
  decode_price to_numeric_plain "0000000000029" = Float (div_100 (float_of_Z 29))
  ∧ mul_100 (div_100 (float_of_Z 29)) = 0x1.cffffffffffffp+4%float
  ∧ PrimFloat.eqb (mul_100 (div_100 (float_of_Z 29))) (float_of_Z 29) = false
  ∧ PrimFloat.ltb (mul_100 (div_100 (float_of_Z 29))) (float_of_Z 29) = true
  ∧ float_to_Z (mul_100 (div_100 (float_of_Z 29))) = None
  ∧ decode_price to_numeric_plain "003518437208883205"
    = Float (div_100 (float_of_Z 3518437208883205))
  ∧ encode_price (div_100 (float_of_Z 3518437208883205))
    = Some 3518437208883204.
Proof. repeat split; vm_compute; reflexivity. Qed.

End PriceScaling.

Module Analyzer.

Import DictionaryBuilder RawDataProcessor.

(** *** Keyword arguments *)

(** The scalars a caller passes, and a keyword argument: a scalar or a
    list of scalars. *)
Inductive atom :=
| ANone
| ABool (b : bool)
| AInt (z : Z)
| AStr (s : string).

Inductive value :=
| VAtom (a : atom)
| VList (l : list atom).

#[global] Instance atom_eq_dec : EqDecision atom.
Proof. solve_decision. Defined.

#[global] Instance value_eq_dec : EqDecision value.
Proof. solve_decision. Defined.

Abbreviation VNone := (VAtom ANone).
Abbreviation VStr s := (VAtom (AStr s)).

(** [bool(v)]. *)
Definition atom_truthy (a : atom) : bool :=
  match a with
  | ANone => false
  | ABool b => b
  | AInt z => negb (z =? 0)%Z
  | AStr s => negb (s =? "")%string
  end.

Definition truthy (v : value) : bool :=
  match v with
  | VAtom a => atom_truthy a
  | VList l => match l with [] => false | _ => true end
  end.

(** [params.get(k)]: None when the key is absent. *)
Definition get (params : gmap string value) (k : string) : value :=
  default VNone (params !! k).

(** [str(a)]. *)
Definition py_str (a : atom) : string :=
  match a with
  | ANone => "None"
  | ABool true => "True"
  | ABool false => "False"
  | AInt z => DecimalString.NilZero.string_of_int (Z.to_int z)
  | AStr s => s
  end.

(** [v if isinstance(v, list) else [v]]. *)
Definition as_list (v : value) : list atom :=
  match v with
  | VAtom a => [a]
  | VList l => l
  end.

(** *** Frames of quotes and the store *)

(** A row of quotes: its cells by column name. *)
Abbreviation Row := (gmap string cell).

Record QuoteFrame := { qf_columns : list string; qf_rows : list Row }.

(** [pd.DataFrame()]. *)
Definition pd_DataFrame : QuoteFrame := {| qf_columns := []; qf_rows := [] |}.

(** [df.empty]. *)
Definition qf_empty (df : QuoteFrame) : bool :=
  match qf_columns df, qf_rows df with
  | _ :: _, _ :: _ => false
  | _, _ => true
  end.

(** The value of a pushdown predicate: the caller's value, or what
    [pd.to_datetime] made of it. *)
Inductive filter_value :=
| FV (v : value)
| FV_time (t : Z)
| FV_times (ts : list Z).

Inductive filter_op := op_eq | op_in | op_ge | op_le.

Record Filter := { f_col : string; f_op : filter_op; f_val : filter_value }.

(** The Parquet file behind [full_data_path]: its rows, or the exception
    that reading it raises. *)
Abbreviation Store := (exn + list Row)%type.

Definition atom_matches (c : cell) (a : atom) : bool :=
  match c, a with
  | Int z, AInt z' => (z =? z')%Z
  | Str s, AStr s' => (s =? s')%string
  | _, _ => false
  end.

(** One predicate on one row of the store; a missing cell satisfies none,
    and a predicate the column cannot be compared with is an error. *)
Definition eval_filter (row : Row) (f : Filter) : exn + bool :=
  match row !! f_col f with
  | None => raise ArrowInvalid
  | Some c =>
      match f_op f, f_val f with
      | op_in, FV (VList l) => inr (existsb (atom_matches c) l)
      | op_eq, FV (VAtom a) => inr (atom_matches c a)
      | op_ge, FV_time t =>
          match c with
          | Timestamp d => inr (t <=? d)%Z
          | NA => inr false
          | _ => raise ArrowInvalid
          end
      | op_le, FV_time t =>
          match c with
          | Timestamp d => inr (d <=? t)%Z
          | NA => inr false
          | _ => raise ArrowInvalid
          end
      | _, _ => raise ArrowInvalid
      end
  end.

(** The conjunction of the predicates of a filter list. *)
Definition eval_filters (filters : list Filter) (row : Row) : exn + bool :=
  do bs <- traverse (eval_filter row) filters; inr (forallb (fun b => b) bs).

Fixpoint filter_rows (filters : list Filter) (rows : list Row)
    : exn + list Row :=
  match rows with
  | [] => inr []
  | row :: rows' =>
      do keep <- eval_filters filters row;
      do rest <- filter_rows filters rows';
      inr (if keep then row :: rest else rest)
  end.

(** The cells of a row in the projected columns. *)
Definition project (names : list string) (row : Row) : Row :=
  filter (fun kv : string * cell => kv.1 ∈ names) row.

Definition column_name (a : atom) : exn + string :=
  match a with
  | AStr n => if bool_decide (n ∈ NAMES) then inr n else raise ArrowInvalid
  | _ => raise TypeError
  end.

(** [df[col]]. *)
Definition column_cells (df : QuoteFrame) (name : string) : exn + list cell :=
  if bool_decide (name ∈ qf_columns df)
  then inr ((fun row => default NA (row !! name)) <$> qf_rows df)
  else raise KeyError.

(** One cell under a [.str] method with [na=False]. *)
Definition str_test (test : string -> bool) (c : cell) : exn + bool :=
  match c with
  | Str s => inr (test s)
  | NA => inr false
  | _ => raise AttributeError
  end.

(** [df[df[col].str.method(..., na=False)]]. *)
Definition select_str (df : QuoteFrame) (name : string) (test : string -> bool)
    : exn + QuoteFrame :=
  do cells <- column_cells df name;
  do mask <- traverse (str_test test) cells;
  inr {| qf_columns := qf_columns df;
         qf_rows := (filter (fun rm : Row * bool => rm.2 = true)
                       (zip (qf_rows df) mask)).*1 |}.

(** [df.sort_values(by=['CODNEG', 'DATA_PREGAO'])]: by ticker, then by
    trade date, ascending, missing values last. *)
Definition cell_before (a b : cell) : comparison :=
  match a, b with
  | Str x, Str y => String.compare x y
  | Timestamp x, Timestamp y => (x ?= y)%Z
  | Int x, Int y => (x ?= y)%Z
  | NA, NA => Eq
  | _, NA => Lt
  | NA, _ => Gt
  | _, _ => Eq
  end.

Definition quote_order (r1 r2 : Row) : Prop :=
  match cell_before (default NA (r1 !! "CODNEG")) (default NA (r2 !! "CODNEG")) with
  | Lt => True
  | Gt => False
  | Eq =>
      cell_before (default NA (r1 !! "DATA_PREGAO"))
        (default NA (r2 !! "DATA_PREGAO")) <> Gt
  end.

#[global] Instance quote_order_dec (r1 r2 : Row) : Decision (quote_order r1 r2).
Proof.
  unfold quote_order. destruct (cell_before _ _); [|apply _..].
  destruct (cell_before _ _); [left|left|right]; congruence.
Defined.

Definition sort_values_quotes (df : QuoteFrame) : QuoteFrame :=
  {| qf_columns := qf_columns df;
     qf_rows := merge_sort quote_order (qf_rows df) |}.

(** A cell of a column of texts, and one of a column of timestamps. *)
Definition text_cell (c : cell) : Prop :=
  match c with NA | Str _ => True | _ => False end.

Definition time_cell (c : cell) : Prop :=
  match c with NA | Timestamp _ => True | _ => False end.

(** A row whose ticker is a text and whose trade date is a timestamp,
    where they are not missing. *)
Definition typed_quote (row : Row) : Prop :=
  text_cell (default NA (row !! "CODNEG")) ∧
  time_cell (default NA (row !! "DATA_PREGAO")).

(** *** The fixed patterns of the module *)

Definition is_upper (c : ascii) : bool := ascii_in (seq 65 26) c.
Definition is_digit (c : ascii) : bool := ascii_in (seq 48 10) c.

(** [re.match("^[A-Z]{4}", t)]: the matched text, if any. *)
Definition match_root (t : string) : option string :=
  match list_ascii_of_string t with
  | a :: b :: c :: d :: _ =>
      if is_upper a && is_upper b && is_upper c && is_upper d
      then Some (string_of_list_ascii [a; b; c; d]) else None
  | _ => None
  end.

(** [re.match("^[A-Z]{4}", main_ticker).group(0)]: a missing ticker is no
    string (TypeError), and without a match [.group] is looked up on
    None (AttributeError). *)
Definition ticker_root_of (main_ticker : option string) : exn + string :=
  match main_ticker with
  | None => raise TypeError
  | Some t =>
      match match_root t with
      | Some root => inr root
      | None => raise AttributeError
      end
  end.

Definition newline : ascii := ascii_of_nat 10.

(** [re.match("^[A-Z]{4}[0-9]{1,2}$", t)] ([$] also matches before a final
    newline). *)
Definition valid_ticker (t : string) : bool :=
  match list_ascii_of_string t with
  | a :: b :: c :: d :: rest =>
      is_upper a && is_upper b && is_upper c && is_upper d &&
      match rest with
      | [x] => is_digit x
      | [x; y] => is_digit x && (is_digit y || bool_decide (y = newline))
      | [x; y; z] => is_digit x && is_digit y && bool_decide (z = newline)
      | _ => false
      end
  | _ => false
  end.

(** [regex.split(s)] for the pattern [' | '], whose two alternatives are
    both a single space. *)
Fixpoint split_spaces (acc : list ascii) (l : list ascii) : list string :=
  match l with
  | [] => [string_of_list_ascii (reverse acc)]
  | c :: l' =>
      if bool_decide (c = " "%char)
      then string_of_list_ascii (reverse acc) :: split_spaces [] l'
      else split_spaces (c :: acc) l'
  end.

Definition str_split (s : string) : list string :=
  split_spaces [] (list_ascii_of_string s).

(** [x in s] for strings. *)
Definition contains (x s : string) : bool :=
  match String.index 0 x s with
  | Some _ => true
  | None => false
  end.

(** [t.endswith(('3', '4', '5', '6', '11'))]. *)
Definition equity_suffix (t : string) : bool :=
  existsb (fun suffix => endswith suffix t) ["3"; "4"; "5"; "6"; "11"].

Definition valid_starters : list string :=
  ["tickers"; "entity"; "codisi"; "codbdi"; "tpmerc"; "asset_class";
   "ticker_root"].

Definition key_columns : list string := ["DATA_PREGAO"; "CODNEG"; "CODISI"].

Definition default_columns : list string :=
  ["PREABE"; "PREMAX"; "PREMIN"; "PREULT"; "VOLTOT"; "QUATOT"].

(** *** The engine and its heap *)

Abbreviation loc := positive.

(** The objects the engine holds or returns: a table of the security
    master, a frame of quotes, a code dictionary. *)
Inductive obj :=
| OMaster (entries : list MasterEntry)
| OQuotes (df : QuoteFrame)
| ODict (d : gmap string Z).

(** One call of [pd.read_parquet] on the store. *)
Record Scan := { scan_columns : list atom; scan_filters : option (list Filter) }.

(** The objects in memory and the scans of the store made so far. *)
Record World := { heap : gmap loc obj; scans : list Scan }.

(** An instance of [B3Data]: references to its three objects, and the
    store its path leads to. *)
Record B3Data := {
  df_dicionario : loc;
  codbdi_map : loc;
  tpmerc_map : loc;
  full_data : Store
}.

(** A method: it returns or raises, and leaves a world. *)
Definition M (A : Type) : Type := World -> (exn + A) * World.

Definition ret {A : Type} (a : A) : M A := fun w => (inr a, w).

Definition lift {A : Type} (r : exn + A) : M A := fun w => (r, w).

Definition bindM {A B : Type} (m : M A) (k : A -> M B) : M B :=
  fun w =>
    match m w with
    | (inl e, w') => (inl e, w')
    | (inr a, w') => k a w'
    end.

Notation "'run' x <- m ; k" := (bindM m (fun x => k))
  (at level 10, x name, m at level 100, k at level 200).

(** A new object, at an address not in use. *)
Definition alloc (o : obj) : M loc :=
  fun w =>
    let l := fresh (dom (heap w)) in
    (inr l, {| heap := <[l := o]> (heap w); scans := scans w |}).

Definition load_master (l : loc) : M (list MasterEntry) :=
  fun w =>
    match heap w !! l with
    | Some (OMaster entries) => (inr entries, w)
    | _ => (inl AttributeError, w)
    end.

Definition load_dict (l : loc) : M (gmap string Z) :=
  fun w =>
    match heap w !! l with
    | Some (ODict d) => (inr d, w)
    | _ => (inl AttributeError, w)
    end.

Definition log_scan (rq : Scan) : M unit :=
  fun w => (inr tt, {| heap := heap w; scans := scans w ++ [rq] |}).

(** [frame.set_index(description)[code].to_dict()]: of two rows with one
    description the later one stays. *)
Definition to_dict (frame : list (Z * string)) : gmap string Z :=
  foldl (fun d row => <[row.2 := row.1]> d) ∅ frame.

(** Reading a file that may be missing (FileNotFoundError is an OSError). *)
Definition read_file {A : Type} (file : option A) : M A :=
  match file with
  | Some content => ret content
  | None => lift (raise OSError)
  end.

(** [B3Data.__init__] for a data directory whose main file is [store]
    (None when it does not exist) and whose sibling directory is [out]. *)
Definition __init__ (store : option Store) (out : Outputs) : M B3Data :=
  run full_data <- read_file store;
  run ativos <- read_file (dicionario_ativos out);
  run df_dicionario <- alloc (OMaster ativos);
  run codbdi <- read_file (dicionario_codbdi out);
  run codbdi_map <- alloc (ODict (to_dict codbdi));
  run tpmerc <- read_file (dicionario_tpmerc out);
  run tpmerc_map <- alloc (ODict (to_dict tpmerc));
  ret {| df_dicionario := df_dicionario; codbdi_map := codbdi_map;
         tpmerc_map := tpmerc_map; full_data := full_data |}.

(** *** Plain instances of the library functions, used in the examples *)

(** [s.upper()] on the letters of latin-1 whose capital is a latin-1
    letter: a-z and the accented letters from 224 to 254, the division
    sign apart. *)
Definition upper_latin1 (c : ascii) : ascii :=
  let n := nat_of_ascii c in
  if bool_decide (97 <= n <= 122 ∨ (224 <= n <= 254 ∧ n <> 247))%nat
  then ascii_of_nat (n - 32) else c.

Definition upper_plain (s : string) : string := map_string upper_latin1 s.

(** [int(s)] on an optionally signed run of digits between blanks; other
    texts are refused. *)
Definition int_plain (s : string) : exn + Z :=
  match list_ascii_of_string (strip py_whitespace s) with
  | [] => raise ValueError
  | c :: l =>
      let '(neg, ds) :=
        if bool_decide (c = "-"%char) then (true, l)
        else if bool_decide (c = "+"%char) then (false, l)
        else (false, c :: l) in
      match ds, digits_value 0 ds with
      | _ :: _, Some z => inr (if neg then - z else z)%Z
      | _, _ => raise ValueError
      end
  end.

(** A scan refused for a predicate [in] with an empty set of values, whose
    type arrow cannot tell, and for nothing else. *)
Definition scan_error_plain (store : Store) (filters : option (list Filter))
    : option exn :=
  if existsb
       (fun f => match f_op f, f_val f with
                 | op_in, FV (VList []) => true
                 | _, _ => false
                 end)
       (default [] filters)
  then Some ArrowInvalid else None.

(** [\w] among the ASCII characters. *)
Definition is_word (c : ascii) : bool :=
  is_upper c || is_digit c || ascii_in (seq 97 26) c || ascii_in [95]%nat c.

Definition all_word (s : string) : bool :=
  forallb is_word (list_ascii_of_string s).

(** A search for the non-empty word [w] between two word boundaries. *)
Fixpoint word_search (after_word : bool) (w s : string) : bool :=
  match s with
  | EmptyString => false
  | String c s' =>
      (negb after_word && String.prefix w s
       && match String.get (String.length w) s with
          | Some c' => negb (is_word c')
          | None => true
          end)
      || word_search (is_word c) w s'
  end.

(** [re.compile] on the patterns the examples need: [\bword\b] for a word
    of letters, digits and underscores, and a text of such characters and
    spaces, which is searched as it stands; other patterns are refused. *)
Definition re_compile_plain (pattern : string) (ignore_case : bool)
    : exn + (string -> bool) :=
  let fold (s : string) := if ignore_case then upper_a_z s else s in
  let n := String.length pattern in
  let inner := substring 2 (n - 4) pattern in
  if bool_decide (4 < n)%nat && String.prefix "\b" pattern
     && endswith "\b" pattern && all_word inner
  then inr (fun s => word_search false (fold inner) (fold s))
  else if forallb (fun c => is_word c || bool_decide (c = " "%char))
            (list_ascii_of_string pattern)
  then inr (fun s => contains (fold pattern) (fold s))
  else raise re_error.

(** [pd.to_datetime] on a text [yyyy-mm-dd]; timestamps are represented as
    in [to_datetime_plain]. *)
Definition pd_to_datetime_plain (v : value) : exn + filter_value :=
  match v with
  | VStr s =>
      match to_datetime_plain (substring 0 4 s +:+ substring 5 2 s +:+ substring 8 2 s) with
      | Some t =>
          if bool_decide (String.length s = 10%nat) then inr (FV_time t)
          else raise ValueError
      | None => raise ValueError
      end
  | _ => raise TypeError
  end.

(** *** A sample engine *)

Definition vale_entry : MasterEntry :=
  {| m_CODISI := Some "BRVALEACNOR0"; ULTIMO_TICKER := Some "VALE3";
     ULTIMO_NOME := Some "VALE"; ULTIMA_ESPECIFICACAO := Some "ON";
     TICKERS_HISTORICOS := Some "VALE3 | VALE5";
     NOMES_HISTORICOS := Some "VALE | VALE R DOCE" |}.

Definition petr_entry : MasterEntry :=
  {| m_CODISI := Some "BRPETRACNPR6"; ULTIMO_TICKER := Some "PETR4";
     ULTIMO_NOME := Some "PETROBRAS"; ULTIMA_ESPECIFICACAO := Some "PN";
     TICKERS_HISTORICOS := Some "PETR3 | PETR4";
     NOMES_HISTORICOS := Some "PETROBRAS" |}.

(** A row of the store with the columns the examples look at; the other
    columns are missing values. *)
Definition quote_row (date : Z) (codneg : string) (tpmerc : Z) (especi isin : string)
    : Row :=
  list_to_map
    ([ ("DATA_PREGAO", Timestamp date); ("CODNEG", Str codneg);
       ("TPMERC", Int tpmerc); ("ESPECI", Str especi); ("CODISI", Str isin) ]
     ++ ((fun n => (n, NA))
          <$> filter (fun n => n ∉ ["DATA_PREGAO"; "CODNEG"; "TPMERC"; "ESPECI"; "CODISI"])
                NAMES)).

Definition sample_rows : list Row :=
  [ quote_row 20230104 "VALEA123" 70 "ON" "BRVALEACNOR0";
    quote_row 20230103 "VALEA123" 70 "ON" "BRVALEACNOR0";
    quote_row 20230103 "VALE3" 10 "ON" "BRVALEACNOR0";
    quote_row 20230103 "PETRA123" 70 "PN" "BRPETRACNPR6";
    quote_row 20230103 "PETR4" 10 "PN" "BRPETRACNPR6" ].

Definition sample_engine : B3Data :=
  {| df_dicionario := 1%positive; codbdi_map := 2%positive;
     tpmerc_map := 3%positive; full_data := inr sample_rows |}.

Definition sample_world : World :=
  {| heap :=
       list_to_map
         [ (1%positive, OMaster [petr_entry; vale_entry]);
           (2%positive, ODict (list_to_map [("LOTE PADRAO", 2%Z); ("FUNDOS IMOBILIARIOS", 12%Z)]));
           (3%positive, ODict (list_to_map [("VISTA", 10%Z); ("OPCOES DE COMPRA", 70%Z)])) ];
     scans := [] |}.

(** The same engine over a store that cannot be read. *)
Definition broken_engine : B3Data :=
  {| df_dicionario := 1%positive; codbdi_map := 2%positive;
     tpmerc_map := 3%positive; full_data := inl OSError |}.

Definition options_of_vale : gmap string value :=
  list_to_map [ ("asset_class", VStr "options"); ("entity", VStr "vale") ].

Definition options_of_vale_with_root : gmap string value :=
  list_to_map [ ("asset_class", VStr "options"); ("entity", VStr "vale");
                ("ticker_root", VStr "PETR") ].

(** A call with tickers, a ticker root and a start date. *)
Definition vale_by_ticker : gmap string value :=
  list_to_map [ ("tickers", VList [AStr "vale3"; AStr "valea123"]);
                ("ticker_root", VStr "vale");
                ("start_date", VStr "2023-01-04") ].

(** A call with tickers and an entity beside them. *)
Definition vale3_of_petrobras : gmap string value :=
  list_to_map [ ("tickers", VStr "vale3"); ("entity", VStr "petrobras") ].

(** The search [re_compile_plain] gives for the pattern [\bVALE\b]. *)
Definition word_VALE (s : string) : bool := word_search false "VALE" s.

Section Engine.

(** Python's [re] and [pd.to_datetime] are outside the repository:
    [re_compile pattern ignore_case] is the search function of a compiled
    pattern, or the exception of the compilation, and [pd_to_datetime v]
    the timestamp(s) read in [v], or the exception of the parse. *)
Variable re_compile : string -> bool -> exn + (string -> bool).
Variable pd_to_datetime : value -> exn + filter_value.

(** So are the built-in [str.upper] and [int] on a text: [upper s] is
    [s.upper()], by Unicode's table of cases, and [int_of_str s] the
    integer [int(s)] reads, or its exception. *)
Variable upper : string -> string.
Variable int_of_str : string -> exn + Z.

(** What is used of [str.upper], where something is: on a text of ASCII
    characters it changes the letters a-z, and nothing else. *)
Definition upper_on_ascii : Prop :=
  forall s, is_ascii_text s = true -> upper s = upper_a_z s.

(** And so is the check arrow makes of the predicates against the schema
    of the file before it reads a row: [scan_error store filters] is the
    exception it raises, if any (an empty set of values, a value of
    another type than the column). *)
Variable scan_error : Store -> option (list Filter) -> option exn.

(** [int(a)] on a scalar. *)
Definition py_int (a : atom) : exn + Z :=
  match a with
  | ANone => raise TypeError
  | ABool b => inr (if b then 1 else 0)%Z
  | AInt z => inr z
  | AStr s => int_of_str s
  end.

(** [pd.read_parquet(path, columns=columns, filters=filters)]. *)
Definition read_parquet (store : Store) (columns : list atom)
    (filters : option (list Filter)) : exn + QuoteFrame :=
  do rows <- store;
  do names <- traverse column_name columns;
  do _ <- match scan_error store filters with
          | Some e => raise e
          | None => inr tt
          end;
  do kept <- filter_rows (default [] filters) rows;
  inr {| qf_columns := names; qf_rows := project names <$> kept |}.

(** [series.str.contains(...)] on an optional text with [na=False]. *)
Definition na_false (test : string -> bool) (c : option string) : bool :=
  match c with
  | Some s => test s
  | None => false
  end.

(** [query.upper()]. *)
Definition py_upper (v : value) : exn + string :=
  match v with
  | VStr s => inr (upper s)
  | _ => raise AttributeError
  end.

(** The rows [find_assets] selects in the table [dic]. *)
Definition find_assets_rows (dic : list MasterEntry) (query_upper : string)
    (word : string -> bool) : list MasterEntry :=
  filter
    (fun e =>
       na_false word (TICKERS_HISTORICOS e) = true
       ∨ na_false (contains query_upper) (NOMES_HISTORICOS e) = true
       ∨ m_CODISI e = Some query_upper)
    dic.

(** [find_assets]: the mask selects the rows into a new table, and
    [.copy()] copies that into the table returned. *)
Definition find_assets (self : B3Data) (query : value) : M loc :=
  run query_upper <- lift (py_upper query);
  run dic <- load_master (df_dicionario self);
  run word <- lift (re_compile ("\b" +:+ query_upper +:+ "\b") false);
  run selected <- alloc (OMaster (find_assets_rows dic query_upper word));
  run rows <- load_master selected;
  alloc (OMaster rows).

(** The filters an asset class stands for. *)
Definition asset_class_filters (asset_class : value) : exn + list Filter :=
  if truthy asset_class then
    match asset_class with
    | VStr ac =>
        let ac_lower := lower ac in
        if bool_decide (ac_lower = "equity") then
          inr [ {| f_col := "CODBDI"; f_op := op_in;
                   f_val := FV (VList [AInt 2; AInt 96]) |};
                {| f_col := "TPMERC"; f_op := op_in;
                   f_val := FV (VList [AInt 10; AInt 20]) |} ]
        else if bool_decide (ac_lower = "fii") then
          inr [ {| f_col := "CODBDI"; f_op := op_eq; f_val := FV (VAtom (AInt 12)) |} ]
        else if bool_decide (ac_lower = "options") then
          inr [ {| f_col := "TPMERC"; f_op := op_in;
                   f_val := FV (VList [AInt 70; AInt 80; AInt 12; AInt 13]) |} ]
        else inr []
    | _ => raise AttributeError
    end
  else inr [].

Definition filter_map : list (string * (string * filter_op)) :=
  [ ("start_date", ("DATA_PREGAO", op_ge)); ("end_date", ("DATA_PREGAO", op_le));
    ("vencimento_min", ("DATVEN", op_ge)); ("vencimento_max", ("DATVEN", op_le));
    ("tickers", ("CODNEG", op_in)); ("codisi", ("CODISI", op_in)) ].

(** One round of the loop over [filter_map]. *)
Definition direct_filter (params : gmap string value)
    (entry : string * (string * filter_op)) : exn + list Filter :=
  let '(arg, (col, op)) := entry in
  let value := get params arg in
  if bool_decide (value = VNone) then inr []
  else
    let value :=
      match op, value with
      | op_in, VAtom a => VList [a]
      | _, _ => value
      end in
    let value :=
      if bool_decide (arg = "tickers")
      then VList ((fun v => AStr (upper (py_str v))) <$> as_list value)
      else value in
    do fv <- (if contains "date" arg || contains "vencimento" arg
              then pd_to_datetime value else inr (FV value));
    inr [ {| f_col := col; f_op := op; f_val := fv |} ].

(** [code_map.get(str(item).upper(), item)] followed by [int]. *)
Definition code_of (code_map : gmap string Z) (item : atom) : exn + Z :=
  match code_map !! upper (py_str item) with
  | Some code => inr code
  | None => py_int item
  end.

(** One round of the loop over the two code arguments. *)
Definition code_filter (params : gmap string value) (code_arg : string)
    (code_map : gmap string Z) : exn + list Filter :=
  let value := get params code_arg in
  if bool_decide (value = VNone) then inr []
  else
    do codes_to_filter <- traverse (code_of code_map) (as_list value);
    inr [ {| f_col := upper code_arg; f_op := op_in;
             f_val := FV (VList (AInt <$> codes_to_filter)) |} ].

Fixpoint concat_results {A : Type} (l : list (exn + list A)) : exn + list A :=
  match l with
  | [] => inr []
  | r :: l' => do x <- r; do xs <- concat_results l'; inr (x ++ xs)
  end.

Definition _build_parquet_filters (self : B3Data) (kwargs : gmap string value)
    : M (list Filter) :=
  run by_class <- lift (asset_class_filters (get kwargs "asset_class"));
  run direct <- lift (concat_results (direct_filter kwargs <$> filter_map));
  run codbdi <- load_dict (codbdi_map self);
  run tpmerc <- load_dict (tpmerc_map self);
  run by_codbdi <- lift (code_filter kwargs "codbdi" codbdi);
  run by_tpmerc <- lift (code_filter kwargs "tpmerc" tpmerc);
  ret (by_class ++ direct ++ by_codbdi ++ by_tpmerc).

(** What the exploratory layer of [get_quotes] decides: to return an empty
    frame at once, or to go on with these parameters and, for options,
    this ticker root. *)
Inductive Resolved :=
| ReturnEmpty
| Proceed (params : gmap string value) (ticker_root_for_options : option string).

(** The tickers worth querying among the trails of the matched entries. *)
Definition valid_tickers (asset_info : list MasterEntry) : exn + list string :=
  do trails <- traverse
      (fun e => match TICKERS_HISTORICOS e with
                | Some s => inr (str_split s)
                | None => raise TypeError
                end)
      asset_info;
  inr (filter (fun t => (negb (t =? "")%string && valid_ticker t) = true)
         (unique (mjoin trails))).

Definition resolve_entity (self : B3Data) (kwargs : gmap string value)
    : M Resolved :=
  let params := kwargs in
  let entity_query := get params "entity" in
  if truthy entity_query
     && bool_decide (get params "asset_class" = VStr "options") then
    run found <- find_assets self entity_query;
    run asset_info <- load_master found;
    match asset_info with
    | first :: _ =>
        run root <- lift (ticker_root_of (ULTIMO_TICKER first));
        ret (Proceed (delete "entity" params) (Some root))
    | [] => ret ReturnEmpty
    end
  else if truthy entity_query && bool_decide (params !! "tickers" = None) then
    run found <- find_assets self entity_query;
    run asset_info <- load_master found;
    match asset_info with
    | _ :: _ =>
        run valid <- lift (valid_tickers asset_info);
        let tickers :=
          if bool_decide (get params "asset_class" = VStr "equity")
          then filter (fun t => equity_suffix t = true) valid
          else valid in
        ret (Proceed (<["tickers" := VList (AStr <$> tickers)]> params) None)
    | [] => ret ReturnEmpty
    end
  else ret (Proceed params None).

(** [any(k in params for k in valid_starters)]. *)
Definition has_starter (params : gmap string value) : bool :=
  existsb (fun k => bool_decide (is_Some (params !! k))) valid_starters.

(** [set(user_columns)]: the elements of a list, the characters of a
    string; another scalar cannot be iterated. *)
Definition py_set (v : value) : exn + list atom :=
  match v with
  | VList l => inr (unique l)
  | VStr s =>
      inr (unique ((fun c => AStr (String c EmptyString))
                     <$> list_ascii_of_string s))
  | _ => raise TypeError
  end.

(** The columns to load; the order of a Python set is not specified, the
    key columns stand first here. *)
Definition columns_to_load (params : gmap string value) : exn + list atom :=
  let user_columns := get params "columns" in
  do columns <- (if bool_decide (user_columns = VNone)
                 then inr (AStr <$> unique (key_columns ++ default_columns))
                 else do user <- py_set user_columns;
                      inr (unique ((AStr <$> key_columns) ++ user)));
  if truthy (get params "especificacao")
     || bool_decide (get params "asset_class" = VStr "bdr")
     || truthy (get params "ticker_root")
  then if bool_decide (AStr "ESPECI" ∈ columns) then inr columns
       else inr (columns ++ [AStr "ESPECI"])
  else inr columns.

(** [params.get('ticker_root') or ticker_root_for_options]. *)
Definition effective_ticker_root (params : gmap string value)
    (ticker_root_for_options : option string) : value :=
  let ticker_root := get params "ticker_root" in
  if truthy ticker_root then ticker_root
  else match ticker_root_for_options with
       | Some root => VStr root
       | None => VNone
       end.

Definition filter_ticker_root (params : gmap string value)
    (ticker_root_for_options : option string) (df : QuoteFrame)
    : exn + QuoteFrame :=
  let ticker_root := effective_ticker_root params ticker_root_for_options in
  if truthy ticker_root then
    do prefix <- py_upper ticker_root;
    select_str df "CODNEG" (startswith prefix)
  else inr df.

Definition filter_bdr (params : gmap string value) (df : QuoteFrame)
    : exn + QuoteFrame :=
  let asset_class_param := get params "asset_class" in
  if truthy asset_class_param then
    match asset_class_param with
    | VStr ac =>
        if bool_decide (lower ac = "bdr")
        then select_str df "ESPECI" (fun s => contains "DR" (upper_a_z s))
        else inr df
    | _ => raise AttributeError
    end
  else inr df.

(** ['|'.join(espec_value)]. *)
Definition join_pattern (parts : list atom) : exn + string :=
  do texts <- traverse
      (fun a => match a with AStr s => inr s | _ => raise TypeError end) parts;
  inr (join "|" texts).

Definition filter_especificacao (params : gmap string value) (df : QuoteFrame)
    : exn + QuoteFrame :=
  let espec_value := get params "especificacao" in
  if bool_decide (espec_value = VNone) then inr df
  else
    do pattern <- join_pattern (as_list espec_value);
    do search <- re_compile pattern true;
    select_str df "ESPECI" search.

(** The post-filtering layer. *)
Definition post_filter (params : gmap string value)
    (ticker_root_for_options : option string) (df : QuoteFrame)
    : exn + QuoteFrame :=
  if qf_empty df then inr df
  else
    do df <- filter_ticker_root params ticker_root_for_options df;
    do df <- filter_bdr params df;
    filter_especificacao params df.

(** The body of the [try] block: the scan, the post-filters, the sort. *)
Definition scan_filter_sort (store : Store) (params : gmap string value)
    (ticker_root_for_options : option string) (rq : Scan) : exn + QuoteFrame :=
  do df <- read_parquet store (scan_columns rq) (scan_filters rq);
  do df <- post_filter params ticker_root_for_options df;
  if qf_empty df then inr df else inr (sort_values_quotes df).

(** [try: ... except Exception: return pd.DataFrame()]. *)
Definition or_empty (r : exn + QuoteFrame) : QuoteFrame :=
  match r with
  | inr df => df
  | inl _ => pd_DataFrame
  end.

Definition get_quotes (self : B3Data) (kwargs : gmap string value) : M loc :=
  run resolved <- resolve_entity self kwargs;
  match resolved with
  | ReturnEmpty => alloc (OQuotes pd_DataFrame)
  | Proceed params ticker_root_for_options =>
      if negb (has_starter params) then lift (raise ValueError)
      else
        run filters <- _build_parquet_filters self params;
        run columns <- lift (columns_to_load params);
        let rq := {| scan_columns := columns;
                     scan_filters :=
                       match filters with [] => None | _ => Some filters end |} in
        run _ <- log_scan rq;
        alloc (OQuotes
                 (or_empty (scan_filter_sort (full_data self) params
                              ticker_root_for_options rq)))
  end.

(** ["ACÕES"] in latin-1. *)
Definition ACOES : string :=
  "AC" +:+ String (ascii_of_nat 213) "ES".

(** [sorted(tickers)]: texts are sorted; a missing ticker cannot be
    compared with a text, and stands alone otherwise. *)
Definition sorted_tickers (tickers : list (option string))
    : exn + list (option string) :=
  match tickers with
  | [None] => inr [None]
  | _ =>
      do texts <- traverse
          (fun t => match t with
                    | Some s => inr s
                    | None => raise TypeError
                    end)
          tickers;
      inr (Some <$> sorted texts)
  end.

Definition list_tickers (self : B3Data) (asset_type : value)
    : M (list (option string)) :=
  run dic <- load_master (df_dicionario self);
  let rows :=
    if bool_decide (asset_type = VStr "acoes")
    then filter (fun e => na_false (contains ACOES) (ULTIMA_ESPECIFICACAO e) = true) dic
    else dic in
  lift (sorted_tickers (unique (ULTIMO_TICKER <$> rows))).

Definition get_asset_info (self : B3Data) (ticker : value)
    : M (option MasterEntry) :=
  run found <- find_assets self ticker;
  run results <- load_master found;
  ret (head results).

(** *** Properties of methods *)

(** A method preserves the heap when every object that exists before the
    call exists unchanged after it. *)
Definition preserves_heap {A : Type} (m : M A) : Prop :=
  forall w, heap w ⊆ heap (m w).2.

(** Every object of [w] is an object of [w'], unchanged. *)
Definition same_objects (w w' : World) : Prop :=
  forall l o, heap w !! l = Some o -> heap w' !! l = Some o.

(** A method keeps the log when it scans nothing. *)
Definition keeps_scans {A : Type} (m : M A) : Prop :=
  forall w, scans (m w).2 = scans w.

(** The predicate an asset class of options pushes down. *)
Definition options_filter : Filter :=
  {| f_col := "TPMERC"; f_op := op_in;
     f_val := FV (VList [AInt 70; AInt 80; AInt 12; AInt 13]) |}.

(** *** Methods and the heap *)

Lemma preserves_ret {A : Type} (a : A) : preserves_heap (ret a).
Proof. by intros w. Qed.

Lemma preserves_lift {A : Type} (r : exn + A) : preserves_heap (lift r).
Proof. by intros w. Qed.

Lemma preserves_bindM {A B : Type} (m : M A) (k : A -> M B) :
  preserves_heap m -> (forall a, preserves_heap (k a)) ->
  preserves_heap (bindM m k).
Proof.
  intros Hm Hk w. unfold bindM. specialize (Hm w).
  destruct (m w) as [[e|a] w1]; simpl in *; [done|].
  etrans; [exact Hm|apply Hk].
Qed.

Lemma fresh_not_in_heap (w : World) : heap w !! fresh (dom (heap w)) = None.
Proof. apply not_elem_of_dom, is_fresh. Qed.

Lemma preserves_alloc (o : obj) : preserves_heap (alloc o).
Proof.
  intros w. simpl. apply insert_subseteq, fresh_not_in_heap.
Qed.

Lemma preserves_load_master (l : loc) : preserves_heap (load_master l).
Proof. intros w. unfold load_master. by destruct (heap w !! l) as [[]|]. Qed.

Lemma preserves_load_dict (l : loc) : preserves_heap (load_dict l).
Proof. intros w. unfold load_dict. by destruct (heap w !! l) as [[]|]. Qed.

Lemma preserves_log_scan (rq : Scan) : preserves_heap (log_scan rq).
Proof. by intros w. Qed.

Ltac preserves :=
  repeat first
    [ apply preserves_ret | apply preserves_lift | apply preserves_alloc
    | apply preserves_load_master | apply preserves_load_dict
    | apply preserves_log_scan
    | apply preserves_bindM; [|intros ?]
    | match goal with
      | |- preserves_heap (if ?b then _ else _) => destruct b
      | |- preserves_heap (match ?x with _ => _ end) => destruct x
      end ].

Lemma find_assets_preserves (self : B3Data) (query : value) :
  preserves_heap (find_assets self query).
Proof. unfold find_assets. preserves. Qed.

Lemma resolve_entity_preserves (self : B3Data) (kwargs : gmap string value) :
  preserves_heap (resolve_entity self kwargs).
Proof.
  unfold resolve_entity.
  repeat first
    [ apply find_assets_preserves
    | match goal with
      | |- preserves_heap (if ?b then _ else _) => destruct b
      end
    | progress preserves ].
Qed.

Lemma _build_parquet_filters_preserves (self : B3Data)
    (kwargs : gmap string value) :
  preserves_heap (_build_parquet_filters self kwargs).
Proof. unfold _build_parquet_filters. preserves. Qed.

Lemma get_quotes_preserves (self : B3Data) (kwargs : gmap string value) :
  preserves_heap (get_quotes self kwargs).
Proof.
  unfold get_quotes. apply preserves_bindM; [apply resolve_entity_preserves|].
  intros [|params root]; [apply preserves_alloc|].
  destruct (negb (has_starter params)); [apply preserves_lift|].
  apply preserves_bindM; [apply _build_parquet_filters_preserves|].
  intros filters. preserves.
Qed.

Lemma list_tickers_preserves (self : B3Data) (asset_type : value) :
  preserves_heap (list_tickers self asset_type).
Proof. unfold list_tickers. preserves. Qed.

Lemma get_asset_info_preserves (self : B3Data) (ticker : value) :
  preserves_heap (get_asset_info self ticker).
Proof.
  unfold get_asset_info.
  apply preserves_bindM; [apply find_assets_preserves|]. intros ?. preserves.
Qed.

(** What [alloc] returns was not in use. *)
Lemma alloc_fresh (o : obj) (w w' : World) (l : loc) :
  alloc o w = (inr l, w') ->
  heap w !! l = None ∧ heap w' !! l = Some o.
Proof.
  unfold alloc. intros [= <- <-]. simpl.
  split; [apply fresh_not_in_heap|apply lookup_insert_eq].
Qed.

(** The table [find_assets] returns is a new object that holds the
    selected rows. *)
Lemma find_assets_returns (self : B3Data) (query : value) (w w' : World)
    (l : loc) :
  find_assets self query w = (inr l, w') ->
  heap w !! l = None ∧
  exists q dic word,
    query = VStr q ∧
    heap w !! df_dicionario self = Some (OMaster dic) ∧
    re_compile ("\b" +:+ upper q +:+ "\b") false = inr word ∧
    heap w' !! l = Some (OMaster (find_assets_rows dic (upper q) word)) ∧
    scans w' = scans w.
Proof.
  unfold find_assets, bindM, lift.
  destruct query as [[| | |q]|]; simpl; try done.
  unfold load_master at 1.
  destruct (heap w !! df_dicionario self) as [[dic| |]|] eqn:Hdic; try done.
  destruct (re_compile _ false) as [e|word] eqn:Hword; [done|].
  unfold alloc, load_master. simpl. rewrite lookup_insert_eq.
  intros [= <- <-]. simpl.
  set (h1 := <[fresh (dom (heap w)) := _]> (heap w)).
  assert (Hnew : h1 !! fresh (dom h1) = None)
    by apply not_elem_of_dom, is_fresh.
  split.
  - unfold h1 in Hnew at 1. by apply lookup_insert_None in Hnew as [? _].
  - exists q, dic, word. repeat split; try done. apply lookup_insert_eq.
Qed.

Lemma preserves_heap_same_objects {A : Type} (m : M A) (w : World) :
  preserves_heap m -> same_objects w (m w).2.
Proof. intros Hm l o Hl. by eapply lookup_weaken. Qed.

(** C9. No query changes an object that exists when it is called, in
    particular not the table of the security master or the two code
    dictionaries the engine refers to: this holds for [find_assets],
    [get_quotes], [list_tickers] and [get_asset_info].  The table
    [find_assets] returns is a new object, so that overwriting it with
    anything leaves every object that existed before the call (the
    master among them) as it was. *)
Theorem queries_do_not_mutate_engine (self : B3Data) (w : World) :
  (forall query, same_objects w (find_assets self query w).2) ∧
  (forall kwargs, same_objects w (get_quotes self kwargs w).2) ∧
  (forall asset_type, same_objects w (list_tickers self asset_type w).2) ∧
  (forall ticker, same_objects w (get_asset_info self ticker w).2) ∧
  (forall query,
     match find_assets self query w with
     | (inr l, w') =>
         heap w !! l = None ∧
         forall o' l0 o,
           heap w !! l0 = Some o -> <[l := o']> (heap w') !! l0 = Some o
     | (inl _, _) => True
     end).
Proof.
  split; [intros; apply preserves_heap_same_objects, find_assets_preserves|].
  split; [intros; apply preserves_heap_same_objects, get_quotes_preserves|].
  split; [intros; apply preserves_heap_same_objects, list_tickers_preserves|].
  split; [intros; apply preserves_heap_same_objects, get_asset_info_preserves|].
  intros query.
  pose proof (preserves_heap_same_objects _ w (find_assets_preserves self query))
    as Hsame.
  destruct (find_assets self query w) as [[e|l] w'] eqn:Hfind; [done|].
  apply find_assets_returns in Hfind as [Hnew _]. split; [done|].
  intros o' l0 o Hl0. rewrite lookup_insert_ne; [by apply Hsame|].
  intros ->. congruence.
Qed.

(** *** Validation of the criteria *)

Lemma get_absent (params : gmap string value) (k : string) :
  params !! k = None -> get params k = VNone.
Proof. unfold get. by intros ->. Qed.

Lemma has_starter_false (params : gmap string value) :
  Forall (fun k => params !! k = None) valid_starters ->
  has_starter params = false.
Proof.
  unfold has_starter. intros Hno. apply not_true_is_false.
  intros (k & Hin & Hk)%existsb_exists.
  apply list_elem_of_In in Hin.
  rewrite (proj1 (Forall_forall _ _) Hno k Hin) in Hk.
  apply bool_decide_eq_true in Hk. by destruct Hk.
Qed.

Lemma has_starter_true (params : gmap string value) :
  Exists (fun k => is_Some (params !! k)) valid_starters ->
  has_starter params = true.
Proof.
  unfold has_starter. intros Hex. apply existsb_exists.
  apply Exists_exists in Hex as (k & Hk & Hsome).
  exists k. split; [by apply list_elem_of_In|by apply bool_decide_eq_true].
Qed.

(** C2. When no key of [valid_starters] is among the keyword arguments,
    [get_quotes] raises ValueError and leaves the world as it found it:
    no scan of the store is logged (and no object is created). *)
Theorem get_quotes_without_starter (self : B3Data) (kwargs : gmap string value)
    (w : World) :
  Forall (fun k => kwargs !! k = None) valid_starters ->
  get_quotes self kwargs w = (inl ValueError, w).
Proof.
  intros Hno.
  assert (Hentity : get kwargs "entity" = VNone).
  { apply get_absent.
    apply (proj1 (Forall_forall _ _) Hno). unfold valid_starters. set_solver. }
  unfold get_quotes, resolve_entity, bindM. rewrite Hentity. simpl.
  by rewrite (has_starter_false kwargs Hno).
Qed.

Lemma get_all_none (params : gmap string value) (k : string) :
  map_Forall (fun _ v => v = VNone) params -> get params k = VNone.
Proof.
  intros Hall. unfold get. destruct (params !! k) as [v|] eqn:Hk; [|done].
  simpl. by apply (Hall k).
Qed.

Lemma direct_filter_none (params : gmap string value)
    (entry : string * (string * filter_op)) :
  get params entry.1 = VNone -> direct_filter params entry = inr [].
Proof.
  destruct entry as [arg [col op]]. simpl. intros Hnone.
  unfold direct_filter. by rewrite Hnone.
Qed.

Lemma direct_filters_none (params : gmap string value)
    (entries : list (string * (string * filter_op))) :
  map_Forall (fun _ v => v = VNone) params ->
  concat_results (direct_filter params <$> entries) = inr [].
Proof.
  intros Hnone. induction entries as [|entry entries IH]; [done|].
  rewrite fmap_cons. cbn [concat_results].
  rewrite direct_filter_none by (by apply get_all_none).
  by rewrite IH.
Qed.

Lemma code_filter_none (params : gmap string value) (code_arg : string)
    (code_map : gmap string Z) :
  get params code_arg = VNone -> code_filter params code_arg code_map = inr [].
Proof. intros Hnone. unfold code_filter. by rewrite Hnone. Qed.

(** Arguments that are all None build no filter. *)
Lemma _build_parquet_filters_none (self : B3Data) (kwargs : gmap string value)
    (w : World) (codbdi tpmerc : gmap string Z) :
  map_Forall (fun _ v => v = VNone) kwargs ->
  heap w !! codbdi_map self = Some (ODict codbdi) ->
  heap w !! tpmerc_map self = Some (ODict tpmerc) ->
  _build_parquet_filters self kwargs w = (inr [], w).
Proof.
  intros Hnone Hcodbdi Htpmerc.
  unfold _build_parquet_filters, bindM, lift, ret.
  rewrite (get_all_none kwargs "asset_class" Hnone).
  rewrite (direct_filters_none kwargs filter_map Hnone).
  change (asset_class_filters VNone) with (@inr exn (list Filter) []).
  cbv beta iota. unfold load_dict. rewrite Hcodbdi. cbv beta iota.
  rewrite Htpmerc. cbv beta iota.
  by rewrite !code_filter_none by (by apply get_all_none).
Qed.

(** C10. When at least one starter keyword is passed and every keyword
    passed has the value None, [get_quotes] does not raise ValueError (the
    validation looks at the keys only): it scans the store once, with the
    default columns and without any pushdown predicate ([filters=None]),
    and returns a new frame. *)
Theorem get_quotes_none_valued_starter (self : B3Data)
    (kwargs : gmap string value) (w : World) (codbdi tpmerc : gmap string Z) :
  Exists (fun k => kwargs !! k = Some VNone) valid_starters ->
  map_Forall (fun _ v => v = VNone) kwargs ->
  heap w !! codbdi_map self = Some (ODict codbdi) ->
  heap w !! tpmerc_map self = Some (ODict tpmerc) ->
  let rq := {| scan_columns := AStr <$> key_columns ++ default_columns;
               scan_filters := None |} in
  exists l w',
    get_quotes self kwargs w = (inr l, w') ∧
    scans w' = scans w ++ [rq] ∧
    heap w' !! l
    = Some (OQuotes (or_empty (scan_filter_sort (full_data self) kwargs None rq))).
Proof.
  intros Hstarter Hnone Hcodbdi Htpmerc rq.
  assert (Hhas : has_starter kwargs = true).
  { apply has_starter_true. eapply Exists_impl; [exact Hstarter|].
    intros k ->. by eexists. }
  unfold get_quotes, resolve_entity.
  rewrite (get_all_none kwargs "entity" Hnone). simpl.
  unfold bindM at 1. unfold ret at 1. rewrite Hhas. simpl.
  unfold bindM at 1.
  rewrite (_build_parquet_filters_none self kwargs w codbdi tpmerc) by done.
  unfold bindM, lift, columns_to_load.
  rewrite !(get_all_none kwargs _ Hnone). simpl.
  eexists _, _. split; [reflexivity|]. simpl. split; [done|].
  apply lookup_insert_eq.
Qed.

(** *** The scan stage *)

Lemma keeps_scans_ret {A : Type} (a : A) : keeps_scans (ret a).
Proof. by intros w. Qed.

Lemma keeps_scans_lift {A : Type} (r : exn + A) : keeps_scans (lift r).
Proof. by intros w. Qed.

Lemma keeps_scans_bindM {A B : Type} (m : M A) (k : A -> M B) :
  keeps_scans m -> (forall a, keeps_scans (k a)) -> keeps_scans (bindM m k).
Proof.
  intros Hm Hk w. unfold bindM. specialize (Hm w).
  destruct (m w) as [[e|a] w1]; simpl in *; [done|].
  by rewrite Hk.
Qed.

Lemma keeps_scans_alloc (o : obj) : keeps_scans (alloc o).
Proof. by intros w. Qed.

Lemma keeps_scans_load_master (l : loc) : keeps_scans (load_master l).
Proof. intros w. unfold load_master. by destruct (heap w !! l) as [[]|]. Qed.

Lemma keeps_scans_load_dict (l : loc) : keeps_scans (load_dict l).
Proof. intros w. unfold load_dict. by destruct (heap w !! l) as [[]|]. Qed.

Ltac keeps_scans :=
  repeat first
    [ apply keeps_scans_ret | apply keeps_scans_lift | apply keeps_scans_alloc
    | apply keeps_scans_load_master | apply keeps_scans_load_dict
    | apply keeps_scans_bindM; [|intros ?]
    | match goal with
      | |- keeps_scans (if ?b then _ else _) => destruct b
      | |- keeps_scans (match ?x with _ => _ end) => destruct x
      end ].

Lemma find_assets_keeps_scans (self : B3Data) (query : value) :
  keeps_scans (find_assets self query).
Proof. unfold find_assets. keeps_scans. Qed.

Lemma resolve_entity_keeps_scans (self : B3Data) (kwargs : gmap string value) :
  keeps_scans (resolve_entity self kwargs).
Proof.
  unfold resolve_entity.
  repeat first
    [ apply find_assets_keeps_scans
    | match goal with
      | |- keeps_scans (if ?b then _ else _) => destruct b
      end
    | progress keeps_scans ].
Qed.

Lemma _build_parquet_filters_keeps_scans (self : B3Data)
    (kwargs : gmap string value) :
  keeps_scans (_build_parquet_filters self kwargs).
Proof. unfold _build_parquet_filters. keeps_scans. Qed.

(** C3. A call of [get_quotes] either logs no scan (it raised or returned
    before the [try] block), or it logs exactly one scan and then returns
    a frame, never an exception: the empty frame [pd.DataFrame()] when
    the scan, a post-filter or the sort raised, and otherwise the complete
    outcome of scan, post-filters and sort, never a part of it. *)
Theorem get_quotes_scan_failure_gives_empty (self : B3Data)
    (kwargs : gmap string value) (w : World) :
  scans (get_quotes self kwargs w).2 = scans w
  ∨ exists params root w1 rq l,
      resolve_entity self kwargs w = (inr (Proceed params root), w1) ∧
      scans (get_quotes self kwargs w).2 = scans w ++ [rq] ∧
      (get_quotes self kwargs w).1 = inr l ∧
      match scan_filter_sort (full_data self) params root rq with
      | inl _ => heap (get_quotes self kwargs w).2 !! l = Some (OQuotes pd_DataFrame)
      | inr df => heap (get_quotes self kwargs w).2 !! l = Some (OQuotes df)
      end.
Proof.
  pose proof (resolve_entity_keeps_scans self kwargs w) as Hres.
  destruct (get_quotes self kwargs w) as [r w'] eqn:Hgq. simpl.
  revert Hgq. unfold get_quotes. unfold bindM at 1.
  destruct (resolve_entity self kwargs w) as [[e|[|params root]] w1] eqn:Hr;
    simpl in Hres.
  - intros [= <- <-]. by left.
  - unfold alloc. intros [= <- <-]. by left.
  - destruct (has_starter params); simpl; [|intros [= <- <-]; by left].
    pose proof (_build_parquet_filters_keeps_scans self params w1) as Hbuild.
    unfold bindM at 1.
    destruct (_build_parquet_filters self params w1) as [[e|filters] w2];
      simpl in Hbuild; [intros [= <- <-]; left; congruence|].
    unfold bindM at 1. unfold lift at 1.
    destruct (columns_to_load params) as [e|columns];
      [intros [= <- <-]; left; congruence|].
    unfold bindM, log_scan, alloc. simpl. intros [= <- <-].
    right. eexists params, root, w1, _, _. split; [done|]. simpl.
    split; [by rewrite Hbuild, Hres|]. split; [done|].
    destruct (scan_filter_sort _ _ _ _); simpl; apply lookup_insert_eq.
Qed.

(** *** Options of an entity *)

(** A capital letter, a digit or a newline is an ASCII character that
    has no other upper case. *)
Lemma upper_ascii_fixes (c : ascii) :
  is_upper c || is_digit c || bool_decide (c = newline) = true ->
  upper_ascii c = c ∧ (nat_of_ascii c < 128)%nat.
Proof.
  unfold is_upper, is_digit, ascii_in, upper_ascii.
  rewrite !orb_true_iff, !bool_decide_eq_true, !elem_of_seq.
  intros [[Hc|Hc]| ->]; [..|by split; [|cbv; lia]];
    (split; [rewrite bool_decide_eq_false_2; [done|lia]|lia]).
Qed.

(** [upper] leaves a text of capital letters, digits and newlines as it
    is. *)
Lemma upper_fixes (s : string) :
  upper_on_ascii ->
  forallb (fun c => is_upper c || is_digit c || bool_decide (c = newline))
    (list_ascii_of_string s) = true ->
  upper s = s.
Proof.
  intros upper_ascii_text Hs.
  assert (is_ascii_text s = true ∧ upper_a_z s = s) as [Hascii Hsame].
  { unfold is_ascii_text, upper_a_z.
    induction s as [|c s IH]; [done|]. simpl in *.
    apply andb_true_iff in Hs as [Hc Hs].
    destruct (upper_ascii_fixes c Hc) as [-> Hlt]. destruct (IH Hs) as [-> ->].
    by rewrite bool_decide_eq_true_2. }
  by rewrite upper_ascii_text.
Qed.

(** The root of a ticker: its first four characters, already in upper
    case. *)
Lemma match_root_spec (t root : string) :
  upper_on_ascii ->
  match_root t = Some root ->
  root = substring 0 4 t ∧ upper root = root ∧ truthy (VStr root) = true.
Proof.
  intros Hupper. unfold match_root.
  destruct t as [|a [|b [|c [|d t]]]]; simpl; try done.
  destruct (is_upper a) eqn:Ha; simpl; [|done].
  destruct (is_upper b) eqn:Hb; simpl; [|done].
  destruct (is_upper c) eqn:Hc; simpl; [|done].
  destruct (is_upper d) eqn:Hd; simpl; [|done].
  intros [= <-]. split; [by destruct t|]. split; [|done].
  apply upper_fixes; [done|]. simpl. by rewrite Ha, Hb, Hc, Hd.
Qed.

Lemma select_str_rows (df df' : QuoteFrame) (name : string)
    (test : string -> bool) (row : Row) :
  select_str df name test = inr df' ->
  row ∈ qf_rows df' ->
  row ∈ qf_rows df ∧ exists s, row !! name = Some (Str s) ∧ test s = true.
Proof.
  unfold select_str, column_cells. case_bool_decide; [|done]. simpl.
  destruct (traverse _ _) as [e|mask] eqn:Hmask; simpl; [done|].
  intros [= <-]. simpl.
  intros ([row' b] & -> & [Hb Hin]%list_elem_of_filter)%list_elem_of_fmap.
  simpl in *. subst b.
  apply list_elem_of_lookup in Hin as [i Hi].
  apply lookup_zip_with_Some in Hi as (r & b' & Heq & Hr & Hb').
  assert (r = row') as -> by (by injection Heq).
  assert (b' = true) as -> by (by injection Heq).
  split; [by eapply list_elem_of_lookup_2|].
  assert (Hcell : ((fun row : Row => default NA (row !! name)) <$> qf_rows df) !! i
                  = Some (default NA (row' !! name)))
    by by rewrite list_lookup_fmap, Hr.
  destruct (traverse_lookup _ _ _ _ _ Hmask Hcell) as (y & Hy & Htest).
  rewrite Hb' in Hy. injection Hy as <-.
  destruct (row' !! name) as [[]|]; simpl in Htest; try done.
  injection Htest as Htest. eauto.
Qed.

Lemma filter_rows_elem (filters : list Filter) (rows kept : list Row) (row : Row) :
  filter_rows filters rows = inr kept -> row ∈ kept ->
  row ∈ rows ∧ eval_filters filters row = inr true.
Proof.
  revert kept. induction rows as [|r rows IH]; intros kept; simpl.
  - intros [= <-] Hin. by apply elem_of_nil in Hin.
  - destruct (eval_filters filters r) as [e|keep] eqn:Hkeep; simpl; [done|].
    destruct (filter_rows filters rows) as [e|rest]; simpl; [done|].
    intros [= <-] Hin. destruct keep.
    + apply elem_of_cons in Hin as [->|Hin]; [split; [by left|done]|].
      destruct (IH rest eq_refl Hin). split; [by right|done].
    + destruct (IH rest eq_refl Hin). split; [by right|done].
Qed.

Lemma eval_filters_head (f : Filter) (fs : list Filter) (row : Row) :
  eval_filters (f :: fs) row = inr true -> eval_filter row f = inr true.
Proof.
  unfold eval_filters. simpl.
  destruct (eval_filter row f) as [e|b]; simpl; [done|].
  destruct (traverse _ fs) as [e|bs]; simpl; [done|].
  destruct b; [done|]. simpl. by intros [= ?].
Qed.

Lemma eval_options_filter (row : Row) :
  eval_filter row options_filter = inr true ->
  exists z, row !! "TPMERC" = Some (Int z) ∧ z ∈ [70; 80; 12; 13]%Z.
Proof.
  unfold eval_filter, options_filter. simpl.
  destruct (row !! "TPMERC") as [c|]; simpl; [|done].
  intros [= Hex]. destruct c as [| |z| |]; simpl in Hex; try done.
  exists z. split; [done|].
  repeat (apply orb_prop in Hex as [Hz%Z.eqb_eq|Hex]; [subst; set_solver|]).
  done.
Qed.

Lemma read_parquet_rows (store : Store) (columns : list atom)
    (filters : list Filter) (df : QuoteFrame) :
  read_parquet store columns (Some filters) = inr df ->
  exists rows names,
    store = inr rows ∧ traverse column_name columns = inr names ∧
    qf_columns df = names ∧
    forall row, row ∈ qf_rows df ->
      exists s, s ∈ rows ∧ row = project names s
                ∧ eval_filters filters s = inr true.
Proof.
  unfold read_parquet. destruct store as [e|rows]; simpl; [done|].
  destruct (traverse column_name columns) as [e|names]; simpl; [done|].
  destruct (scan_error _ _); simpl; [done|].
  destruct (filter_rows filters rows) as [e|kept] eqn:Hkept; simpl; [done|].
  intros [= <-]. exists rows, names. repeat split; try done. simpl.
  intros row (s & -> & Hs)%list_elem_of_fmap.
  destruct (filter_rows_elem _ _ _ _ Hkept Hs). by exists s.
Qed.

Lemma filter_bdr_rows (params : gmap string value) (df df' : QuoteFrame)
    (row : Row) :
  filter_bdr params df = inr df' -> row ∈ qf_rows df' -> row ∈ qf_rows df.
Proof.
  unfold filter_bdr. destruct (truthy _); [|by intros [= <-]].
  destruct (get params "asset_class") as [[| | |ac]|]; try done.
  case_bool_decide; [|by intros [= <-]].
  intros Hsel Hin. by destruct (select_str_rows _ _ _ _ _ Hsel Hin).
Qed.

Lemma filter_especificacao_rows (params : gmap string value)
    (df df' : QuoteFrame) (row : Row) :
  filter_especificacao params df = inr df' ->
  row ∈ qf_rows df' -> row ∈ qf_rows df.
Proof.
  unfold filter_especificacao. case_bool_decide; [by intros [= <-]|].
  destruct (join_pattern _) as [e|pattern]; simpl; [done|].
  destruct (re_compile pattern true) as [e|search]; simpl; [done|].
  intros Hsel Hin. by destruct (select_str_rows _ _ _ _ _ Hsel Hin).
Qed.

Lemma sort_values_quotes_rows (df : QuoteFrame) (row : Row) :
  row ∈ qf_rows (sort_values_quotes df) <-> row ∈ qf_rows df.
Proof. unfold sort_values_quotes. simpl. by rewrite merge_sort_Permutation. Qed.

Lemma append_ESPECI_cons (extra : bool) (c : atom) (cs columns : list atom) :
  (if extra
   then if bool_decide (AStr "ESPECI" ∈ c :: cs) then inr (c :: cs)
        else inr ((c :: cs) ++ [AStr "ESPECI"])
   else @inr exn (list atom) (c :: cs)) = inr columns ->
  exists c' cs', columns = c' :: cs'.
Proof. destruct extra; [case_bool_decide|]; intros [= <-]; eauto. Qed.

Lemma columns_to_load_cons (params : gmap string value) (columns : list atom) :
  columns_to_load params = inr columns -> exists c cs, columns = c :: cs.
Proof.
  unfold columns_to_load.
  destruct (bool_decide (get params "columns" = VNone)).
  - simpl. destruct (_ || _); intros [= <-]; eauto.
  - destruct (py_set _) as [e|user]; [done|].
    assert (exists cs, unique ((AStr <$> key_columns) ++ user)
                       = AStr "DATA_PREGAO" :: cs) as [cs Hcs]
      by (unfold unique, drop_duplicates; simpl; eauto).
    cbn [bind]. rewrite Hcs. apply append_ESPECI_cons.
Qed.

Lemma traverse_cons_inv {A B : Type} (f : A -> exn + B) (x : A) (l : list A)
    (k : list B) :
  traverse f (x :: l) = inr k -> exists y ys, k = y :: ys.
Proof.
  simpl. destruct (f x); simpl; [done|].
  destruct (traverse f l); simpl; [done|]. intros [= <-]. eauto.
Qed.

(** With the asset class of options the first pushdown predicate is the
    set of market types of options. *)
Lemma _build_parquet_filters_options (self : B3Data)
    (params : gmap string value) (w w' : World) (filters : list Filter) :
  get params "asset_class" = VStr "options" ->
  _build_parquet_filters self params w = (inr filters, w') ->
  exists rest, filters = options_filter :: rest.
Proof.
  intros Hac. unfold _build_parquet_filters, bindM, lift, ret. rewrite Hac.
  change (asset_class_filters (VStr "options"))
    with (@inr exn (list Filter) [options_filter]).
  cbv beta iota.
  destruct (concat_results _) as [e|direct]; [done|].
  unfold load_dict.
  destruct (heap w !! codbdi_map self) as [[| |d1]|]; try done.
  destruct (heap w !! tpmerc_map self) as [[| |d2]|]; try done.
  destruct (code_filter params "codbdi" d1) as [e|f1]; [done|].
  destruct (code_filter params "tpmerc" d2) as [e|f2]; [done|].
  intros [= <- _]. simpl. eauto.
Qed.

Lemma find_assets_run (self : B3Data) (w : World) (e : string)
    (dic : list MasterEntry) (word : string -> bool) :
  heap w !! df_dicionario self = Some (OMaster dic) ->
  re_compile ("\b" +:+ upper e +:+ "\b") false = inr word ->
  exists l w2,
    find_assets self (VStr e) w = (inr l, w2) ∧
    scans w2 = scans w ∧
    heap w2 !! l = Some (OMaster (find_assets_rows dic (upper e) word)).
Proof.
  intros Hdic Hword.
  unfold find_assets, bindM, lift, load_master, alloc. simpl.
  rewrite Hdic, Hword. simpl. rewrite lookup_insert_eq.
  eexists _, _. split; [reflexivity|]. simpl. split; [done|].
  apply lookup_insert_eq.
Qed.

(** The exploratory layer for options of an entity: the matches of
    [find_assets] decide. *)
Lemma resolve_entity_options (self : B3Data) (kwargs : gmap string value)
    (w : World) (e : string) (dic : list MasterEntry) (word : string -> bool) :
  kwargs !! "asset_class" = Some (VStr "options") ->
  kwargs !! "entity" = Some (VStr e) ->
  e <> "" ->
  heap w !! df_dicionario self = Some (OMaster dic) ->
  re_compile ("\b" +:+ upper e +:+ "\b") false = inr word ->
  exists w2,
    scans w2 = scans w ∧
    resolve_entity self kwargs w =
    match find_assets_rows dic (upper e) word with
    | [] => (inr ReturnEmpty, w2)
    | first :: _ =>
        match ticker_root_of (ULTIMO_TICKER first) with
        | inl err => (inl err, w2)
        | inr root => (inr (Proceed (delete "entity" kwargs) (Some root)), w2)
        end
    end.
Proof.
  intros Hac Hentity Hne Hdic Hword.
  destruct (find_assets_run self w e dic word Hdic Hword)
    as (l & w2 & Hfind & Hscans & Hl).
  exists w2. split; [done|].
  unfold resolve_entity, get. rewrite Hac, Hentity. simpl.
  apply String.eqb_neq in Hne. rewrite Hne. simpl.
  unfold bindM at 1. rewrite Hfind.
  unfold bindM at 1. unfold load_master at 1. rewrite Hl.
  destruct (find_assets_rows dic (upper e) word) as [|first matches];
    [done|].
  unfold bindM, lift, ret. by destruct (ticker_root_of _).
Qed.

(** C8 (as amended). A call with the asset class ['options'] and a
    non-empty entity text whose lookup succeeds: when [find_assets] finds
    nothing, an empty frame is returned and no scan is logged; when it
    finds something and the latest ticker of the first match starts with
    four capital letters, the root is these four letters, and every row
    returned is the projection of a row of the store whose market type is
    70, 80, 12 or 13 and has a ticker that starts with the root when no
    ticker root is passed besides, and with the ticker root passed, in
    upper case, when one is. *)
Theorem get_quotes_options_by_entity (self : B3Data)
    (kwargs : gmap string value) (w : World) (e : string)
    (dic : list MasterEntry) (word : string -> bool) :
  upper_on_ascii ->
  kwargs !! "asset_class" = Some (VStr "options") ->
  kwargs !! "entity" = Some (VStr e) ->
  e <> "" ->
  heap w !! df_dicionario self = Some (OMaster dic) ->
  re_compile ("\b" +:+ upper e +:+ "\b") false = inr word ->
  match find_assets_rows dic (upper e) word with
  | [] =>
      exists l w',
        get_quotes self kwargs w = (inr l, w') ∧
        scans w' = scans w ∧
        heap w' !! l = Some (OQuotes pd_DataFrame)
  | first :: _ =>
      forall t root,
        ULTIMO_TICKER first = Some t ->
        match_root t = Some root ->
        root = substring 0 4 t ∧
        forall l w' df row,
          get_quotes self kwargs w = (inr l, w') ->
          heap w' !! l = Some (OQuotes df) ->
          row ∈ qf_rows df ->
          (exists c,
             row !! "CODNEG" = Some (Str c) ∧
             (truthy (get kwargs "ticker_root") = false ->
              startswith root c = true) ∧
             (forall r, get kwargs "ticker_root" = VStr r -> r <> "" ->
                startswith (upper r) c = true)) ∧
          (exists rows names s z,
             full_data self = inr rows ∧ s ∈ rows ∧ row = project names s ∧
             s !! "TPMERC" = Some (Int z) ∧ z ∈ [70; 80; 12; 13]%Z)
  end.
Proof.
  intros Hascii Hac Hentity Hne Hdic Hword.
  destruct (resolve_entity_options self kwargs w e dic word Hac Hentity Hne
              Hdic Hword) as (w2 & Hscans & Hres).
  destruct (find_assets_rows dic (upper e) word) as [|first matches].
  - unfold get_quotes, bindM. rewrite Hres. unfold alloc.
    eexists _, _. split; [reflexivity|]. simpl. split; [done|].
    apply lookup_insert_eq.
  - intros t root Hfirst Hroot.
    destruct (match_root_spec t root Hascii Hroot) as (Hsub & Hupper & Htruthy).
    split; [done|]. intros l w' df row.
    unfold ticker_root_of in Hres. rewrite Hfirst, Hroot in Hres.
    set (params := delete "entity" kwargs) in *.
    assert (Hpac : get params "asset_class" = VStr "options").
    { unfold get, params. by rewrite lookup_delete_ne, Hac. }
    assert (Hptr : get params "ticker_root" = get kwargs "ticker_root").
    { unfold get, params. by rewrite lookup_delete_ne. }
    assert (Hroot_filter : forall df0 df1,
              filter_ticker_root params (Some root) df0 = inr df1 ->
              row ∈ qf_rows df1 ->
              row ∈ qf_rows df0 ∧
              exists c,
                row !! "CODNEG" = Some (Str c) ∧
                (truthy (get kwargs "ticker_root") = false ->
                 startswith root c = true) ∧
                (forall r, get kwargs "ticker_root" = VStr r -> r <> "" ->
                   startswith (upper r) c = true)).
    { intros df0 df1. unfold filter_ticker_root, effective_ticker_root.
      rewrite Hptr.
      destruct (truthy (get kwargs "ticker_root")) eqn:Hpassed.
      - rewrite Hpassed.
        destruct (get kwargs "ticker_root") as [[| | |r]|lst]; try done.
        simpl. intros Hsel Hrow.
        destruct (select_str_rows _ _ _ _ _ Hsel Hrow) as (Hin & c & Hc & Hst).
        split; [done|]. exists c. split; [done|]. split; [done|].
        by intros r' [= <-] _.
      - rewrite Htruthy. simpl. rewrite Hupper. intros Hsel Hrow.
        destruct (select_str_rows _ _ _ _ _ Hsel Hrow) as (Hin & c & Hc & Hst).
        split; [done|]. exists c. split; [done|]. split; [done|].
        intros r Hr Hr_ne. rewrite Hr in Hpassed. simpl in Hpassed.
        apply String.eqb_neq in Hr_ne. by rewrite Hr_ne in Hpassed. }
    unfold get_quotes. unfold bindM at 1. rewrite Hres.
    destruct (has_starter params); simpl; [|done].
    unfold bindM at 1.
    destruct (_build_parquet_filters self params w2) as [[err|filters] w3]
      eqn:Hbuild; [done|].
    destruct (_build_parquet_filters_options _ _ _ _ _ Hpac Hbuild)
      as [rest ->].
    unfold bindM at 1. unfold lift at 1.
    destruct (columns_to_load params) as [err|columns] eqn:Hcols; [done|].
    unfold bindM, log_scan, alloc. simpl. intros [= <- <-]. simpl.
    rewrite lookup_insert_eq. intros [= <-].
    unfold scan_filter_sort. simpl.
    destruct (read_parquet _ _ _) as [err|df0] eqn:Hread; simpl;
      [by intros ?%elem_of_nil|].
    destruct (read_parquet_rows _ _ _ _ Hread)
      as (rows & names & Hstore & Hnames & Hdfcols & Hdfrows).
    assert (Hnonempty : qf_empty df0 = true -> qf_rows df0 = []).
    { destruct (columns_to_load_cons _ _ Hcols) as (c & cs & ->).
      destruct (traverse_cons_inv _ _ _ _ Hnames) as (y & ys & ->).
      unfold qf_empty. rewrite Hdfcols. by destruct (qf_rows df0). }
    unfold post_filter.
    destruct (qf_empty df0) eqn:Hempty; simpl.
    { rewrite Hempty. simpl. rewrite (Hnonempty eq_refl).
      by intros ?%elem_of_nil. }
    destruct (filter_ticker_root params (Some root) df0) as [err|df1]
      eqn:Hsel; simpl; [by intros ?%elem_of_nil|].
    destruct (filter_bdr params df1) as [err|df2] eqn:Hbdr; simpl;
      [by intros ?%elem_of_nil|].
    destruct (filter_especificacao params df2) as [err|df3] eqn:Hesp; simpl;
      [by intros ?%elem_of_nil|].
    intros Hrow.
    assert (Hrow3 : row ∈ qf_rows df3).
    { revert Hrow. destruct (qf_empty df3); simpl; [done|].
      by intros ?%sort_values_quotes_rows. }
    apply (filter_especificacao_rows _ _ _ _ Hesp) in Hrow3.
    apply (filter_bdr_rows _ _ _ _ Hbdr) in Hrow3.
    destruct (Hroot_filter _ _ Hsel Hrow3) as [Hrow0 Hcodneg].
    split; [done|].
    destruct (Hdfrows row Hrow0) as (s0 & Hs0 & Hproj & Heval).
    apply eval_filters_head, eval_options_filter in Heval as (z & Hz & Hin).
    by exists rows, names, s0, z.
Qed.

(** *** The columns of a scan *)

Lemma columns_to_load_spec (params : gmap string value) (columns : list atom) :
  columns_to_load params = inr columns ->
  NoDup columns ∧
  Forall (fun k => AStr k ∈ columns) key_columns ∧
  (truthy (get params "especificacao")
   || bool_decide (get params "asset_class" = VStr "bdr")
   || truthy (get params "ticker_root") = true ->
   AStr "ESPECI" ∈ columns).
Proof.
  clear re_compile pd_to_datetime.
  unfold columns_to_load.
  set (needs := _ || _ || _).
  assert (Hstep : forall cols : list atom,
            NoDup cols -> Forall (fun k => AStr k ∈ cols) key_columns ->
            (if needs
             then if bool_decide (AStr "ESPECI" ∈ cols) then inr cols
                  else inr (cols ++ [AStr "ESPECI"])
             else @inr exn (list atom) cols) = inr columns ->
            NoDup columns ∧ Forall (fun k => AStr k ∈ columns) key_columns ∧
            (needs = true -> AStr "ESPECI" ∈ columns)).
  { intros cols Hnd Hkeys. destruct needs.
    - case_bool_decide as Hin; intros [= <-].
      + done.
      + split; [|split].
        * apply NoDup_app. split; [done|]. split; [|apply NoDup_singleton].
          intros x Hx ->%list_elem_of_singleton. done.
        * eapply Forall_impl; [exact Hkeys|]. intros k Hk. set_solver.
        * intros _. set_solver.
    - intros [= <-]. done. }
  assert (Hkeys : forall rest : list atom,
            Forall (fun k => AStr k ∈ unique ((AStr <$> key_columns) ++ rest))
              key_columns).
  { intros rest. apply Forall_forall. intros k Hk. apply elem_of_unique.
    apply elem_of_app. left. by apply list_elem_of_fmap_2. }
  case_bool_decide.
  - cbn [bind]. apply Hstep.
    + apply NoDup_fmap_2; [by intros ?? [= ->]|]. apply unique_NoDup.
    + rewrite Forall_forall. intros k Hk. apply list_elem_of_fmap_2.
      apply elem_of_unique. set_solver.
  - destruct (py_set _) as [e|user]; [done|]. cbn [bind]. apply Hstep.
    + apply unique_NoDup.
    + apply Hkeys.
Qed.

(** X13. Whenever [get_quotes] reads the store, it asks for a list of
    columns without repetition that holds the three key columns
    DATA_PREGAO, CODNEG and CODISI, and ESPECI too when a post-filter
    looks at it (a specification, the asset class ['bdr'] or a ticker
    root is passed); and it never passes an empty list of predicates. *)
Theorem get_quotes_scan_columns (self : B3Data) (kwargs : gmap string value)
    (w : World) :
  scans (get_quotes self kwargs w).2 = scans w
  ∨ exists params root w1 rq,
      resolve_entity self kwargs w = (inr (Proceed params root), w1) ∧
      scans (get_quotes self kwargs w).2 = scans w ++ [rq] ∧
      NoDup (scan_columns rq) ∧
      Forall (fun k => AStr k ∈ scan_columns rq) key_columns ∧
      (truthy (get params "especificacao")
       || bool_decide (get params "asset_class" = VStr "bdr")
       || truthy (get params "ticker_root") = true ->
       AStr "ESPECI" ∈ scan_columns rq) ∧
      scan_filters rq <> Some [].
Proof.
  pose proof (resolve_entity_keeps_scans self kwargs w) as Hres.
  destruct (get_quotes self kwargs w) as [r w'] eqn:Hgq. simpl.
  revert Hgq. unfold get_quotes. unfold bindM at 1.
  destruct (resolve_entity self kwargs w) as [[e|[|params root]] w1] eqn:Hr;
    simpl in Hres.
  - intros [= <- <-]. by left.
  - unfold alloc. intros [= <- <-]. by left.
  - destruct (has_starter params); simpl; [|intros [= <- <-]; by left].
    pose proof (_build_parquet_filters_keeps_scans self params w1) as Hbuild.
    unfold bindM at 1.
    destruct (_build_parquet_filters self params w1) as [[e|filters] w2];
      simpl in Hbuild; [intros [= <- <-]; left; congruence|].
    unfold bindM at 1. unfold lift at 1.
    destruct (columns_to_load params) as [e|columns] eqn:Hcols;
      [intros [= <- <-]; left; congruence|].
    unfold bindM, log_scan, alloc. simpl. intros [= <- <-].
    right. eexists params, root, w1, _. split; [done|]. simpl.
    split; [by rewrite Hbuild, Hres|].
    destruct (columns_to_load_spec _ _ Hcols) as (Hnd & Hkeys & Hesp).
    split; [done|]. split; [done|]. split; [done|]. by destruct filters.
Qed.


(** *** The order of the rows returned *)

Lemma cell_before_antisym (a b : cell) :
  cell_before b a = CompOpp (cell_before a b).
Proof.
  destruct a, b; simpl; try done.
  - apply String.compare_antisym.
  - apply Z.compare_antisym.
  - apply Z.compare_antisym.
Qed.

#[global] Instance quote_order_total : Total quote_order.
Proof.
  intros r1 r2. unfold quote_order.
  rewrite (cell_before_antisym (default NA (r1 !! "CODNEG"))).
  rewrite (cell_before_antisym (default NA (r1 !! "DATA_PREGAO"))).
  destruct (cell_before (default NA (r1 !! "CODNEG")) _); simpl; auto.
  destruct (cell_before (default NA (r1 !! "DATA_PREGAO")) _); simpl;
    [left|left|right]; congruence.
Qed.

Lemma select_str_columns (df df' : QuoteFrame) (name : string)
    (test : string -> bool) :
  select_str df name test = inr df' -> qf_columns df' = qf_columns df.
Proof.
  unfold select_str. destruct (column_cells df name); simpl; [done|].
  destruct (traverse _ _); simpl; [done|]. by intros [= <-].
Qed.

Lemma post_filter_columns (params : gmap string value) (root : option string)
    (df df' : QuoteFrame) :
  post_filter params root df = inr df' -> qf_columns df' = qf_columns df.
Proof.
  unfold post_filter. destruct (qf_empty df); [by intros [= <-]|].
  unfold filter_ticker_root, filter_bdr, filter_especificacao.
  destruct (truthy (effective_ticker_root _ _)).
  - destruct (py_upper _) as [e|prefix]; simpl; [done|].
    destruct (select_str df _ _) as [e|df1] eqn:H1; simpl; [done|].
    apply select_str_columns in H1. rewrite <- H1. clear H1.
    destruct (truthy _); [destruct (get params "asset_class") as [[]|]|];
      simpl; try done.
    all: repeat case_bool_decide; simpl.
    all: repeat match goal with
         | |- context [select_str ?d ?n ?t] =>
             let H := fresh in
             destruct (select_str d n t) eqn:H; simpl; [done|];
             apply select_str_columns in H; rewrite <- H; clear H
         | |- context [join_pattern ?x] => destruct (join_pattern x); simpl; [done|]
         | |- context [re_compile ?x ?y] => destruct (re_compile x y); simpl; [done|]
         end.
    all: try by intros [= <-].
    all: intros Hs%select_str_columns; congruence.
  - simpl.
    destruct (truthy _); [destruct (get params "asset_class") as [[]|]|];
      simpl; try done.
    all: repeat case_bool_decide; simpl.
    all: repeat match goal with
         | |- context [select_str ?d ?n ?t] =>
             let H := fresh in
             destruct (select_str d n t) eqn:H; simpl; [done|];
             apply select_str_columns in H; rewrite <- H; clear H
         | |- context [join_pattern ?x] => destruct (join_pattern x); simpl; [done|]
         | |- context [re_compile ?x ?y] => destruct (re_compile x y); simpl; [done|]
         end.
    all: try by intros [= <-].
    all: intros Hs%select_str_columns; congruence.
Qed.

Lemma read_parquet_columns (store : Store) (columns : list atom)
    (filters : option (list Filter)) (df : QuoteFrame) :
  read_parquet store columns filters = inr df ->
  traverse column_name columns = inr (qf_columns df).
Proof.
  unfold read_parquet. destruct store as [e|rows]; simpl; [done|].
  destruct (traverse column_name columns) as [e|names]; simpl; [done|].
  destruct (scan_error _ _); simpl; [done|].
  destruct (filter_rows _ rows); simpl; [done|]. by intros [= <-].
Qed.

(** The frame the [try] block yields is sorted. *)
Lemma scan_filter_sort_sorted (store : Store) (params : gmap string value)
    (root : option string) (rq : Scan) (df : QuoteFrame) :
  scan_columns rq <> [] ->
  scan_filter_sort store params root rq = inr df ->
  Sorted quote_order (qf_rows df).
Proof.
  intros Hcols. unfold scan_filter_sort.
  destruct (read_parquet _ _ _) as [e|df0] eqn:Hread; simpl; [done|].
  destruct (post_filter params root df0) as [e|df1] eqn:Hpost; simpl; [done|].
  apply read_parquet_columns in Hread. apply post_filter_columns in Hpost.
  destruct (qf_empty df1) eqn:Hempty; intros [= <-].
  - unfold qf_empty in Hempty. rewrite Hpost in Hempty.
    destruct (scan_columns rq) as [|c cs]; [done|].
    destruct (traverse_cons_inv _ _ _ _ Hread) as (y & ys & Hy).
    rewrite Hy in Hempty. destruct (qf_rows df1); [constructor|done].
  - simpl. apply Sorted_merge_sort, _.
Qed.

Lemma string_compare_Lt_trans (a b c : string) :
  String.compare a b = Lt -> String.compare b c = Lt -> String.compare a c = Lt.
Proof.
  intros Hab Hbc.
  assert (Hle : str_le a c).
  { apply (str_le_trans a b c); unfold str_le, String.leb;
      [by rewrite Hab|by rewrite Hbc]. }
  unfold str_le, String.leb in Hle.
  destruct (String.compare a c) eqn:Hac; [|done|done].
  apply String.compare_eq_iff in Hac as ->.
  rewrite String.compare_antisym, Hbc in Hab. done.
Qed.

(** The order of two cells of one column that holds texts, or of one that
    holds timestamps. *)
Lemma cell_before_trans (kind : cell -> Prop) (a b c : cell) :
  (kind = text_cell ∨ kind = time_cell) -> kind a -> kind b -> kind c ->
  (cell_before a b = Eq -> a = b) ∧
  (cell_before a b = Lt -> cell_before b c = Lt -> cell_before a c = Lt).
Proof.
  intros [-> | ->]; unfold text_cell, time_cell;
    destruct a, b, c; simpl; try done; intros _ _ _.
  all: split;
    [ first [ done | by intros ->%String.compare_eq_iff
            | by intros ->%Z.compare_eq_iff ]
    | first [ done | apply string_compare_Lt_trans
            | rewrite !Z.compare_lt_iff; lia ] ].
Qed.

Lemma quote_order_trans (r1 r2 r3 : Row) :
  typed_quote r1 -> typed_quote r2 -> typed_quote r3 ->
  quote_order r1 r2 -> quote_order r2 r3 -> quote_order r1 r3.
Proof.
  intros [Ht1 Hd1] [Ht2 Hd2] [Ht3 Hd3]. unfold quote_order.
  set (t1 := default NA (r1 !! "CODNEG")) in *.
  set (t2 := default NA (r2 !! "CODNEG")) in *.
  set (t3 := default NA (r3 !! "CODNEG")) in *.
  set (d1 := default NA (r1 !! "DATA_PREGAO")) in *.
  set (d2 := default NA (r2 !! "DATA_PREGAO")) in *.
  set (d3 := default NA (r3 !! "DATA_PREGAO")) in *.
  destruct (cell_before_trans text_cell t1 t2 t3) as [Heq12 Hlt]; auto.
  destruct (cell_before_trans text_cell t2 t3 t1) as [Heq23 _]; auto.
  destruct (cell_before t1 t2) eqn:H12; [|intros _|done].
  - rewrite (Heq12 eq_refl). intros Hd12.
    destruct (cell_before t2 t3) eqn:H23; [|done|done].
    intros Hd23.
    destruct (cell_before_trans time_cell d1 d2 d3) as [Hdeq12 Hdlt]; auto.
    destruct (cell_before_trans time_cell d2 d3 d1) as [Hdeq23 _]; auto.
    destruct (cell_before d1 d2) eqn:Hc12; [|clear Hd12|done].
    + by rewrite (Hdeq12 eq_refl).
    + destruct (cell_before d2 d3) eqn:Hc23; [|clear Hd23|done].
      * rewrite <- (Hdeq23 eq_refl). by rewrite Hc12.
      * by rewrite Hdlt.
  - destruct (cell_before t2 t3) eqn:H23; [intros _|intros _|done].
    + rewrite <- (Heq23 eq_refl). by rewrite H12.
    + by rewrite Hlt.
Qed.

Lemma Sorted_StronglySorted_on {A : Type} (R : relation A) (P : A -> Prop)
    (l : list A) :
  (forall x y z, P x -> P y -> P z -> R x y -> R y z -> R x z) ->
  Forall P l -> Sorted R l -> StronglySorted R l.
Proof.
  intros Htrans Hall Hsorted.
  induction Hsorted as [|x l Hl IH Hhd]; [constructor|].
  apply Forall_cons in Hall as [Hx Hall].
  constructor; [by apply IH|].
  specialize (IH Hall). clear Hl.
  destruct Hhd as [|y l Hxy]; [constructor|].
  apply Forall_cons in Hall as [Hy Hall].
  apply StronglySorted_cons in IH as [Hyl _].
  constructor; [done|].
  rewrite Forall_forall in Hyl, Hall |- *.
  intros z Hz. apply (Htrans x y z); auto.
Qed.


Lemma project_lookup (names : list string) (s : Row) (k : string) :
  project names s !! k = if decide (k ∈ names) then s !! k else None.
Proof.
  unfold project. destruct (s !! k) as [c|] eqn:Hk.
  - destruct (decide (k ∈ names)).
    + by apply map_lookup_filter_Some.
    + apply map_lookup_filter_None. right. intros c' Hc'. simpl. done.
  - destruct (decide _); apply map_lookup_filter_None; by left.
Qed.

Lemma typed_quote_project (names : list string) (s : Row) :
  typed_quote s -> typed_quote (project names s).
Proof.
  unfold typed_quote. rewrite !project_lookup. intros [Ht Hd].
  split; destruct (decide _); done.
Qed.

Lemma read_parquet_rows_of_store (store : Store) (columns : list atom)
    (filters : option (list Filter)) (df : QuoteFrame) (row : Row) :
  read_parquet store columns filters = inr df -> row ∈ qf_rows df ->
  exists rows s, store = inr rows ∧ s ∈ rows ∧ row = project (qf_columns df) s.
Proof.
  unfold read_parquet. destruct store as [e|rows]; simpl; [done|].
  destruct (traverse column_name columns) as [e|names]; simpl; [done|].
  destruct (scan_error _ _); simpl; [done|].
  destruct (filter_rows _ rows) as [e|kept] eqn:Hkept; simpl; [done|].
  intros [= <-]. simpl. intros (s & -> & Hs)%list_elem_of_fmap.
  destruct (filter_rows_elem _ _ _ _ Hkept Hs). by exists rows, s.
Qed.

Lemma filter_ticker_root_rows (params : gmap string value) (root : option string)
    (df df' : QuoteFrame) (row : Row) :
  filter_ticker_root params root df = inr df' ->
  row ∈ qf_rows df' -> row ∈ qf_rows df.
Proof.
  unfold filter_ticker_root. destruct (truthy _); [|by intros [= <-]].
  destruct (py_upper _) as [e|prefix]; simpl; [done|].
  intros Hsel Hin. by destruct (select_str_rows _ _ _ _ _ Hsel Hin).
Qed.

Lemma post_filter_rows (params : gmap string value) (root : option string)
    (df df' : QuoteFrame) (row : Row) :
  post_filter params root df = inr df' ->
  row ∈ qf_rows df' -> row ∈ qf_rows df.
Proof.
  unfold post_filter. destruct (qf_empty df); [by intros [= <-]|].
  destruct (filter_ticker_root params root df) as [e|df1] eqn:H1; simpl; [done|].
  destruct (filter_bdr params df1) as [e|df2] eqn:H2; simpl; [done|].
  intros H3 Hin.
  apply (filter_especificacao_rows _ _ _ _ H3) in Hin.
  apply (filter_bdr_rows _ _ _ _ H2) in Hin.
  by apply (filter_ticker_root_rows _ _ _ _ _ H1) in Hin.
Qed.

(** Every row the [try] block yields is a row of the store, cut down to
    the columns of the frame. *)
Lemma scan_filter_sort_rows (store : Store) (params : gmap string value)
    (root : option string) (rq : Scan) (df : QuoteFrame) (row : Row) :
  scan_filter_sort store params root rq = inr df -> row ∈ qf_rows df ->
  exists rows s, store = inr rows ∧ s ∈ rows ∧ row = project (qf_columns df) s.
Proof.
  unfold scan_filter_sort.
  destruct (read_parquet _ _ _) as [e|df0] eqn:Hread; simpl; [done|].
  destruct (post_filter params root df0) as [e|df1] eqn:Hpost; simpl; [done|].
  intros Hdf Hin.
  assert (Hin1 : row ∈ qf_rows df1 ∧ qf_columns df = qf_columns df1).
  { destruct (qf_empty df1); injection Hdf as <-; [done|].
    split; [by apply sort_values_quotes_rows|done]. }
  destruct Hin1 as [Hin1 ->].
  rewrite (post_filter_columns _ _ _ _ Hpost).
  apply (post_filter_rows _ _ _ _ _ Hpost) in Hin1.
  by apply (read_parquet_rows_of_store _ _ _ _ _ Hread).
Qed.

(** The frame [get_quotes] returns when it goes on after the exploratory
    layer. *)
Lemma get_quotes_returns (self : B3Data) (kwargs : gmap string value)
    (w w' : World) (l : loc) (df : QuoteFrame) :
  get_quotes self kwargs w = (inr l, w') ->
  heap w' !! l = Some (OQuotes df) ->
  df = pd_DataFrame
  ∨ exists params root w1 rq c cs,
      resolve_entity self kwargs w = (inr (Proceed params root), w1) ∧
      scan_columns rq = c :: cs ∧
      scan_filter_sort (full_data self) params root rq = inr df.
Proof.
  unfold get_quotes. unfold bindM at 1.
  destruct (resolve_entity self kwargs w) as [[e|[|params root]] w1] eqn:Hr;
    [done|..].
  - unfold alloc. intros [= <- <-]. simpl. rewrite lookup_insert_eq.
    intros [= <-]. by left.
  - destruct (has_starter params); simpl; [|done].
    unfold bindM at 1.
    destruct (_build_parquet_filters self params w1) as [[e|filters] w2];
      [done|].
    unfold bindM at 1. unfold lift at 1.
    destruct (columns_to_load params) as [e|columns] eqn:Hcols; [done|].
    destruct (columns_to_load_cons _ _ Hcols) as (c & cs & ->).
    unfold bindM, log_scan, alloc. simpl. intros [= <- <-]. simpl.
    rewrite lookup_insert_eq. intros [= <-].
    destruct (scan_filter_sort _ _ _ _) as [e|df] eqn:Hscan; simpl;
      [by left|].
    right. eexists params, root, w1, _, c, cs.
    split; [done|]. split; [|exact Hscan]. done.
Qed.

(** X14. The rows of a frame [get_quotes] returns are ordered by ticker
    and, under one ticker, by trade date, both ascending with the missing
    values last: no row is followed by a row that should stand before it;
    and when the tickers of the store are texts and its trade dates
    timestamps, every row stands before all the rows that follow it. *)
Theorem get_quotes_result_is_sorted (self : B3Data) (kwargs : gmap string value)
    (w w' : World) (l : loc) (df : QuoteFrame) :
  get_quotes self kwargs w = (inr l, w') ->
  heap w' !! l = Some (OQuotes df) ->
  Sorted quote_order (qf_rows df) ∧
  (forall rows, full_data self = inr rows -> Forall typed_quote rows ->
     StronglySorted quote_order (qf_rows df)).
Proof.
  intros Hget Hl.
  destruct (get_quotes_returns _ _ _ _ _ _ Hget Hl)
    as [->|(params & root & w1 & rq & c & cs & _ & Hcols & Hscan)].
  { split; [constructor|]. intros; constructor. }
  assert (Hsorted : Sorted quote_order (qf_rows df)).
  { eapply scan_filter_sort_sorted; [|exact Hscan]. by rewrite Hcols. }
  split; [done|]. intros rows Hstore Htyped.
  apply (Sorted_StronglySorted_on _ typed_quote);
    [apply quote_order_trans| |done].
  apply Forall_forall. intros row Hrow.
  destruct (scan_filter_sort_rows _ _ _ _ _ _ Hscan Hrow)
    as (rows' & s & Hstore' & Hs & ->).
  rewrite Hstore in Hstore'. injection Hstore' as <-.
  apply typed_quote_project. by apply (proj1 (Forall_forall _ _) Htyped).
Qed.


(** *** The exploratory layer *)

(** The three ways in which the exploratory layer goes on to the scan. *)
Lemma resolve_entity_cases (self : B3Data) (kwargs : gmap string value)
    (w w1 : World) (params : gmap string value) (root : option string) :
  resolve_entity self kwargs w = (inr (Proceed params root), w1) ->
  (params = kwargs ∧ root = None ∧ w1 = w ∧
   truthy (get kwargs "entity") && bool_decide (kwargs !! "tickers" = None)
   = false)
  ∨ (exists r, params = delete "entity" kwargs ∧ root = Some r
               ∧ get kwargs "asset_class" = VStr "options")
  ∨ (exists q dic word valid,
       get kwargs "entity" = VStr q ∧
       heap w !! df_dicionario self = Some (OMaster dic) ∧
       re_compile ("\b" +:+ upper q +:+ "\b") false = inr word ∧
       valid_tickers (find_assets_rows dic (upper q) word) = inr valid ∧
       kwargs !! "tickers" = None ∧ root = None ∧
       params = <["tickers" :=
                   VList (AStr <$>
                     (if bool_decide (get kwargs "asset_class" = VStr "equity")
                      then filter (fun t => equity_suffix t = true) valid
                      else valid))]> kwargs).
Proof.
  unfold resolve_entity.
  destruct (truthy (get kwargs "entity")
            && bool_decide (get kwargs "asset_class" = VStr "options")) eqn:Hopt.
  - apply andb_true_iff in Hopt as [_ Hac%bool_decide_eq_true].
    unfold bindM at 1.
    destruct (find_assets self _ w) as [[e|found] w2]; [done|].
    unfold bindM at 1.
    destruct (load_master found w2) as [[e|asset_info] w3]; [done|].
    destruct asset_info as [|first rest]; [done|].
    unfold bindM, lift, ret. destruct (ticker_root_of _) as [e|r]; [done|].
    intros [= <- <- <-]. right. left. by exists r.
  - destruct (truthy (get kwargs "entity")
              && bool_decide (kwargs !! "tickers" = None)) eqn:Hgen.
    + apply andb_true_iff in Hgen as [_ Htk%bool_decide_eq_true].
      unfold bindM at 1.
      destruct (find_assets self _ w) as [[e|found] w2] eqn:Hfind; [done|].
      destruct (find_assets_returns _ _ _ _ _ Hfind)
        as (_ & q & dic & word & Hq & Hdic & Hword & Hfound & _).
      unfold bindM at 1. unfold load_master at 1. rewrite Hfound.
      destruct (find_assets_rows dic (upper q) word) as [|first rest] eqn:Hrows;
        [done|].
      unfold bindM, lift, ret.
      destruct (valid_tickers _) as [e|valid] eqn:Hvalid; [done|].
      intros [= <- <- <-]. right. right.
      exists q, dic, word, valid. rewrite Hrows. done.
    + unfold ret. intros [= <- <- <-]. by left.
Qed.

Lemma resolve_entity_other_keys (self : B3Data) (kwargs : gmap string value)
    (w w1 : World) (params : gmap string value) (root : option string)
    (k : string) :
  resolve_entity self kwargs w = (inr (Proceed params root), w1) ->
  k <> "entity" -> k <> "tickers" -> get params k = get kwargs k.
Proof.
  intros Hres Hk1 Hk2. unfold get.
  destruct (resolve_entity_cases _ _ _ _ _ _ Hres)
    as [(-> & _)|[(r & -> & _)|(q & dic & word & valid & _ & _ & _ & _ & _ & _ & ->)]].
  - done.
  - by rewrite lookup_delete_ne.
  - by rewrite lookup_insert_ne.
Qed.


(** *** The post-filters *)

(** A row the [try] block yields has passed the three post-filters. *)
Lemma scan_filter_sort_stages (store : Store) (params : gmap string value)
    (root : option string) (rq : Scan) (df : QuoteFrame) (row : Row) :
  scan_columns rq <> [] ->
  scan_filter_sort store params root rq = inr df -> row ∈ qf_rows df ->
  exists df0 df1 df2 df3,
    filter_ticker_root params root df0 = inr df1 ∧
    filter_bdr params df1 = inr df2 ∧
    filter_especificacao params df2 = inr df3 ∧
    row ∈ qf_rows df1 ∧ row ∈ qf_rows df2 ∧ row ∈ qf_rows df3.
Proof.
  intros Hcols. unfold scan_filter_sort.
  destruct (read_parquet _ _ _) as [e|df0] eqn:Hread; simpl; [done|].
  apply read_parquet_columns in Hread.
  destruct (post_filter params root df0) as [e|df3] eqn:Hpost; simpl; [done|].
  intros Hdf Hin.
  assert (Hin3 : row ∈ qf_rows df3).
  { destruct (qf_empty df3); injection Hdf as <-; [done|].
    by apply sort_values_quotes_rows. }
  clear Hdf Hin. revert Hpost. unfold post_filter.
  destruct (qf_empty df0) eqn:Hempty.
  { intros [= <-]. exfalso. unfold qf_empty in Hempty.
    destruct (scan_columns rq) as [|c cs]; [done|].
    destruct (traverse_cons_inv _ _ _ _ Hread) as (y & ys & Hy).
    rewrite Hy in Hempty. destruct (qf_rows df0); [|done].
    by apply elem_of_nil in Hin3. }
  destruct (filter_ticker_root params root df0) as [e|df1] eqn:H1; simpl; [done|].
  destruct (filter_bdr params df1) as [e|df2] eqn:H2; simpl; [done|].
  intros H3. exists df0, df1, df2, df3.
  pose proof (filter_especificacao_rows _ _ _ _ H3 Hin3) as Hin2.
  pose proof (filter_bdr_rows _ _ _ _ H2 Hin2) as Hin1.
  done.
Qed.

(** X15. Every row [get_quotes] returns has passed the post-filters the
    arguments ask for: its ticker starts with the ticker root passed (in
    upper case); its specification contains [DR] in some case when the
    asset class is ['bdr'] in some case; and its specification is found
    by the pattern made of the specifications passed. *)
Theorem get_quotes_rows_pass_the_post_filters (self : B3Data)
    (kwargs : gmap string value) (w w' : World) (l : loc) (df : QuoteFrame)
    (row : Row) :
  get_quotes self kwargs w = (inr l, w') ->
  heap w' !! l = Some (OQuotes df) ->
  row ∈ qf_rows df ->
  (forall r, get kwargs "ticker_root" = VStr r -> r <> "" ->
     exists c, row !! "CODNEG" = Some (Str c) ∧ startswith (upper r) c = true) ∧
  (forall ac, get kwargs "asset_class" = VStr ac -> lower ac = "bdr" ->
     exists s, row !! "ESPECI" = Some (Str s) ∧ contains "DR" (upper_a_z s) = true) ∧
  (get kwargs "especificacao" <> VNone ->
     exists pattern search s,
       join_pattern (as_list (get kwargs "especificacao")) = inr pattern ∧
       re_compile pattern true = inr search ∧
       row !! "ESPECI" = Some (Str s) ∧ search s = true).
Proof.
  intros Hget Hl Hrow.
  destruct (get_quotes_returns _ _ _ _ _ _ Hget Hl)
    as [->|(params & root & w1 & rq & c & cs & Hres & Hcols & Hscan)].
  { by apply elem_of_nil in Hrow. }
  destruct (scan_filter_sort_stages _ _ _ _ _ _ ltac:(by rewrite Hcols) Hscan Hrow)
    as (df0 & df1 & df2 & df3 & H1 & H2 & H3 & Hin1 & Hin2 & Hin3).
  pose proof (resolve_entity_other_keys _ _ _ _ _ _ "ticker_root" Hres) as Htr.
  pose proof (resolve_entity_other_keys _ _ _ _ _ _ "asset_class" Hres) as Hac.
  pose proof (resolve_entity_other_keys _ _ _ _ _ _ "especificacao" Hres) as Hes.
  split; [|split].
  - intros r Hr Hne. revert H1. unfold filter_ticker_root, effective_ticker_root.
    rewrite Htr, Hr by done. simpl.
    apply String.eqb_neq in Hne. repeat (rewrite Hne; simpl).
    intros Hsel. by destruct (select_str_rows _ _ _ _ _ Hsel Hin1).
  - intros ac Hclass Hbdr. revert H2. unfold filter_bdr.
    rewrite Hac, Hclass by done. simpl.
    assert (ac <> "") as Hne%String.eqb_neq by (by intros ->).
    repeat (rewrite Hne; simpl). rewrite bool_decide_eq_true_2 by done.
    intros Hsel. by destruct (select_str_rows _ _ _ _ _ Hsel Hin2).
  - intros Hsome. revert H3. unfold filter_especificacao.
    rewrite Hes by done. rewrite bool_decide_eq_false_2 by done.
    destruct (join_pattern _) as [e|pattern]; simpl; [done|].
    destruct (re_compile pattern true) as [e|search] eqn:Hre; simpl; [done|].
    intros Hsel. destruct (select_str_rows _ _ _ _ _ Hsel Hin3) as (_ & s & Hs & Ht).
    by exists pattern, search, s.
Qed.


(** *** An entity without a match *)

(** X16. When the entity passed matches no entry of the master, and the
    call is one that looks the entity up (for options, or without tickers
    of its own), [get_quotes] returns a new empty frame and does not read
    the store. *)
Theorem get_quotes_entity_without_match (self : B3Data)
    (kwargs : gmap string value) (w : World) (e : string)
    (dic : list MasterEntry) (word : string -> bool) :
  get kwargs "entity" = VStr e -> e <> "" ->
  get kwargs "asset_class" = VStr "options" ∨ kwargs !! "tickers" = None ->
  heap w !! df_dicionario self = Some (OMaster dic) ->
  re_compile ("\b" +:+ upper e +:+ "\b") false = inr word ->
  find_assets_rows dic (upper e) word = [] ->
  exists l w',
    get_quotes self kwargs w = (inr l, w') ∧
    scans w' = scans w ∧
    heap w !! l = None ∧
    heap w' !! l = Some (OQuotes pd_DataFrame).
Proof.
  intros Hentity Hne Hlooks Hdic Hword Hnone.
  destruct (find_assets_run self w e dic word Hdic Hword)
    as (found & w2 & Hfind & Hscans & Hfound).
  assert (Hres : resolve_entity self kwargs w = (inr ReturnEmpty, w2)).
  { unfold resolve_entity. rewrite Hentity. simpl.
    apply String.eqb_neq in Hne. rewrite Hne. simpl.
    destruct (bool_decide (get kwargs "asset_class" = VStr "options")) eqn:Hopt.
    - unfold bindM at 1. rewrite Hfind.
      unfold bindM at 1. unfold load_master at 1. by rewrite Hfound, Hnone.
    - destruct Hlooks as [Hac|Htk];
        [by rewrite Hac, bool_decide_eq_true_2 in Hopt|].
      rewrite bool_decide_eq_true_2 by done.
      unfold bindM at 1. rewrite Hfind.
      unfold bindM at 1. unfold load_master at 1. by rewrite Hfound, Hnone. }
  unfold get_quotes, bindM. rewrite Hres.
  destruct (alloc (OQuotes pd_DataFrame) w2) as [r w'] eqn:Halloc.
  unfold alloc in Halloc. injection Halloc as <- <-.
  eexists _, _. split; [reflexivity|]. simpl. split; [done|]. split.
  - pose proof (find_assets_preserves self (VStr e) w) as Hsub.
    rewrite Hfind in Hsub. simpl in Hsub.
    pose proof (fresh_not_in_heap w2) as Hfresh.
    destruct (heap w !! fresh (dom (heap w2))) as [o|] eqn:Hl; [|done].
    eapply lookup_weaken in Hl; [|exact Hsub]. congruence.
  - apply lookup_insert_eq.
Qed.

(** *** Errors of the filters *)

(** X17. A BDI code passed as a text that is, in upper case, no
    description of the dictionary, and that [int] refuses, makes
    [get_quotes] raise the ValueError of [int] before the store is read:
    the error of a filter is not turned into an empty frame. *)
Theorem get_quotes_unknown_code_description (self : B3Data)
    (kwargs : gmap string value) (w : World) (codbdi tpmerc : gmap string Z)
    (s : string) (by_class direct : list Filter) :
  truthy (get kwargs "entity") = false ->
  asset_class_filters (get kwargs "asset_class") = inr by_class ->
  concat_results (direct_filter kwargs <$> filter_map) = inr direct ->
  heap w !! codbdi_map self = Some (ODict codbdi) ->
  heap w !! tpmerc_map self = Some (ODict tpmerc) ->
  get kwargs "codbdi" = VStr s ->
  codbdi !! upper s = None ->
  py_int (AStr s) = inl ValueError ->
  get_quotes self kwargs w = (inl ValueError, w).
Proof.
  intros Hentity Hclass Hdirect Hcodbdi Htpmerc Hcode Hnone Hint.
  assert (Hres : resolve_entity self kwargs w = (inr (Proceed kwargs None), w)).
  { unfold resolve_entity. by rewrite Hentity. }
  assert (Hhas : has_starter kwargs = true).
  { apply has_starter_true. unfold valid_starters.
    do 3 apply Exists_cons_tl. apply Exists_cons_hd.
    unfold get in Hcode. by destruct (kwargs !! "codbdi"). }
  unfold get_quotes. unfold bindM at 1. rewrite Hres, Hhas. simpl.
  unfold bindM at 1.
  assert (Hbuild : _build_parquet_filters self kwargs w = (inl ValueError, w)).
  { unfold _build_parquet_filters, bindM, lift, load_dict.
    rewrite Hclass, Hdirect, Hcodbdi, Htpmerc.
    unfold code_filter at 1. rewrite Hcode.
    rewrite bool_decide_eq_false_2 by done.
    cbn [as_list traverse]. unfold code_of. cbn [py_str].
    by rewrite Hnone, Hint. }
  by rewrite Hbuild.
Qed.


(** *** Tickers beside an entity *)

Lemma _build_parquet_filters_agree (self : B3Data) (p q : gmap string value) :
  (forall k, k <> "entity" -> get p k = get q k) ->
  _build_parquet_filters self p = _build_parquet_filters self q.
Proof.
  intros Hag. unfold _build_parquet_filters, code_filter, filter_map.
  rewrite !fmap_cons, fmap_nil. unfold direct_filter.
  by rewrite !Hag by done.
Qed.

Lemma columns_to_load_agree (p q : gmap string value) :
  (forall k, k <> "entity" -> get p k = get q k) ->
  columns_to_load p = columns_to_load q.
Proof. intros Hag. unfold columns_to_load. by rewrite !Hag by done. Qed.

Lemma scan_filter_sort_agree (store : Store) (p q : gmap string value)
    (root : option string) (rq : Scan) :
  (forall k, k <> "entity" -> get p k = get q k) ->
  scan_filter_sort store p root rq = scan_filter_sort store q root rq.
Proof.
  intros Hag.
  unfold scan_filter_sort, post_filter, filter_ticker_root,
    effective_ticker_root, filter_bdr, filter_especificacao.
  by rewrite !Hag by done.
Qed.

(** X18. When tickers are passed and the asset class is not ['options'],
    an entity passed beside them plays no part: the call does exactly
    what it does without the entity. *)
Theorem explicit_tickers_override_entity (self : B3Data)
    (kwargs : gmap string value) (w : World) :
  is_Some (kwargs !! "tickers") ->
  get kwargs "asset_class" <> VStr "options" ->
  get_quotes self kwargs w = get_quotes self (delete "entity" kwargs) w.
Proof.
  intros [v Htickers] Hclass.
  assert (Hag : forall k, k <> "entity" ->
            get (delete "entity" kwargs) k = get kwargs k).
  { intros k Hk. unfold get. by rewrite lookup_delete_ne. }
  assert (Hres : forall p, p !! "tickers" = Some v ->
            get p "asset_class" <> VStr "options" ->
            resolve_entity self p w = (inr (Proceed p None), w)).
  { intros p Hp Hac. unfold resolve_entity.
    rewrite (bool_decide_eq_false_2 _ Hac), andb_false_r.
    rewrite Hp. rewrite bool_decide_eq_false_2 by done.
    by rewrite andb_false_r. }
  assert (Hhas : forall p, p !! "tickers" = Some v -> has_starter p = true).
  { intros p Hp. apply has_starter_true. unfold valid_starters.
    apply Exists_cons_hd. by rewrite Hp. }
  assert (Hstep : forall p, p !! "tickers" = Some v ->
            get p "asset_class" <> VStr "options" ->
            get_quotes self p w
            = (run filters <- _build_parquet_filters self p;
               run columns <- lift (columns_to_load p);
               let rq := {| scan_columns := columns;
                            scan_filters :=
                              match filters with [] => None | _ => Some filters end |} in
               run _ <- log_scan rq;
               alloc (OQuotes
                        (or_empty (scan_filter_sort (full_data self) p None rq)))) w).
  { intros p Hp Hac. unfold get_quotes. unfold bindM at 1.
    by rewrite (Hres p Hp Hac), (Hhas p Hp). }
  rewrite (Hstep kwargs) by done.
  rewrite (Hstep (delete "entity" kwargs))
    by (by rewrite ?Hag, ?lookup_delete_ne).
  rewrite (_build_parquet_filters_agree self _ kwargs Hag).
  rewrite (columns_to_load_agree _ kwargs Hag).
  unfold bindM. destruct (_build_parquet_filters self kwargs w) as [[e|fs] w1];
    [done|].
  unfold lift. destruct (columns_to_load kwargs) as [e|cols]; [done|].
  by rewrite (scan_filter_sort_agree _ _ kwargs None _ Hag).
Qed.


(** *** The rows returned and the store *)

Lemma eval_filters_all (filters : list Filter) (row : Row) (f : Filter) :
  eval_filters filters row = inr true -> f ∈ filters ->
  eval_filter row f = inr true.
Proof.
  unfold eval_filters. induction filters as [|g filters IH]; simpl.
  - by intros _ ?%elem_of_nil.
  - destruct (eval_filter row g) as [e|b] eqn:Hg; simpl; [done|].
    destruct (traverse _ filters) as [e|bs]; simpl in *; [done|].
    intros [= Hall]. apply andb_true_iff in Hall as [-> Hbs].
    intros [->|Hin]%elem_of_cons; [done|]. apply IH; [|done]. by rewrite Hbs.
Qed.

Lemma read_parquet_origin (store : Store) (columns : list atom)
    (filters : list Filter) (df : QuoteFrame) (row : Row) :
  read_parquet store columns
    (match filters with [] => None | _ => Some filters end) = inr df ->
  row ∈ qf_rows df ->
  exists rows s,
    store = inr rows ∧ s ∈ rows ∧ row = project (qf_columns df) s ∧
    eval_filters filters s = inr true.
Proof.
  intros Hread Hrow.
  assert (Hsame : filter_rows
            (default [] (match filters with [] => None | _ => Some filters end))
          = filter_rows filters) by (by destruct filters).
  revert Hread Hrow. unfold read_parquet.
  destruct store as [e|rows]; simpl; [done|].
  destruct (traverse column_name columns) as [e|names]; simpl; [done|].
  destruct (scan_error _ _); simpl; [done|].
  rewrite Hsame.
  destruct (filter_rows filters rows) as [e|kept] eqn:Hkept; simpl; [done|].
  intros [= <-]. simpl. intros (s & -> & Hs)%list_elem_of_fmap.
  destruct (filter_rows_elem _ _ _ _ Hkept Hs). by exists rows, s.
Qed.

(** Where a row that [get_quotes] returns comes from: a row of the store
    that satisfies every pushdown predicate, cut down to the columns
    loaded. *)
Lemma get_quotes_row_origin (self : B3Data) (kwargs : gmap string value)
    (w w' : World) (l : loc) (df : QuoteFrame) (row : Row) :
  get_quotes self kwargs w = (inr l, w') ->
  heap w' !! l = Some (OQuotes df) ->
  row ∈ qf_rows df ->
  exists params root w1 w2 filters columns rows s,
    resolve_entity self kwargs w = (inr (Proceed params root), w1) ∧
    _build_parquet_filters self params w1 = (inr filters, w2) ∧
    columns_to_load params = inr columns ∧
    traverse column_name columns = inr (qf_columns df) ∧
    full_data self = inr rows ∧ s ∈ rows ∧
    row = project (qf_columns df) s ∧
    eval_filters filters s = inr true.
Proof.
  unfold get_quotes. unfold bindM at 1.
  destruct (resolve_entity self kwargs w) as [[e|[|params root]] w1] eqn:Hr;
    [done|..].
  - unfold alloc. intros [= <- <-]. simpl. rewrite lookup_insert_eq.
    intros [= <-]. by intros ?%elem_of_nil.
  - destruct (has_starter params); simpl; [|done].
    unfold bindM at 1.
    destruct (_build_parquet_filters self params w1) as [[e|filters] w2]
      eqn:Hbuild; [done|].
    unfold bindM at 1. unfold lift at 1.
    destruct (columns_to_load params) as [e|columns] eqn:Hcols; [done|].
    unfold bindM, log_scan, alloc. simpl. intros [= <- <-]. simpl.
    rewrite lookup_insert_eq. intros [= <-].
    unfold scan_filter_sort. cbn [scan_columns scan_filters].
    destruct (read_parquet _ _ _) as [e|df0] eqn:Hread; simpl;
      [by intros ?%elem_of_nil|].
    destruct (post_filter params root df0) as [e|df1] eqn:Hpost; simpl;
      [by intros ?%elem_of_nil|].
    intros Hrow.
    assert (Hrow1 : row ∈ qf_rows df1).
    { destruct (qf_empty df1); [done|]. by apply sort_values_quotes_rows. }
    assert (Hcolumns : qf_columns (if qf_empty df1 then df1
                                   else sort_values_quotes df1) = qf_columns df0).
    { rewrite <- (post_filter_columns _ _ _ _ Hpost). by destruct (qf_empty df1). }
    apply (post_filter_rows _ _ _ _ _ Hpost) in Hrow1.
    destruct (read_parquet_origin _ _ _ _ _ Hread Hrow1)
      as (rows & s & Hstore & Hs & Hproj & Heval).
    exists params, root, w1, w2, filters, columns, rows, s.
    assert (or_empty (if qf_empty df1 then inr df1
                      else inr (sort_values_quotes df1))
            = if qf_empty df1 then df1 else sort_values_quotes df1) as ->
      by (by destruct (qf_empty df1)).
    rewrite Hcolumns. apply read_parquet_columns in Hread. done.
Qed.


(** *** The pushdown predicates *)

Lemma concat_results_elem {A : Type} (l : list (exn + list A)) (xs ys : list A)
    (y : A) :
  concat_results l = inr xs -> inr ys ∈ l -> y ∈ ys -> y ∈ xs.
Proof.
  revert xs. induction l as [|r l IH]; intros xs; simpl.
  - by intros _ ?%elem_of_nil.
  - destruct r as [e|x]; simpl; [done|].
    destruct (concat_results l) as [e|rest]; simpl; [done|].
    intros [= <-] [[= ->]|Hin]%elem_of_cons Hy; apply elem_of_app;
      [by left|right]. by apply IH.
Qed.

(** The parts of the list [_build_parquet_filters] returns. *)
Lemma _build_parquet_filters_parts (self : B3Data) (params : gmap string value)
    (w w' : World) (filters : list Filter) :
  _build_parquet_filters self params w = (inr filters, w') ->
  exists by_class direct codbdi tpmerc by_codbdi by_tpmerc,
    asset_class_filters (get params "asset_class") = inr by_class ∧
    concat_results (direct_filter params <$> filter_map) = inr direct ∧
    heap w !! codbdi_map self = Some (ODict codbdi) ∧
    heap w !! tpmerc_map self = Some (ODict tpmerc) ∧
    code_filter params "codbdi" codbdi = inr by_codbdi ∧
    code_filter params "tpmerc" tpmerc = inr by_tpmerc ∧
    filters = by_class ++ direct ++ by_codbdi ++ by_tpmerc.
Proof.
  unfold _build_parquet_filters, bindM, lift, ret.
  destruct (asset_class_filters _) as [e|by_class] eqn:H1; [done|].
  destruct (concat_results _) as [e|direct] eqn:H2; [done|].
  unfold load_dict.
  destruct (heap w !! codbdi_map self) as [[| |codbdi]|] eqn:H3; try done.
  destruct (heap w !! tpmerc_map self) as [[| |tpmerc]|] eqn:H4; try done.
  destruct (code_filter params "codbdi" codbdi) as [e|by_codbdi] eqn:H5; [done|].
  destruct (code_filter params "tpmerc" tpmerc) as [e|by_tpmerc] eqn:H6; [done|].
  intros [= <- _]. by exists by_class, direct, codbdi, tpmerc, by_codbdi, by_tpmerc.
Qed.

Lemma eval_filter_in (row : Row) (col : string) (l : list atom) :
  eval_filter row {| f_col := col; f_op := op_in; f_val := FV (VList l) |}
    = inr true ->
  exists c a, row !! col = Some c ∧ a ∈ l ∧ atom_matches c a = true.
Proof.
  unfold eval_filter. simpl. destruct (row !! col) as [c|]; simpl; [|done].
  intros [= (a & Hin & Ha)%existsb_exists]. exists c, a.
  by rewrite list_elem_of_In.
Qed.

Lemma atom_matches_spec (c : cell) (a : atom) :
  atom_matches c a = true ->
  (exists z, c = Int z ∧ a = AInt z) ∨ (exists s, c = Str s ∧ a = AStr s).
Proof.
  destruct c, a; simpl; try done.
  - intros ->%String.eqb_eq. right. eauto.
  - intros ->%Z.eqb_eq. left. eauto.
Qed.

(** X19. Every row returned comes from a row of the store that the asset
    class passed (in some case) admits: BDI code 2 or 96 and market type
    10 or 20 for ['equity'], BDI code 12 for ['fii'], market type 70, 80,
    12 or 13 for ['options']. *)
Theorem get_quotes_rows_of_asset_class (self : B3Data)
    (kwargs : gmap string value) (w w' : World) (l : loc) (df : QuoteFrame)
    (row : Row) (ac : string) :
  get kwargs "asset_class" = VStr ac ->
  get_quotes self kwargs w = (inr l, w') ->
  heap w' !! l = Some (OQuotes df) ->
  row ∈ qf_rows df ->
  exists rows s,
    full_data self = inr rows ∧ s ∈ rows ∧ row = project (qf_columns df) s ∧
    (lower ac = "equity" ->
     exists b m, s !! "CODBDI" = Some (Int b) ∧ b ∈ [2; 96]%Z ∧
                 s !! "TPMERC" = Some (Int m) ∧ m ∈ [10; 20]%Z) ∧
    (lower ac = "fii" -> s !! "CODBDI" = Some (Int 12)) ∧
    (lower ac = "options" ->
     exists m, s !! "TPMERC" = Some (Int m) ∧ m ∈ [70; 80; 12; 13]%Z).
Proof.
  intros Hclass Hget Hl Hrow.
  destruct (get_quotes_row_origin _ _ _ _ _ _ _ Hget Hl Hrow)
    as (params & root & w1 & w2 & filters & columns & rows & s & Hres & Hbuild
        & _ & _ & Hstore & Hs & Hproj & Heval).
  exists rows, s. split; [done|]. split; [done|]. split; [done|].
  destruct (_build_parquet_filters_parts _ _ _ _ _ Hbuild)
    as (by_class & direct & ? & ? & ? & ? & Hby & _ & _ & _ & _ & _ & Hparts).
  rewrite Hparts in Heval.
  rewrite (resolve_entity_other_keys _ _ _ _ _ _ "asset_class" Hres) in Hby
    by done.
  rewrite Hclass in Hby.
  assert (Hall : forall f, f ∈ by_class -> eval_filter s f = inr true).
  { intros f Hf. apply (eval_filters_all _ _ _ Heval). set_solver. }
  assert (Hin : forall col l, eval_filter s
            {| f_col := col; f_op := op_in; f_val := FV (VList (AInt <$> l)) |}
            = inr true -> exists z, s !! col = Some (Int z) ∧ z ∈ l).
  { intros col l0 (c & a & Hc & (z & -> & Hz)%list_elem_of_fmap & Hm)%eval_filter_in.
    apply atom_matches_spec in Hm as [(z' & -> & [= <-])|(s' & _ & [=])].
    by exists z. }
  unfold asset_class_filters in Hby. simpl in Hby.
  destruct (String.eqb_spec ac "") as [->|Hne]; simpl in Hby.
  { by split; [|split]. }
  split; [|split]; intros Hlower; rewrite Hlower in Hby; simpl in Hby;
      injection Hby as <-.
    - destruct (Hin "CODBDI" [2; 96]%Z) as (b & Hb & Hbin);
        [apply Hall; set_solver|].
      destruct (Hin "TPMERC" [10; 20]%Z) as (m & Hm & Hmin);
        [apply Hall; set_solver|].
      by exists b, m.
    - assert (Hf : eval_filter s {| f_col := "CODBDI"; f_op := op_eq;
                                    f_val := FV (VAtom (AInt 12)) |} = inr true)
        by (apply Hall; set_solver).
      unfold eval_filter in Hf. simpl in Hf.
      destruct (s !! "CODBDI") as [c|]; simpl in Hf; [|done].
      injection Hf as Hf.
      apply atom_matches_spec in Hf as [(z & -> & [= <-])|(s' & _ & [=])]. done.
    - apply (Hin "TPMERC" [70; 80; 12; 13]%Z). apply Hall. set_solver.
Qed.


Lemma direct_filter_in_filters (self : B3Data) (params : gmap string value)
    (w w' : World) (filters fs : list Filter)
    (entry : string * (string * filter_op)) (f : Filter) :
  _build_parquet_filters self params w = (inr filters, w') ->
  entry ∈ filter_map -> direct_filter params entry = inr fs -> f ∈ fs ->
  f ∈ filters.
Proof.
  intros Hbuild Hentry Hfs Hf.
  apply _build_parquet_filters_parts in Hbuild
    as (by_class & direct & ? & ? & ? & ? & _ & Hdirect & _ & _ & _ & _ & ->).
  apply elem_of_app. right. apply elem_of_app. left.
  apply (concat_results_elem _ _ fs _ Hdirect); [|done].
  rewrite <- Hfs. by apply list_elem_of_fmap_2.
Qed.

Lemma key_column_loaded (params : gmap string value) (columns : list atom)
    (names : list string) (k : string) :
  columns_to_load params = inr columns ->
  traverse column_name columns = inr names ->
  k ∈ key_columns -> k ∈ names.
Proof.
  intros (_ & Hkeys & _)%columns_to_load_spec Hnames Hk.
  rewrite Forall_forall in Hkeys.
  apply Hkeys, list_elem_of_lookup in Hk as [i Hi].
  destruct (traverse_lookup _ _ _ _ _ Hnames Hi) as (y & Hy & Hcol).
  simpl in Hcol. case_bool_decide; [|done]. injection Hcol as <-.
  by eapply list_elem_of_lookup_2.
Qed.

Lemma project_key (names : list string) (s : Row) (k : string) :
  k ∈ names -> project names s !! k = s !! k.
Proof. intros Hk. rewrite project_lookup. by rewrite decide_True. Qed.

(** X20. Every row returned lies in the range of trade dates asked for:
    not before the start date and not after the end date, as
    [pd.to_datetime] reads them; a row without trade date is not
    returned when one of them is passed. *)
Theorem get_quotes_rows_in_date_range (self : B3Data)
    (kwargs : gmap string value) (w w' : World) (l : loc) (df : QuoteFrame)
    (row : Row) :
  get_quotes self kwargs w = (inr l, w') ->
  heap w' !! l = Some (OQuotes df) ->
  row ∈ qf_rows df ->
  (forall t, get kwargs "start_date" <> VNone ->
     pd_to_datetime (get kwargs "start_date") = inr (FV_time t) ->
     exists d, row !! "DATA_PREGAO" = Some (Timestamp d) ∧ (t <= d)%Z) ∧
  (forall t, get kwargs "end_date" <> VNone ->
     pd_to_datetime (get kwargs "end_date") = inr (FV_time t) ->
     exists d, row !! "DATA_PREGAO" = Some (Timestamp d) ∧ (d <= t)%Z).
Proof.
  intros Hget Hl Hrow.
  destruct (get_quotes_row_origin _ _ _ _ _ _ _ Hget Hl Hrow)
    as (params & root & w1 & w2 & filters & columns & rows & s & Hres & Hbuild
        & Hcols & Hnames & Hstore & Hs & -> & Heval).
  rewrite project_key
    by (eapply key_column_loaded; [exact Hcols|exact Hnames|set_solver]).
  pose proof (resolve_entity_other_keys _ _ _ _ _ _ "start_date" Hres) as Hsd.
  pose proof (resolve_entity_other_keys _ _ _ _ _ _ "end_date" Hres) as Hed.
  split; intros t Hsome Htime.
  - assert (Hf : eval_filter s {| f_col := "DATA_PREGAO"; f_op := op_ge;
                                  f_val := FV_time t |} = inr true).
    { apply (eval_filters_all _ _ _ Heval).
      eapply (direct_filter_in_filters _ _ _ _ _ _
                ("start_date", ("DATA_PREGAO", op_ge))); [exact Hbuild| | |].
      - unfold filter_map. set_solver.
      - unfold direct_filter. rewrite Hsd by done.
        rewrite bool_decide_eq_false_2 by done.
        change (contains "date" "start_date") with true. cbn [orb].
        rewrite bool_decide_eq_false_2 by done.
        rewrite Htime. reflexivity.
      - set_solver. }
    unfold eval_filter in Hf. simpl in Hf.
    destruct (s !! "DATA_PREGAO") as [[| | | |d]|]; simpl in Hf; try done.
    injection Hf as Hf%Z.leb_le. by exists d.
  - assert (Hf : eval_filter s {| f_col := "DATA_PREGAO"; f_op := op_le;
                                  f_val := FV_time t |} = inr true).
    { apply (eval_filters_all _ _ _ Heval).
      eapply (direct_filter_in_filters _ _ _ _ _ _
                ("end_date", ("DATA_PREGAO", op_le))); [exact Hbuild| | |].
      - unfold filter_map. set_solver.
      - unfold direct_filter. rewrite Hed by done.
        rewrite bool_decide_eq_false_2 by done.
        change (contains "date" "end_date") with true. cbn [orb].
        rewrite bool_decide_eq_false_2 by done.
        rewrite Htime. reflexivity.
      - set_solver. }
    unfold eval_filter in Hf. simpl in Hf.
    destruct (s !! "DATA_PREGAO") as [[| | | |d]|]; simpl in Hf; try done.
    injection Hf as Hf%Z.leb_le. by exists d.
Qed.


(** *** The tickers of a query *)

Lemma tickers_filter_row (self : B3Data) (params : gmap string value)
    (w w' : World) (filters : list Filter) (s : Row) :
  _build_parquet_filters self params w = (inr filters, w') ->
  get params "tickers" <> VNone ->
  eval_filters filters s = inr true ->
  exists a, a ∈ as_list (get params "tickers") ∧
            s !! "CODNEG" = Some (Str (upper (py_str a))).
Proof.
  intros Hbuild Hsome Heval.
  assert (Hf : eval_filter s
            {| f_col := "CODNEG"; f_op := op_in;
               f_val := FV (VList ((fun v => AStr (upper (py_str v)))
                                     <$> as_list (get params "tickers"))) |}
          = inr true).
  { apply (eval_filters_all _ _ _ Heval).
    eapply (direct_filter_in_filters _ _ _ _ _ _ ("tickers", ("CODNEG", op_in)));
      [exact Hbuild| | |apply list_elem_of_singleton; reflexivity].
    - unfold filter_map. set_solver.
    - unfold direct_filter.
      rewrite bool_decide_eq_false_2 by done.
      rewrite bool_decide_eq_true_2 by done.
      change (contains "date" "tickers" || contains "vencimento" "tickers")
        with false. cbv iota.
      by destruct (get params "tickers"). }
  apply eval_filter_in in Hf
    as (c & a' & Hc & (a & -> & Ha)%list_elem_of_fmap & Hm).
  apply atom_matches_spec in Hm as [(z' & _ & [=])|(s' & -> & [= <-])].
  by exists a.
Qed.

(** X21. When tickers are passed (one, or a list), every row returned has
    one of them as its ticker, in upper case. *)
Theorem get_quotes_rows_have_the_tickers (self : B3Data)
    (kwargs : gmap string value) (w w' : World) (l : loc) (df : QuoteFrame)
    (row : Row) (v : value) :
  kwargs !! "tickers" = Some v -> v <> VNone ->
  get_quotes self kwargs w = (inr l, w') ->
  heap w' !! l = Some (OQuotes df) ->
  row ∈ qf_rows df ->
  exists a, a ∈ as_list v ∧ row !! "CODNEG" = Some (Str (upper (py_str a))).
Proof.
  intros Htickers Hsome Hget Hl Hrow.
  destruct (get_quotes_row_origin _ _ _ _ _ _ _ Hget Hl Hrow)
    as (params & root & w1 & w2 & filters & columns & rows & s & Hres & Hbuild
        & Hcols & Hnames & Hstore & Hs & -> & Heval).
  rewrite project_key
    by (eapply key_column_loaded; [exact Hcols|exact Hnames|set_solver]).
  assert (Hparams : get params "tickers" = v).
  { unfold get.
    destruct (resolve_entity_cases _ _ _ _ _ _ Hres)
      as [(-> & _)|[(r & -> & _)|(q & dic & word & valid & _ & _ & _ & _ & Hno & _)]].
    - by rewrite Htickers.
    - by rewrite lookup_delete_ne, Htickers.
    - congruence. }
  destruct (tickers_filter_row _ _ _ _ _ s Hbuild) as (a & Ha & Hc);
    [by rewrite Hparams|done|].
  rewrite Hparams in Ha. by exists a.
Qed.

Lemma traverse_lookup_inv {A B : Type} (f : A -> exn + B) (l : list A)
    (k : list B) (i : nat) (y : B) :
  traverse f l = inr k -> k !! i = Some y ->
  exists x, l !! i = Some x ∧ f x = inr y.
Proof.
  intros Htr Hy.
  assert (is_Some (l !! i)) as [x Hx].
  { apply lookup_lt_is_Some. rewrite <- (traverse_length _ _ _ Htr).
    by eapply lookup_lt_Some. }
  destruct (traverse_lookup _ _ _ _ _ Htr Hx) as (y' & Hy' & Hf).
  exists x. split; [done|]. congruence.
Qed.

(** The tickers [valid_tickers] keeps: well-formed tokens of the trails of
    the matched entries. *)
Lemma valid_tickers_elem (asset_info : list MasterEntry) (valid : list string)
    (t : string) :
  valid_tickers asset_info = inr valid -> t ∈ valid ->
  valid_ticker t = true ∧
  exists e trail, e ∈ asset_info ∧ TICKERS_HISTORICOS e = Some trail
                  ∧ t ∈ str_split trail.
Proof.
  unfold valid_tickers.
  destruct (traverse _ asset_info) as [err|trails] eqn:Htr; simpl; [done|].
  intros [= <-] [Hv Hin]%list_elem_of_filter.
  apply andb_true_iff in Hv as [_ Hv]. split; [done|].
  apply elem_of_unique, list_elem_of_join in Hin as (tokens & Ht & Htokens).
  apply list_elem_of_lookup in Htokens as [i Hi].
  destruct (traverse_lookup_inv _ _ _ _ _ Htr Hi) as (e & He & Hf).
  destruct (TICKERS_HISTORICOS e) as [trail|] eqn:Htrail; [|done].
  injection Hf as <-. exists e, trail.
  split; [by eapply list_elem_of_lookup_2|done].
Qed.

Lemma upper_valid_ticker (t : string) :
  upper_on_ascii -> valid_ticker t = true -> upper t = t.
Proof.
  intros Hupper Hv. apply upper_fixes; [done|]. revert Hv. unfold valid_ticker.
  destruct t as [|a [|b [|c [|d rest]]]]; simpl; try done.
  rewrite !andb_true_iff. intros [[[[-> ->] ->] ->] Hrest]. simpl.
  destruct rest as [|x [|y [|z [|u rest]]]]; simpl in *; try done.
  - by rewrite Hrest, orb_true_r.
  - apply andb_true_iff in Hrest as [-> Hy]. rewrite orb_true_r. simpl.
    apply orb_true_iff in Hy as [-> | ->]; by rewrite ?orb_true_r.
  - rewrite !andb_true_iff in Hrest. destruct Hrest as [[-> ->] ->].
    by rewrite !orb_true_r.
Qed.

(** X22. When an entity is passed without tickers, and not for options,
    every row returned has as its ticker a token of the ticker trail of an
    entry of the master that matches the entity; the token is well formed
    (four capitals and one or two digits, which [str.upper] leaves as they
    are) and, for the asset class ['equity'], ends in 3, 4, 5, 6 or 11. *)
Theorem get_quotes_rows_of_entity (self : B3Data)
    (kwargs : gmap string value) (w w' : World) (l : loc) (df : QuoteFrame)
    (row : Row) (q : string) :
  upper_on_ascii ->
  get kwargs "entity" = VStr q -> q <> "" ->
  kwargs !! "tickers" = None ->
  get kwargs "asset_class" <> VStr "options" ->
  get_quotes self kwargs w = (inr l, w') ->
  heap w' !! l = Some (OQuotes df) ->
  row ∈ qf_rows df ->
  exists dic word e trail t,
    heap w !! df_dicionario self = Some (OMaster dic) ∧
    re_compile ("\b" +:+ upper q +:+ "\b") false = inr word ∧
    e ∈ find_assets_rows dic (upper q) word ∧
    TICKERS_HISTORICOS e = Some trail ∧ t ∈ str_split trail ∧
    valid_ticker t = true ∧
    (get kwargs "asset_class" = VStr "equity" -> equity_suffix t = true) ∧
    row !! "CODNEG" = Some (Str t).
Proof.
  intros Hascii Hentity Hne Hno Hclass Hget Hl Hrow.
  destruct (get_quotes_row_origin _ _ _ _ _ _ _ Hget Hl Hrow)
    as (params & root & w1 & w2 & filters & columns & rows & s & Hres & Hbuild
        & Hcols & Hnames & Hstore & Hs & -> & Heval).
  rewrite project_key
    by (eapply key_column_loaded; [exact Hcols|exact Hnames|set_solver]).
  destruct (resolve_entity_cases _ _ _ _ _ _ Hres)
    as [(_ & _ & _ & Hcond)|[(r & _ & _ & Hac)|
        (q' & dic & word & valid & Hq & Hdic & Hword & Hvalid & _ & _ & Hparams)]].
  { rewrite Hentity, bool_decide_eq_true_2 in Hcond by done. simpl in Hcond.
    apply String.eqb_neq in Hne. by rewrite Hne in Hcond. }
  { done. }
  rewrite Hentity in Hq. injection Hq as <-.
  set (ts := if bool_decide (get kwargs "asset_class" = VStr "equity")
             then filter (fun t => equity_suffix t = true) valid else valid)
    in Hparams.
  assert (Hget_tickers : get params "tickers" = VList (AStr <$> ts)).
  { unfold get. by rewrite Hparams, lookup_insert_eq. }
  destruct (tickers_filter_row _ _ _ _ _ s Hbuild) as (a & Ha & Hc);
    [by rewrite Hget_tickers|done|].
  rewrite Hget_tickers in Ha. simpl in Ha.
  apply list_elem_of_fmap in Ha as (t & -> & Ht). simpl in Hc.
  assert (Hvalid_t : t ∈ valid ∧
            (get kwargs "asset_class" = VStr "equity" -> equity_suffix t = true)).
  { unfold ts in Ht. case_bool_decide as Heq.
    - apply list_elem_of_filter in Ht as [Hsuffix Ht]. done.
    - done. }
  destruct Hvalid_t as [Hin Hsuffix].
  destruct (valid_tickers_elem _ _ _ Hvalid Hin) as (Hv & e & trail & He & Htrail & Htok).
  rewrite (upper_valid_ticker t Hascii Hv) in Hc.
  by exists dic, word, e, trail, t.
Qed.


(** *** The list of tickers *)

Lemma traverse_raises {A B : Type} (f : A -> exn + B) (l : list A) (x : A)
    (e : exn) :
  x ∈ l -> f x = inl e -> (forall y e', f y = inl e' -> e' = e) ->
  traverse f l = inl e.
Proof.
  intros Hin Hx Hsame. induction l as [|a l IH]; [by apply elem_of_nil in Hin|].
  simpl. destruct (f a) as [e'|b] eqn:Ha; simpl.
  - by rewrite (Hsame a e' Ha).
  - apply elem_of_cons in Hin as [->|Hin]; [congruence|]. by rewrite IH.
Qed.

Lemma traverse_all_some (tickers : list (option string)) :
  Forall is_Some tickers ->
  traverse (fun t : option string =>
              match t with Some s => inr s | None => raise TypeError end)
    tickers = inr (notna_values tickers) ∧
  Some <$> notna_values tickers = tickers.
Proof.
  unfold notna_values. induction 1 as [|t tickers [s ->] _ [IH1 IH2]]; [done|].
  split.
  - cbn [traverse]. rewrite IH1. done.
  - cbn [omap list_omap]. rewrite fmap_cons. by f_equal.
Qed.

(** X23. [list_tickers] looks at the latest tickers of the whole master,
    or of the entries whose specification contains ['ACÕES'] for the type
    ['acoes']: when none of these tickers is missing, it returns them
    sorted ascending, each once; when one is missing and another is not,
    it raises the TypeError of [sorted]. *)
Theorem list_tickers_sorted_or_raises (self : B3Data) (asset_type : value)
    (w : World) (dic : list MasterEntry) :
  heap w !! df_dicionario self = Some (OMaster dic) ->
  let rows :=
    if bool_decide (asset_type = VStr "acoes")
    then filter (fun e => na_false (contains ACOES) (ULTIMA_ESPECIFICACAO e) = true) dic
    else dic in
  (Forall (fun e => is_Some (ULTIMO_TICKER e)) rows ->
   exists ts,
     list_tickers self asset_type w = (inr (Some <$> ts), w) ∧
     StronglySorted str_le ts ∧ NoDup ts ∧
     forall t, t ∈ ts <-> exists e, e ∈ rows ∧ ULTIMO_TICKER e = Some t) ∧
  (forall e1 e2 t, e1 ∈ rows -> e2 ∈ rows ->
     ULTIMO_TICKER e1 = None -> ULTIMO_TICKER e2 = Some t ->
     list_tickers self asset_type w = (inl TypeError, w)).
Proof.
  clear re_compile pd_to_datetime.
  intros Hdic rows.
  assert (Hrun : list_tickers self asset_type w
                 = (sorted_tickers (unique (ULTIMO_TICKER <$> rows)), w)).
  { unfold list_tickers, bindM, load_master, lift. by rewrite Hdic. }
  rewrite Hrun. clear Hrun. set (tickers := unique (ULTIMO_TICKER <$> rows)).
  assert (Htickers : forall o, o ∈ tickers <-> exists e, e ∈ rows ∧ ULTIMO_TICKER e = o).
  { intros o. unfold tickers. rewrite elem_of_unique, list_elem_of_fmap.
    naive_solver. }
  split.
  - intros Hall.
    assert (Hsome : Forall is_Some tickers).
    { apply Forall_forall. intros o (e & He & <-)%Htickers.
      by apply (proj1 (Forall_forall _ _) Hall). }
    destruct (traverse_all_some tickers Hsome) as [Htr Hback].
    exists (sorted (notna_values tickers)). split; [|split; [|split]].
    + unfold sorted_tickers. rewrite Htr. simpl.
      destruct tickers as [|[s|] [|o rest]]; try done.
    + apply sorted_StronglySorted.
    + rewrite sorted_Permutation. apply notna_values_NoDup, unique_NoDup.
    + intros t. rewrite sorted_Permutation, elem_of_notna_values.
      by rewrite Htickers.
  - intros e1 e2 t He1 He2 Hnone Hsome. f_equal.
    assert (Hn : None ∈ tickers) by (apply Htickers; eauto).
    assert (Hs : Some t ∈ tickers) by (apply Htickers; eauto).
    unfold sorted_tickers.
    assert (Htr : traverse (fun t : option string =>
                     match t with Some s => inr s | None => raise TypeError end)
                    tickers = inl TypeError).
    { apply (traverse_raises _ _ None); [done|done|].
      intros [s|] e'; [done|by intros [= <-]]. }
    rewrite Htr. simpl.
    destruct tickers as [|[s|] [|o rest]]; try done.
    apply list_elem_of_singleton in Hs. done.
Qed.

(** *** The dictionaries of codes *)

Lemma to_dict_lookup_from (frame : list (Z * string)) (d : gmap string Z)
    (desc : string) :
  foldl (fun d row => <[row.2 := row.1]> d) d frame !! desc
  = match last (filter (fun row => row.2 = desc) frame) with
    | Some row => Some row.1
    | None => d !! desc
    end.
Proof.
  revert d. induction frame as [|[code text] frame IH]; intros d; [done|].
  cbn [foldl]. rewrite IH. cbn [fst snd].
  destruct (decide (text = desc)) as [->|Hne].
  - rewrite filter_cons_True by done. rewrite last_cons.
    destruct (last (filter _ frame)); [done|]. by rewrite lookup_insert_eq.
  - rewrite filter_cons_False by done.
    destruct (last (filter _ frame)); [done|]. by rewrite lookup_insert_ne.
Qed.

(** X24. A code passed as a description resolves to the code of the last
    row of the dictionary that carries the description in upper case (of
    several codes with one description only the last can be reached);
    what is no description of the dictionary is passed to [int]. *)
Theorem code_of_description (frame : list (Z * string)) (item : atom) :
  code_of (to_dict frame) item
  = match last (filter (fun row => row.2 = upper (py_str item)) frame) with
    | Some row => inr row.1
    | None => py_int item
    end.
Proof.
  unfold code_of, to_dict. rewrite to_dict_lookup_from.
  by destruct (last _).
Qed.

(** X25. [B3Data.__init__] raises FileNotFoundError when the main file or
    the security master is missing.  On the dictionaries that
    [create_code_dictionaries] has written it builds an engine whose
    master and two maps are new objects; every description that is its
    own upper case then resolves, for a market type to its own code, and
    for a BDI code to the last code listed with it, so that ['LEILÃO']
    stands for 62 and ['LEILÃO DE AÇÕES'] for 54 alone. *)
Theorem generated_dictionaries_in_the_engine (store : Store) (out : Outputs)
    (w : World) :
  __init__ None out w = (inl OSError, w) ∧
  match dicionario_ativos out with
  | None =>
      __init__ (Some store) (create_code_dictionaries out) w = (inl OSError, w)
  | Some ativos =>
      exists self w' codbdi tpmerc,
        __init__ (Some store) (create_code_dictionaries out) w = (inr self, w') ∧
        full_data self = store ∧
        heap w' !! df_dicionario self = Some (OMaster ativos) ∧
        heap w' !! codbdi_map self = Some (ODict codbdi) ∧
        heap w' !! tpmerc_map self = Some (ODict tpmerc) ∧
        heap w ⊆ heap w' ∧
        Forall (fun cd =>
                  upper cd.2 = cd.2 ->
                  code_of tpmerc (AStr cd.2) = to_numeric_code cd.1)
          map_tpmerc ∧
        Forall (fun cd =>
                  upper cd.2 = cd.2 ->
                  exists code,
                    last (filter (fun cd' => cd'.2 = cd.2) map_codbdi).*1
                    = Some code ∧
                    code_of codbdi (AStr cd.2) = to_numeric_code code)
          map_codbdi ∧
        (upper (latin1 "LEILÃO") = latin1 "LEILÃO" ->
         code_of codbdi (AStr (latin1 "LEILÃO")) = inr 62%Z) ∧
        (upper (latin1 "LEILÃO DE AÇÕES") = latin1 "LEILÃO DE AÇÕES" ->
         code_of codbdi (AStr (latin1 "LEILÃO DE AÇÕES")) = inr 54%Z)
  end.
Proof.
  split; [done|].
  destruct (dicionario_ativos out) as [ativos|] eqn:Hativos.
  2: { unfold __init__, create_code_dictionaries.
       destruct (code_frame map_codbdi), (code_frame map_tpmerc);
         cbn [dicionario_ativos read_file]; by rewrite ?Hativos. }
  destruct (code_frame map_codbdi) as [e|frame_codbdi] eqn:Hcodbdi;
    [by vm_compute in Hcodbdi|].
  destruct (code_frame map_tpmerc) as [e|frame_tpmerc] eqn:Htpmerc;
    [by vm_compute in Htpmerc|].
  unfold __init__, create_code_dictionaries. rewrite Hcodbdi, Htpmerc.
  cbn [dicionario_ativos dicionario_codbdi dicionario_tpmerc read_file].
  rewrite Hativos. unfold bindM, ret, alloc. cbn [heap scans fst snd].
  set (l1 := fresh (dom (heap w))).
  set (h1 := <[l1 := OMaster ativos]> (heap w)).
  set (l2 := fresh (dom h1)).
  set (h2 := <[l2 := ODict (to_dict frame_codbdi)]> h1).
  set (l3 := fresh (dom h2)).
  assert (H1 : heap w !! l1 = None) by apply not_elem_of_dom, is_fresh.
  assert (H2 : h1 !! l2 = None) by apply not_elem_of_dom, is_fresh.
  assert (H3 : h2 !! l3 = None) by apply not_elem_of_dom, is_fresh.
  assert (l2 <> l1) by (intros ->; unfold h1 in H2; by rewrite lookup_insert_eq in H2).
  assert (l3 <> l2) by (intros ->; unfold h2 in H3; by rewrite lookup_insert_eq in H3).
  assert (l3 <> l1).
  { intros ->. unfold h2 in H3. rewrite lookup_insert_ne in H3 by done.
    unfold h1 in H3. by rewrite lookup_insert_eq in H3. }
  eexists _, _, (to_dict frame_codbdi), (to_dict frame_tpmerc).
  split; [reflexivity|]. cbn [full_data df_dicionario codbdi_map tpmerc_map heap].
  split; [done|]. split.
  { rewrite lookup_insert_ne by done. unfold h2.
    rewrite lookup_insert_ne by done. apply lookup_insert_eq. }
  split. { rewrite lookup_insert_ne by done. apply lookup_insert_eq. }
  split; [apply lookup_insert_eq|]. split.
  { etrans; [|by apply insert_subseteq]. etrans; [|by apply insert_subseteq].
    by apply insert_subseteq. }
  assert (frame_codbdi = match code_frame map_codbdi with inr f => f | inl _ => [] end)
    as -> by (by rewrite Hcodbdi).
  assert (frame_tpmerc = match code_frame map_tpmerc with inr f => f | inl _ => [] end)
    as -> by (by rewrite Htpmerc).
  clear. unfold code_of. cbn [py_str].
  split; [|split; [|split]].
  - repeat (constructor;
            [intros Hupper; rewrite Hupper; vm_compute; reflexivity|]).
    constructor.
  - repeat (constructor;
            [intros Hupper; rewrite Hupper;
             eexists; split; vm_compute; reflexivity|]).
    constructor.
  - intros Hupper. rewrite Hupper. vm_compute. reflexivity.
  - intros Hupper. rewrite Hupper. vm_compute. reflexivity.
Qed.

(** *** The master in the engine *)

(** X26. In a master built by [create_security_master], an instrument of
    the store is found by [find_assets] under every query whose upper
    case is its identifier, and exactly one entry carries the
    identifier. *)
Theorem every_instrument_is_found_by_ISIN (df_full : list QuoteRow)
    (r : QuoteRow) (k query : string) (word : string -> bool) :
  r ∈ df_full -> CODISI r = Some k -> upper query = k ->
  exists e,
    e ∈ find_assets_rows (create_security_master df_full) (upper query) word ∧
    m_CODISI e = Some k ∧
    forall e', e' ∈ create_security_master df_full -> m_CODISI e' = Some k ->
      e' = e.
Proof.
  intros Hr Hk Hq.
  destruct (create_security_master_with_spec sort_values_DATA_PREGAO_desc
              df_full sort_values_DATA_PREGAO_desc_Permutation
              sort_values_DATA_PREGAO_desc_Sorted) as (Hnd & Hids & _).
  fold (create_security_master df_full) in Hnd, Hids.
  assert (Hin : Some k ∈ m_CODISI <$> create_security_master df_full)
    by (apply Hids; eauto).
  apply list_elem_of_fmap in Hin as (e & Hid & He).
  exists e. split; [|split; [done|]].
  - apply list_elem_of_filter. split; [|done]. right. right. congruence.
  - intros e' He' Hk'.
    apply list_elem_of_lookup in He as [i Hi].
    apply list_elem_of_lookup in He' as [j Hj].
    assert (i = j) as ->; [|congruence].
    apply (NoDup_lookup _ i j (Some k) Hnd);
      rewrite list_lookup_fmap; [by rewrite Hi, Hid|by rewrite Hj, <- Hk'].
Qed.

End Engine.

(** *** The engine with the plain instances *)

Lemma upper_plain_on_ascii : upper_on_ascii upper_plain.
Proof.
  intros s. unfold is_ascii_text, upper_plain, upper_a_z.
  induction s as [|c s IH]; [done|]. simpl.
  intros [Hc Hs]%andb_true_iff. rewrite IH by done. f_equal.
  apply bool_decide_eq_true in Hc. unfold upper_latin1, upper_ascii.
  repeat case_bool_decide; try done; lia.
Qed.

Abbreviation get_quotes_plain :=
  (get_quotes re_compile_plain pd_to_datetime_plain upper_plain int_plain
     scan_error_plain).

(** The dictionaries written beside the master of the sample engine. *)
Definition sample_outputs : Outputs :=
  {| dicionario_ativos := Some [petr_entry; vale_entry];
     dicionario_codbdi := None; dicionario_tpmerc := None |}.

Lemma generated_dictionaries_in_the_engine_witness :
  exists self w' codbdi tpmerc,
    __init__ (Some (inr sample_rows)) (create_code_dictionaries sample_outputs)
      sample_world = (inr self, w') ∧
    heap w' !! codbdi_map self = Some (ODict codbdi) ∧
    heap w' !! tpmerc_map self = Some (ODict tpmerc) ∧
    Forall (fun cd =>
              code_of upper_plain int_plain tpmerc (AStr cd.2)
              = to_numeric_code cd.1)
      map_tpmerc ∧
    code_of upper_plain int_plain tpmerc (AStr "vista") = inr 10%Z ∧
    code_of upper_plain int_plain codbdi (AStr (latin1 "LEILÃO")) = inr 62%Z ∧
    code_of upper_plain int_plain codbdi (AStr (latin1 "LEILÃO DE AÇÕES"))
    = inr 54%Z.
Proof.
  destruct (generated_dictionaries_in_the_engine upper_plain int_plain
              (inr sample_rows) sample_outputs sample_world)
    as [_ (self & w' & codbdi & tpmerc & Hinit & _ & _ & Hcodbdi & Htpmerc & _
           & Hmarket & _ & H62 & H54)].
  exists self, w', codbdi, tpmerc.
  split; [exact Hinit|]. split; [exact Hcodbdi|]. split; [exact Htpmerc|].
  assert (Hfixed : Forall (fun cd : string * string => upper_plain cd.2 = cd.2)
                     map_tpmerc) by (by repeat constructor).
  split; [|split; [|split; [by apply H62|by apply H54]]].
  - rewrite Forall_forall in Hfixed, Hmarket. apply Forall_forall.
    intros cd Hcd. by apply Hmarket, Hfixed.
  - apply Forall_cons in Hmarket as [Hvista _]. by apply Hvista.
Defined.

Lemma every_instrument_is_found_by_ISIN_witness :
  exists e,
    e ∈ find_assets_rows (create_security_master petr_rows)
          (upper_plain "brpetracnpr6") word_VALE ∧
    m_CODISI e = Some "BRPETRACNPR6" ∧
    forall e', e' ∈ create_security_master petr_rows ->
      m_CODISI e' = Some "BRPETRACNPR6" -> e' = e.
Proof.
  apply (every_instrument_is_found_by_ISIN upper_plain petr_rows
           {| DATA_PREGAO := Some 20230103%Z; CODISI := Some "BRPETRACNPR6";
              CODNEG := Some "PETR3"; NOMRES := Some "PETROBRAS";
              ESPECI := Some "PN" |} "BRPETRACNPR6" "brpetracnpr6" word_VALE).
  - left.
  - reflexivity.
  - reflexivity.
Defined.

(** *** The engine on the sample store *)

Lemma get_quotes_without_starter_witness :
  get_quotes_plain sample_engine
    {[ "start_date" := VStr "2023-01-01" ]} sample_world
  = (inl ValueError, sample_world).
Proof.
  apply (get_quotes_without_starter re_compile_plain pd_to_datetime_plain
            upper_plain int_plain scan_error_plain
           sample_engine
           {[ "start_date" := VStr "2023-01-01" ]} sample_world).
  unfold valid_starters. repeat constructor.
Defined.

Lemma get_quotes_none_valued_starter_witness :
  exists l w',
    get_quotes_plain sample_engine
      {[ "tickers" := VNone ]} sample_world = (inr l, w') ∧
    scans w'
    = scans sample_world
      ++ [ {| scan_columns := AStr <$> key_columns ++ default_columns;
              scan_filters := None |} ] ∧
    heap w' !! l
    = Some (OQuotes
              (or_empty
                 (scan_filter_sort re_compile_plain upper_plain scan_error_plain
                    (full_data sample_engine)
                    {[ "tickers" := VNone ]} None
                    {| scan_columns := AStr <$> key_columns ++ default_columns;
                       scan_filters := None |}))).
Proof.
  apply (get_quotes_none_valued_starter re_compile_plain pd_to_datetime_plain
            upper_plain int_plain scan_error_plain
           sample_engine {[ "tickers" := VNone ]} sample_world
           (list_to_map [("LOTE PADRAO", 2%Z); ("FUNDOS IMOBILIARIOS", 12%Z)])
           (list_to_map [("VISTA", 10%Z); ("OPCOES DE COMPRA", 70%Z)])).
  - apply Exists_cons_hd. reflexivity.
  - by apply map_Forall_singleton.
  - reflexivity.
  - reflexivity.
Defined.

(** An unreadable store gives the empty frame, after one logged scan. *)
Example get_quotes_on_broken_store :
  exists l w',
    get_quotes_plain broken_engine
      options_of_vale sample_world = (inr l, w') ∧
    length (scans w') = 1%nat ∧
    heap w' !! l = Some (OQuotes pd_DataFrame).
Proof.
  eexists _, _. split; [vm_compute; reflexivity|].
  split; vm_compute; reflexivity.
Qed.

(** The options of VALE in the sample store, by ticker and date. *)
Example get_quotes_options_of_vale :
  exists l w' df,
    get_quotes_plain sample_engine
      options_of_vale sample_world = (inr l, w') ∧
    heap w' !! l = Some (OQuotes df) ∧
    (fun row : Row => (row !! "CODNEG", row !! "DATA_PREGAO")) <$> qf_rows df
    = [ (Some (Str "VALEA123"), Some (Timestamp 20230103));
        (Some (Str "VALEA123"), Some (Timestamp 20230104)) ].
Proof.
  eexists _, _, _. split; [vm_compute; reflexivity|].
  split; vm_compute; reflexivity.
Qed.

Lemma get_quotes_options_by_entity_witness :
  "VALE" = substring 0 4 "VALE3" ∧
  forall l w' df row,
    get_quotes_plain sample_engine options_of_vale sample_world = (inr l, w') ->
    heap w' !! l = Some (OQuotes df) ->
    row ∈ qf_rows df ->
    (exists c,
       row !! "CODNEG" = Some (Str c) ∧
       (truthy (get options_of_vale "ticker_root") = false ->
        startswith "VALE" c = true) ∧
       (forall r, get options_of_vale "ticker_root" = VStr r -> r <> "" ->
          startswith (upper_plain r) c = true)) ∧
    (exists rows names s z,
       full_data sample_engine = inr rows ∧ s ∈ rows ∧ row = project names s ∧
       s !! "TPMERC" = Some (Int z) ∧ z ∈ [70; 80; 12; 13]%Z).
Proof.
  refine (get_quotes_options_by_entity re_compile_plain pd_to_datetime_plain
            upper_plain int_plain scan_error_plain
            sample_engine options_of_vale sample_world "vale"
            [petr_entry; vale_entry] word_VALE upper_plain_on_ascii
            _ _ _ _ _ "VALE3" "VALE" _ _).
  - reflexivity.
  - reflexivity.
  - discriminate.
  - reflexivity.
  - reflexivity.
  - reflexivity.
  - reflexivity.
Defined.

(** C8, as stated, fails: a ticker root passed besides the entity takes
    precedence over the root of the entity's latest ticker.  The entity
    [vale] resolves to VALE3, whose root is VALE, yet with
    [ticker_root='PETR'] the row returned is an option of PETR. *)
Lemma get_quotes_options_ticker_root_overrides_entity :
  find_assets_rows [petr_entry; vale_entry] (upper_plain "vale") word_VALE
    = [vale_entry] ∧
  match_root "VALE3" = Some "VALE" ∧
  exists l w' df row,
    get_quotes_plain sample_engine
      options_of_vale_with_root sample_world = (inr l, w') ∧
    heap w' !! l = Some (OQuotes df) ∧
    row ∈ qf_rows df ∧
    row !! "CODNEG" = Some (Str "PETRA123") ∧
    startswith "VALE" "PETRA123" = false.
Proof.
  split; [vm_compute; reflexivity|]. split; [reflexivity|].
  eexists _, _, _, _. split; [vm_compute; reflexivity|].
  split; [vm_compute; reflexivity|].
  split; [left|]. split; vm_compute; reflexivity.
Qed.

(** *** The further results on the sample store *)

Lemma get_quotes_result_is_sorted_witness :
  exists l w' df,
    get_quotes_plain sample_engine
      options_of_vale sample_world = (inr l, w') ∧
    heap w' !! l = Some (OQuotes df) ∧
    Sorted quote_order (qf_rows df) ∧
    (forall rows, full_data sample_engine = inr rows ->
       Forall typed_quote rows -> StronglySorted quote_order (qf_rows df)).
Proof.
  eexists _, _, _. split; [vm_compute; reflexivity|].
  split; [vm_compute; reflexivity|].
  eapply (get_quotes_result_is_sorted re_compile_plain pd_to_datetime_plain
            upper_plain int_plain scan_error_plain
            sample_engine options_of_vale sample_world);
    vm_compute; reflexivity.
Defined.

Lemma get_quotes_rows_pass_the_post_filters_witness :
  exists l w' df row,
    get_quotes_plain sample_engine
      vale_by_ticker sample_world = (inr l, w') ∧
    heap w' !! l = Some (OQuotes df) ∧
    row ∈ qf_rows df ∧
    (forall r, get vale_by_ticker "ticker_root" = VStr r -> r <> "" ->
       exists c, row !! "CODNEG" = Some (Str c) ∧ startswith (upper_plain r) c = true) ∧
    (forall ac, get vale_by_ticker "asset_class" = VStr ac -> lower ac = "bdr" ->
       exists s, row !! "ESPECI" = Some (Str s) ∧ contains "DR" (upper_a_z s) = true) ∧
    (get vale_by_ticker "especificacao" <> VNone ->
       exists pattern search s,
         join_pattern (as_list (get vale_by_ticker "especificacao")) = inr pattern ∧
         re_compile_plain pattern true = inr search ∧
         row !! "ESPECI" = Some (Str s) ∧ search s = true).
Proof.
  eexists _, _, _, _. split; [vm_compute; reflexivity|].
  split; [vm_compute; reflexivity|]. split; [left|].
  eapply (get_quotes_rows_pass_the_post_filters re_compile_plain pd_to_datetime_plain
            upper_plain int_plain scan_error_plain sample_engine vale_by_ticker sample_world).
  - vm_compute. reflexivity.
  - vm_compute. reflexivity.
  - left.
Defined.

Lemma get_quotes_entity_without_match_witness :
  exists l w',
    get_quotes_plain sample_engine
      {[ "entity" := VStr "gerdau" ]} sample_world = (inr l, w') ∧
    scans w' = scans sample_world ∧
    heap sample_world !! l = None ∧
    heap w' !! l = Some (OQuotes pd_DataFrame).
Proof.
  eapply (get_quotes_entity_without_match re_compile_plain pd_to_datetime_plain
            upper_plain int_plain scan_error_plain
            sample_engine {[ "entity" := VStr "gerdau" ]} sample_world "gerdau"
            [petr_entry; vale_entry]).
  - reflexivity.
  - discriminate.
  - right. reflexivity.
  - reflexivity.
  - reflexivity.
  - vm_compute. reflexivity.
Defined.

Lemma get_quotes_unknown_code_description_witness :
  get_quotes_plain sample_engine
    {[ "codbdi" := VStr "lote" ]} sample_world
  = (inl ValueError, sample_world).
Proof.
  eapply (get_quotes_unknown_code_description re_compile_plain pd_to_datetime_plain
            upper_plain int_plain scan_error_plain sample_engine {[ "codbdi" := VStr "lote" ]}
            sample_world
            (list_to_map [("LOTE PADRAO", 2%Z); ("FUNDOS IMOBILIARIOS", 12%Z)])
            (list_to_map [("VISTA", 10%Z); ("OPCOES DE COMPRA", 70%Z)])
            "lote").
  - reflexivity.
  - reflexivity.
  - vm_compute. reflexivity.
  - reflexivity.
  - reflexivity.
  - reflexivity.
  - vm_compute. reflexivity.
  - reflexivity.
Defined.

Lemma explicit_tickers_override_entity_witness :
  get_quotes_plain sample_engine
    vale3_of_petrobras sample_world
  = get_quotes_plain sample_engine
      (delete "entity" vale3_of_petrobras) sample_world.
Proof.
  apply (explicit_tickers_override_entity re_compile_plain pd_to_datetime_plain
            upper_plain int_plain scan_error_plain
           sample_engine vale3_of_petrobras sample_world).
  - by eexists.
  - intros H. vm_compute in H. discriminate.
Defined.

Lemma get_quotes_rows_of_asset_class_witness :
  exists l w' df row,
    get_quotes_plain sample_engine
      options_of_vale sample_world = (inr l, w') ∧
    heap w' !! l = Some (OQuotes df) ∧
    row ∈ qf_rows df ∧
    exists rows s,
      full_data sample_engine = inr rows ∧ s ∈ rows ∧
      row = project (qf_columns df) s ∧
      (lower "options" = "equity" ->
       exists b m, s !! "CODBDI" = Some (Int b) ∧ b ∈ [2; 96]%Z ∧
                   s !! "TPMERC" = Some (Int m) ∧ m ∈ [10; 20]%Z) ∧
      (lower "options" = "fii" -> s !! "CODBDI" = Some (Int 12)) ∧
      (lower "options" = "options" ->
       exists m, s !! "TPMERC" = Some (Int m) ∧ m ∈ [70; 80; 12; 13]%Z).
Proof.
  eexists _, _, _, _. split; [vm_compute; reflexivity|].
  split; [vm_compute; reflexivity|]. split; [left|].
  eapply (get_quotes_rows_of_asset_class re_compile_plain pd_to_datetime_plain
            upper_plain int_plain scan_error_plain
            sample_engine options_of_vale sample_world _ _ _ _ "options").
  - reflexivity.
  - vm_compute. reflexivity.
  - vm_compute. reflexivity.
  - left.
Defined.

Lemma get_quotes_rows_in_date_range_witness :
  exists l w' df row,
    get_quotes_plain sample_engine
      vale_by_ticker sample_world = (inr l, w') ∧
    heap w' !! l = Some (OQuotes df) ∧
    row ∈ qf_rows df ∧
    (forall t, get vale_by_ticker "start_date" <> VNone ->
       pd_to_datetime_plain (get vale_by_ticker "start_date") = inr (FV_time t) ->
       exists d, row !! "DATA_PREGAO" = Some (Timestamp d) ∧ (t <= d)%Z) ∧
    (forall t, get vale_by_ticker "end_date" <> VNone ->
       pd_to_datetime_plain (get vale_by_ticker "end_date") = inr (FV_time t) ->
       exists d, row !! "DATA_PREGAO" = Some (Timestamp d) ∧ (d <= t)%Z).
Proof.
  eexists _, _, _, _. split; [vm_compute; reflexivity|].
  split; [vm_compute; reflexivity|]. split; [left|].
  eapply (get_quotes_rows_in_date_range re_compile_plain pd_to_datetime_plain
            upper_plain int_plain scan_error_plain
            sample_engine vale_by_ticker sample_world).
  - vm_compute. reflexivity.
  - vm_compute. reflexivity.
  - left.
Defined.

Lemma get_quotes_rows_have_the_tickers_witness :
  exists l w' df row,
    get_quotes_plain sample_engine
      vale_by_ticker sample_world = (inr l, w') ∧
    heap w' !! l = Some (OQuotes df) ∧
    row ∈ qf_rows df ∧
    exists a, a ∈ as_list (VList [AStr "vale3"; AStr "valea123"]) ∧
              row !! "CODNEG" = Some (Str (upper_plain (py_str a))).
Proof.
  eexists _, _, _, _. split; [vm_compute; reflexivity|].
  split; [vm_compute; reflexivity|]. split; [left|].
  eapply (get_quotes_rows_have_the_tickers re_compile_plain pd_to_datetime_plain
            upper_plain int_plain scan_error_plain
            sample_engine vale_by_ticker sample_world).
  - reflexivity.
  - discriminate.
  - vm_compute. reflexivity.
  - vm_compute. reflexivity.
  - left.
Defined.

Lemma get_quotes_rows_of_entity_witness :
  exists l w' df row,
    get_quotes_plain sample_engine
      {[ "entity" := VStr "vale" ]} sample_world = (inr l, w') ∧
    heap w' !! l = Some (OQuotes df) ∧
    row ∈ qf_rows df ∧
    exists dic word e trail t,
      heap sample_world !! df_dicionario sample_engine = Some (OMaster dic) ∧
      re_compile_plain ("\b" +:+ upper_plain "vale" +:+ "\b") false = inr word ∧
      e ∈ find_assets_rows dic (upper_plain "vale") word ∧
      TICKERS_HISTORICOS e = Some trail ∧ t ∈ str_split trail ∧
      valid_ticker t = true ∧
      (get {[ "entity" := VStr "vale" ]} "asset_class" = VStr "equity" ->
       equity_suffix t = true) ∧
      row !! "CODNEG" = Some (Str t).
Proof.
  eexists _, _, _, _. split; [vm_compute; reflexivity|].
  split; [vm_compute; reflexivity|]. split; [left|].
  eapply (get_quotes_rows_of_entity re_compile_plain pd_to_datetime_plain
            upper_plain int_plain scan_error_plain
            sample_engine {[ "entity" := VStr "vale" ]} sample_world).
  - exact upper_plain_on_ascii.
  - reflexivity.
  - discriminate.
  - reflexivity.
  - discriminate.
  - vm_compute. reflexivity.
  - vm_compute. reflexivity.
  - left.
Defined.

Lemma list_tickers_sorted_or_raises_witness :
  (Forall (fun e => is_Some (ULTIMO_TICKER e)) [petr_entry; vale_entry] ->
   exists ts,
     list_tickers sample_engine (VStr "todos") sample_world
     = (inr (Some <$> ts), sample_world) ∧
     StronglySorted str_le ts ∧ NoDup ts ∧
     forall t, t ∈ ts <->
       exists e, e ∈ [petr_entry; vale_entry] ∧ ULTIMO_TICKER e = Some t) ∧
  (forall e1 e2 t, e1 ∈ [petr_entry; vale_entry] -> e2 ∈ [petr_entry; vale_entry] ->
     ULTIMO_TICKER e1 = None -> ULTIMO_TICKER e2 = Some t ->
     list_tickers sample_engine (VStr "todos") sample_world
     = (inl TypeError, sample_world)).
Proof.
  apply (list_tickers_sorted_or_raises sample_engine (VStr "todos") sample_world
           [petr_entry; vale_entry]).
  reflexivity.
Defined.

End Analyzer.
